(** * autogoal.search._base: the search driver and its loggers

    A shallow embedding of [SearchAlgorithm] (constructor and [run]) and of
    the logger classes [Logger], [MemoryLogger] and [MultiLogger] of
    [src/autogoal/search/_base.py].

    Modelling conventions.
    - Fitness values and clock readings are exact rationals ([Q]); Python
      floats are not modelled, and NaN, with which every comparison is
      false, has no counterpart.
    - Python exceptions are the constructors of [exn].  Every subclass of
      [Exception] answers [isinstance_Exception = true]; the classes derived
      from [BaseException] only are [KeyboardInterrupt], [SystemExit] and
      [GeneratorExit], of which [run] handles the first.
    - [run] is written in a state-and-exception monad [M]: the state holds the
      local variables of [run], the heap the loggers live in, and a ghost
      record of every hook invocation.  State changes survive a raised
      exception, as they do in Python.
    - The generator, the sampler builder and the fitness function are
      arbitrary external callables.  They are described by the outcome of
      their k-th call (an oracle indexed by the number of draws made so far),
      an outcome being a returned value, a raised exception, or a call that
      never returns.  An external interrupt is a KeyboardInterrupt raised by
      one of these calls, where a run spends its time.
    - A logger hook may return or raise; the call record notes the
      invocation before the hook runs.  The statements about [run] are made
      for loggers whose hooks return ([never_raises]), as those of [Logger]
      and [MemoryLogger] do in the runs considered.
    - The [while] loop of [run] need not terminate (an unbounded budget, a
      generator that always fails): it is run with fuel, and a run that has
      not finished when the fuel is spent has outcome [Diverge].
    - [print] statements and the no-op template methods [_start_generation]
      and [_finish_generation] of the base class have no effect on the
      modelled state and are left as comments. *)

From Stdlib Require Import ZArith QArith Qreduction List Sorted String Bool Lia.
Import ListNotations.

Local Open Scope string_scope.
Local Open Scope list_scope.
Local Open Scope Z_scope.

(** ** Python values shared by all classes *)

Inductive exn : Type :=
| ValueError (msg : string)
| NotImplementedError
| StatisticsError (msg : string)
| IndexError (msg : string)
| Exception (msg : string)      (* any other subclass of Exception *)
| KeyboardInterrupt              (* the subclasses of BaseException only *)
| SystemExit
| GeneratorExit.

Definition isinstance_Exception (e : exn) : bool :=
  match e with
  | KeyboardInterrupt | SystemExit | GeneratorExit => false
  | _ => true
  end.

Definition isinstance_KeyboardInterrupt (e : exn) : bool :=
  match e with
  | KeyboardInterrupt => true
  | _ => false
  end.

(** [str(e)] *)
Definition str (e : exn) : string :=
  match e with
  | ValueError msg | StatisticsError msg | IndexError msg | Exception msg => msg
  | NotImplementedError => ""
  | KeyboardInterrupt | SystemExit | GeneratorExit => ""
  end.

(** The result of calling a Python callable. *)
Inductive outcome (A : Type) : Type :=
| Return (a : A)
| Raise (e : exn)
| Diverge.                       (* the call never returns *)

Arguments Return {A} a.
Arguments Raise {A} e.
Arguments Diverge {A}.

Definition returns {A : Type} (o : outcome A) : Prop := exists a, o = Return a.

(** [evaluations] is an [int] or [math.inf]. *)
Inductive budget : Type :=
| fin (n : Z)
| inf.

Definition budget_pred (b : budget) : budget :=      (* b - 1 *)
  match b with fin n => fin (n - 1) | inf => inf end.

Definition budget_pos (b : budget) : bool :=         (* b > 0 *)
  match b with fin n => 0 <? n | inf => true end.

Definition budget_nonpos (b : budget) : bool :=      (* b <= 0 *)
  match b with fin n => n <=? 0 | inf => false end.

(** Comparison of numbers: [x > y] and [x < y]. *)
Definition Qgt_bool (x y : Q) : bool := negb (Qle_bool x y).
Definition Qlt_bool (x y : Q) : bool := negb (Qle_bool y x).

(** Truthiness of an [int] and of an optional [int]. *)
Definition truthy (n : Z) : bool := negb (n =? 0).

Definition truthy_opt (n : option Z) : bool :=
  match n with None => false | Some n => truthy n end.

(** ** Logger events *)

Section Search.

Variable Sol : Type.             (* candidate solutions, opaque to the engine *)
Variable Sampler : Type.         (* what [_build_sampler] returns *)

(** First argument of [logger.error]: a message or the exception itself. *)
Inductive error_arg : Type :=
| err_str (s : string)
| err_exn (e : exn).

(** One constructor per hook of [Logger], with the arguments of the call. *)
Inductive event : Type :=
| ev_begin (evaluations : budget)
| ev_end (best : option Sol) (best_fn : option Q)
| ev_start_generation (evaluations : budget) (best_fn : option Q)
| ev_finish_generation (fns : list Q)
| ev_sample_solution (solution : Sol)
| ev_eval_solution (solution : Sol) (fitness : Q)
| ev_error (e : error_arg) (solution : option Sol)
| ev_update_best (new_best : Sol) (new_fn : Q)
                 (previous_best : option Sol) (previous_fn : option Q).

Definition is_begin (ev : event) : bool :=
  match ev with ev_begin _ => true | _ => false end.
Definition is_end (ev : event) : bool :=
  match ev with ev_end _ _ => true | _ => false end.
Definition is_start_generation (ev : event) : bool :=
  match ev with ev_start_generation _ _ => true | _ => false end.
Definition is_finish_generation (ev : event) : bool :=
  match ev with ev_finish_generation _ => true | _ => false end.
Definition is_sample_solution (ev : event) : bool :=
  match ev with ev_sample_solution _ => true | _ => false end.
Definition is_eval_solution (ev : event) : bool :=
  match ev with ev_eval_solution _ _ => true | _ => false end.
Definition is_update_best (ev : event) : bool :=
  match ev with ev_update_best _ _ _ _ => true | _ => false end.
Definition is_generation_error (ev : event) : bool :=
  match ev with ev_error _ None => true | _ => false end.

(** Number of calls of one kind in a call record. *)
Definition count (p : event -> bool) (l : list event) : nat :=
  List.length (filter p l).

(** ** Loggers

    A logger object lives in a heap [H]; invoking one of its hooks transforms
    the heap and returns or raises. *)

Section Loggers.

Variable H : Type.

Definition logger_t : Type := event -> H -> outcome unit * H.

(** class Logger: every hook is [pass]. *)
Definition Logger : logger_t := fun _ h => (Return tt, h).

(** class MultiLogger: [run(name, *args)] calls the hook on each logger of
    [self.loggers] in order; an exception leaves the loop. *)
Fixpoint MultiLogger_run (loggers : list logger_t) (ev : event) (h : H)
  : outcome unit * H :=
  match loggers with
  | [] => (Return tt, h)
  | lg :: rest =>
      match lg ev h with
      | (Return _, h') => MultiLogger_run rest ev h'
      | (Raise e, h') => (Raise e, h')
      | (Diverge, h') => (Diverge, h')
      end
  end.

Definition MultiLogger (loggers : list logger_t) : logger_t :=
  fun ev h => MultiLogger_run loggers ev h.

(** A logger whose hooks always return normally. *)
Definition never_raises (lg : logger_t) : Prop :=
  forall ev h, fst (lg ev h) = Return tt.

End Loggers.

(** class MemoryLogger.  The heap is the object itself: its two list
    attributes. *)
Record MemoryLogger_obj : Type := mkMemoryLogger {
  generation_best_fn : list Q;
  generation_mean_fn : list Q
}.

(** [MemoryLogger()] *)
Definition MemoryLogger_init : MemoryLogger_obj :=
  {| generation_best_fn := [0%Q]; generation_mean_fn := [] |}.

(** [l[-1]]; [None] stands for the IndexError of an empty list. *)
Definition last_item (l : list Q) : option Q :=
  match rev l with
  | [] => None
  | x :: _ => Some x
  end.

(** [l[-1] = v] *)
Definition set_last_item (l : list Q) (v : Q) : option (list Q) :=
  match rev l with
  | [] => None
  | _ :: r => Some (rev r ++ [v])
  end.

Definition Qsum (l : list Q) : Q := fold_left Qplus l 0%Q.

(** [statistics.mean(fns)]: the exact mean; StatisticsError on no data. *)
Definition statistics_mean (fns : list Q) : outcome Q :=
  match fns with
  | [] => Raise (StatisticsError "mean requires at least one data point")
  | _ => Return (Qred (Qsum fns / inject_Z (Z.of_nat (List.length fns))))
  end.

Definition MemoryLogger_update_best (new_fn : Q) (self : MemoryLogger_obj)
  : outcome unit * MemoryLogger_obj :=
  match set_last_item (generation_best_fn self) new_fn with
  | Some l =>
      (Return tt,
       {| generation_best_fn := l;
          generation_mean_fn := generation_mean_fn self |})
  | None => (Raise (IndexError "list assignment index out of range"), self)
  end.

Definition MemoryLogger_finish_generation (fns : list Q)
  (self : MemoryLogger_obj) : outcome unit * MemoryLogger_obj :=
  let mean :=
    match statistics_mean fns with
    | Return m => m
    | _ => 0%Q                         (* bare [except:] *)
    end in
  let self1 :=
    {| generation_best_fn := generation_best_fn self;
       generation_mean_fn := generation_mean_fn self ++ [mean] |} in
  match last_item (generation_best_fn self1) with
  | Some b =>
      (Return tt,
       {| generation_best_fn := generation_best_fn self1 ++ [b];
          generation_mean_fn := generation_mean_fn self1 |})
  | None => (Raise (IndexError "list index out of range"), self1)
  end.

(** The hooks [MemoryLogger] overrides; the others are inherited. *)
Definition MemoryLogger : logger_t MemoryLogger_obj :=
  fun ev self =>
    match ev with
    | ev_update_best _ new_fn _ _ => MemoryLogger_update_best new_fn self
    | ev_finish_generation fns => MemoryLogger_finish_generation fns self
    | _ => Logger MemoryLogger_obj ev self
    end.

(** ** class SearchAlgorithm *)

(** External callables, by the outcome of their k-th call. *)
Definition generator_t : Type := Sampler -> nat -> outcome Sol.
Definition fitness_t : Type := nat -> Sol -> outcome Q.

(** What the constructor needs from outside this file. *)
Section Externals.

(** [RestrictedWorkerByJoin(fn, timeout, memory)] of [autogoal.utils]:
    a callable with the signature of [fn]. *)
Variable RestrictedWorkerByJoin : fitness_t -> Z -> Z -> fitness_t.

(** Calling the object [_build_sampler] returned as if it were the
    generator (what [generator_fn or self._build_sampler()] stores). *)
Variable call_sampler : Sampler -> generator_t.

(** The fitness of a solution that is its own score ([lambda x: x]). *)
Variable number_of : Sol -> Q.

Record SearchAlgorithm : Type := mkSearchAlgorithm {
  _build_sampler : nat -> outcome Sampler;      (* method, overridable *)
  _generator_fn : generator_t;
  _fitness_fn : fitness_t;
  _pop_size : Z;
  _maximize : bool;
  _errors : string;
  _evaluation_timeout : Z;
  _memory_limit : Z;
  _early_stop : option Z;
  _search_timeout : Z
}.

(** [SearchAlgorithm._build_sampler]: [raise NotImplementedError()]. *)
Definition base_build_sampler : nat -> outcome Sampler :=
  fun _ => Raise NotImplementedError.

(** [lambda x: x] *)
Definition lambda_identity : fitness_t := fun _ x => Return (number_of x).

(** [__init__].  [build_sampler] is the [_build_sampler] method of the class
    being instantiated ([base_build_sampler] for [SearchAlgorithm] itself). *)
Definition __init__ (build_sampler : nat -> outcome Sampler)
    (generator_fn : option generator_t) (fitness_fn : option fitness_t)
    (pop_size : Z) (maximize : bool) (errors : string)
    (early_stop : option Z) (evaluation_timeout memory_limit : Z)
    (search_timeout : Z) : outcome SearchAlgorithm :=
  match generator_fn, fitness_fn with
  | None, None =>
      Raise (ValueError
               "You must provide either `generator_fn` or `fitness_fn`")
  | _, _ =>
      let generator :=                  (* generator_fn or self._build_sampler() *)
        match generator_fn with
        | Some g => Return g
        | None =>
            match build_sampler 0%nat with
            | Return s => Return (call_sampler s)
            | Raise e => Raise e
            | Diverge => Diverge
            end
        end in
      match generator with
      | Return g =>
          let f :=                      (* fitness_fn or (lambda x: x) *)
            match fitness_fn with
            | Some f => f
            | None => lambda_identity
            end in
          let f :=
            if (0 <? evaluation_timeout) || (0 <? memory_limit)
            then RestrictedWorkerByJoin f evaluation_timeout memory_limit
            else f in
          Return {| _build_sampler := build_sampler;
                    _generator_fn := g;
                    _fitness_fn := f;
                    _pop_size := pop_size;
                    _maximize := maximize;
                    _errors := errors;
                    _evaluation_timeout := evaluation_timeout;
                    _memory_limit := memory_limit;
                    _early_stop := early_stop;
                    _search_timeout := search_timeout |}
      | Raise e => Raise e
      | Diverge => Diverge
      end
  end.

End Externals.

(** ** SearchAlgorithm.run *)

Section Run.

Variable H : Type.                (* the heap of the logger passed to [run] *)

(** The [logger] argument of [run]: a list of loggers or a single one. *)
Inductive logger_arg : Type :=
| logger_list (loggers : list (logger_t H))
| logger_obj (lg : logger_t H).

(** The clock: [time.time()] as read after the given number of draws. *)
Variable clock : nat -> Q.

Record state : Type := mkState {
  (* local variables of [run] *)
  evaluations : budget;
  best_solution : option Sol;
  best_fn : option Q;
  no_improvement : Z;
  start_time : Q;
  stop : bool;
  fns : list Q;
  (* the world outside *)
  draws : nat;                    (* calls made to the generator so far *)
  heap : H;                       (* where the logger lives *)
  calls : list event              (* ghost: every hook invocation, in order *)
}.

Definition set_evaluations (v : budget) (st : state) : state :=
  mkState v (best_solution st) (best_fn st) (no_improvement st)
          (start_time st) (stop st) (fns st) (draws st) (heap st) (calls st).
Definition set_best_solution (v : option Sol) (st : state) : state :=
  mkState (evaluations st) v (best_fn st) (no_improvement st)
          (start_time st) (stop st) (fns st) (draws st) (heap st) (calls st).
Definition set_best_fn (v : option Q) (st : state) : state :=
  mkState (evaluations st) (best_solution st) v (no_improvement st)
          (start_time st) (stop st) (fns st) (draws st) (heap st) (calls st).
Definition set_no_improvement (v : Z) (st : state) : state :=
  mkState (evaluations st) (best_solution st) (best_fn st) v
          (start_time st) (stop st) (fns st) (draws st) (heap st) (calls st).
Definition set_start_time (v : Q) (st : state) : state :=
  mkState (evaluations st) (best_solution st) (best_fn st) (no_improvement st)
          v (stop st) (fns st) (draws st) (heap st) (calls st).
Definition set_stop (v : bool) (st : state) : state :=
  mkState (evaluations st) (best_solution st) (best_fn st) (no_improvement st)
          (start_time st) v (fns st) (draws st) (heap st) (calls st).
Definition set_fns (v : list Q) (st : state) : state :=
  mkState (evaluations st) (best_solution st) (best_fn st) (no_improvement st)
          (start_time st) (stop st) v (draws st) (heap st) (calls st).
Definition set_draws (v : nat) (st : state) : state :=
  mkState (evaluations st) (best_solution st) (best_fn st) (no_improvement st)
          (start_time st) (stop st) (fns st) v (heap st) (calls st).
Definition set_heap (v : H) (st : state) : state :=
  mkState (evaluations st) (best_solution st) (best_fn st) (no_improvement st)
          (start_time st) (stop st) (fns st) (draws st) v (calls st).
Definition set_calls (v : list event) (st : state) : state :=
  mkState (evaluations st) (best_solution st) (best_fn st) (no_improvement st)
          (start_time st) (stop st) (fns st) (draws st) (heap st) v.

(** The monad of [run]: state that survives exceptions. *)
Definition M (A : Type) : Type := state -> outcome A * state.

Definition ret {A : Type} (a : A) : M A := fun st => (Return a, st).

Definition bind {A B : Type} (m : M A) (f : A -> M B) : M B :=
  fun st =>
    match m st with
    | (Return a, st') => f a st'
    | (Raise e, st') => (Raise e, st')
    | (Diverge, st') => (Diverge, st')
    end.

Definition raise {A : Type} (e : exn) : M A := fun st => (Raise e, st).

Definition read {A : Type} (field : state -> A) : M A :=
  fun st => (Return (field st), st).

Definition assign (upd : state -> state) : M unit :=
  fun st => (Return tt, upd st).

(** Calling an external callable: its outcome is given by the oracle. *)
Definition external {A : Type} (o : outcome A) : M A := fun st => (o, st).

(** [try: m  except cls as e: handler e] *)
Definition try_except {A : Type} (m : M A) (cls : exn -> bool)
    (handler : exn -> M A) : M A :=
  fun st =>
    match m st with
    | (Raise e, st') => if cls e then handler e st' else (Raise e, st')
    | r => r
    end.

(** [logger.hook(args)]: the invocation is recorded, then the hook runs. *)
Definition call (lg : logger_t H) (ev : event) : M unit :=
  fun st =>
    let r := lg ev (heap st) in
    (fst r, set_heap (snd r) (set_calls (calls st ++ [ev]) st)).

(** [time.time()] *)
Definition time_time : M Q := fun st => (Return (clock (draws st)), st).

Declare Scope py_scope.
Delimit Scope py_scope with py.
Notation "x <- m ;; k" := (bind m (fun x => k))
  (at level 100, m at next level, right associativity) : py_scope.
Notation "m ;; k" := (bind m (fun _ => k))
  (at level 100, right associativity) : py_scope.
Local Open Scope py_scope.

(** How one pass through a loop body ends. *)
Inductive ctl : Type :=
| Next                            (* falls off the end, or [continue] *)
| Break.

(** [for _ in range(n): body] *)
Fixpoint for_range (n : nat) (body : M ctl) : M unit :=
  match n with
  | O => ret tt
  | S k =>
      c <- body ;;
      match c with
      | Break => ret tt
      | Next => for_range k body
      end
  end.

(** [while cond: body], running the body at most [fuel] times; when the
    fuel is spent and the condition still holds, the loop has not finished. *)
Fixpoint while_loop (fuel : nat) (cond : M bool) (body : M ctl) : M unit :=
  b <- cond ;;
  if b : bool then
    match fuel with
    | O => external Diverge
    | S fuel' =>
        c <- body ;;
        match c with
        | Break => ret tt
        | Next => while_loop fuel' cond body
        end
    end
  else ret tt.

(** Line 68: [evaluations > 0] *)
Definition budget_left : M bool :=
  e <- read evaluations ;; ret (budget_pos e).

(** The test that guards [update_best]. *)
Definition improves (maximize : bool) (fn : Q) (best_fn : option Q) : bool :=
  match best_fn with
  | None => true
  | Some b => (Qgt_bool fn b && maximize) || (Qlt_bool fn b && negb maximize)
  end.

Section RunBody.

Variable self : SearchAlgorithm.
Variable lg : logger_t H.

(** Lines 78-86: drawing a solution.  [None] is the [continue]. *)
Definition draw_solution (k : nat) : M (option Sol) :=
  try_except
    (sampler <- external (_build_sampler self k) ;;
     solution <- external (_generator_fn self sampler k) ;;
     ret (Some solution))
    isinstance_Exception
    (fun e =>
       call lg (ev_error
                  (err_str ("Error while generating solution: " ++ str e)%string)
                  None) ;;
       ret None).

(** Lines 88-97: scoring it. *)
Definition evaluate_solution (k : nat) (solution : Sol) : M Q :=
  try_except
    (call lg (ev_sample_solution solution) ;;
     external (_fitness_fn self k solution))
    isinstance_Exception
    (fun e =>
       (* fn = 0 *)
       call lg (ev_error (err_exn e) (Some solution)) ;;
       if (_errors self =? "raise")%string then
         best <- read best_solution ;;
         bfn <- read best_fn ;;
         call lg (ev_end best bfn) ;;
         raise e
       else ret 0%Q).

(** Lines 99-110: logging the score and keeping the best. *)
Definition track_best (solution : Sol) (fn : Q) : M unit :=
  call lg (ev_eval_solution solution fn) ;;
  assign (fun st => set_fns (fns st ++ [fn]) st) ;;
  bfn <- read best_fn ;;
  if improves (_maximize self) fn bfn then
    best <- read best_solution ;;
    call lg (ev_update_best solution fn best bfn) ;;
    assign (set_best_solution (Some solution)) ;;
    assign (set_best_fn (Some fn)) ;;
    assign (set_no_improvement 0)
  else ret tt.

(** Line 121: [self._search_timeout and spent_time > self._search_timeout] *)
Definition timed_out (spent_time : Q) : bool :=
  truthy (_search_timeout self)
  && Qgt_bool spent_time (inject_Z (_search_timeout self)).

(** Line 129: [self._early_stop and no_improvement > self._early_stop] *)
Definition early_stopped (n : Z) : bool :=
  match _early_stop self with
  | Some limit => truthy limit && (limit <? n)
  | None => false
  end.

(** Lines 112-132: spending one evaluation and the three stop tests. *)
Definition check_stop : M ctl :=
  assign (fun st => set_evaluations (budget_pred (evaluations st)) st) ;;
  e <- read evaluations ;;
  if budget_nonpos e then
    assign (set_stop true) ;; ret Break
  else
    now <- time_time ;;
    t0 <- read start_time ;;
    let spent_time := (now - t0)%Q in
    (* print("Timeout:", self._search_timeout, spent_time) *)
    if timed_out spent_time then
      assign (set_stop true) ;; ret Break
    else
      n <- read no_improvement ;;
      if early_stopped n then
        assign (set_stop true) ;; ret Break
      else ret Next.

(** Lines 78-132: the body of the [for] loop. *)
Definition draw : M ctl :=
  k <- read draws ;;
  assign (set_draws (S k)) ;;
  drawn <- draw_solution k ;;
  match drawn with
  | None => ret Next                                   (* continue *)
  | Some solution =>
      fn <- evaluate_solution k solution ;;
      track_best solution fn ;;
      check_stop
  end.

(** Lines 69-138: the body of the [while] loop, one generation. *)
Definition generation : M ctl :=
  assign (set_stop false) ;;
  e <- read evaluations ;;
  bfn <- read best_fn ;;
  call lg (ev_start_generation e bfn) ;;
  (* self._start_generation() *)
  assign (fun st => set_no_improvement (no_improvement st + 1) st) ;;
  assign (set_fns []) ;;
  for_range (Z.to_nat (_pop_size self)) draw ;;
  l <- read fns ;;
  call lg (ev_finish_generation l) ;;
  (* self._finish_generation(fns) *)
  s <- read stop ;;
  if s : bool then ret Break else ret Next.

(** Lines 59-144, once [logger] and [evaluations] have their defaults. *)
Definition search (fuel : nat) (budget0 : budget)
  : M (option Sol * option Q) :=
  assign (set_evaluations budget0) ;;
  assign (set_best_solution None) ;;
  assign (set_best_fn None) ;;
  assign (set_no_improvement 0) ;;
  call lg (ev_begin budget0) ;;
  now <- time_time ;;
  assign (set_start_time now) ;;
  try_except
    (while_loop fuel budget_left generation)
    isinstance_KeyboardInterrupt
    (fun _ => ret tt) ;;                                  (* pass *)
  best <- read best_solution ;;
  bfn <- read best_fn ;;
  call lg (ev_end best bfn) ;;
  ret (best, bfn).

(** *** The same steps as state transformers

    When the logger never raises, each block above is a plain function of
    the state; the lemmas [*_eq] below prove it.  These forms carry the
    proofs. *)

(** The state after a hook invocation. *)
Definition logged (ev : event) (st : state) : state :=
  set_heap (snd (lg ev (heap st))) (set_calls (calls st ++ [ev]) st).

(** Outcome of [self._generator_fn(self._build_sampler())] at draw [k]. *)
Definition generated (k : nat) : outcome Sol :=
  match _build_sampler self k with
  | Return sampler => _generator_fn self sampler k
  | Raise e => Raise e
  | Diverge => Diverge
  end.

Definition tracked (solution : Sol) (fn : Q) (st : state) : state :=
  let st1 := set_fns (fns st ++ [fn]) (logged (ev_eval_solution solution fn) st) in
  if improves (_maximize self) fn (best_fn st) then
    set_no_improvement 0
      (set_best_fn (Some fn)
         (set_best_solution (Some solution)
            (logged (ev_update_best solution fn (best_solution st) (best_fn st))
                    st1)))
  else st1.

Definition stops (st : state) : bool :=
  budget_nonpos (budget_pred (evaluations st))
  || timed_out (clock (draws st) - start_time st)%Q
  || early_stopped (no_improvement st).

Definition checked (st : state) : outcome ctl * state :=
  let st1 := set_evaluations (budget_pred (evaluations st)) st in
  if stops st then (Return Break, set_stop true st1) else (Return Next, st1).

Definition drawn (st : state) : outcome ctl * state :=
  let k := draws st in
  let st1 := set_draws (S k) st in
  match generated k with
  | Return solution =>
      let st2 := logged (ev_sample_solution solution) st1 in
      match _fitness_fn self k solution with
      | Return fn => checked (tracked solution fn st2)
      | Raise e =>
          if isinstance_Exception e then
            let st3 := logged (ev_error (err_exn e) (Some solution)) st2 in
            if (_errors self =? "raise")%string then
              (Raise e, logged (ev_end (best_solution st3) (best_fn st3)) st3)
            else checked (tracked solution 0%Q st3)
          else (Raise e, st2)
      | Diverge => (Diverge, st2)
      end
  | Raise e =>
      if isinstance_Exception e then
        (Return Next,
         logged (ev_error
                   (err_str ("Error while generating solution: " ++ str e)%string)
                   None) st1)
      else (Raise e, st1)
  | Diverge => (Diverge, st1)
  end.

(** The state in which the [for] loop of a generation is entered. *)
Definition generation_entry (st : state) : state :=
  let st1 := set_stop false st in
  set_fns []
    (set_no_improvement (no_improvement st + 1)
       (logged (ev_start_generation (evaluations st) (best_fn st)) st1)).

(** The state after the statements that follow the [for] loop. *)
Definition generation_exit (st : state) : outcome ctl * state :=
  (Return (if stop st then Break else Next),
   logged (ev_finish_generation (fns st)) st).

(** The state in which the [while] loop of [search] is entered. *)
Definition search_entry (budget0 : budget) (st : state) : state :=
  let st1 :=
    logged (ev_begin budget0)
      (set_no_improvement 0
         (set_best_fn None (set_best_solution None (set_evaluations budget0 st)))) in
  set_start_time (clock (draws st1)) st1.

(** The last three lines of [run]. *)
Definition search_exit (st : state) : outcome (option Sol * option Q) * state :=
  (Return (best_solution st, best_fn st),
   logged (ev_end (best_solution st) (best_fn st)) st).

End RunBody.

(** The state in which [run] is entered: nothing drawn, nothing logged. *)
Definition enter (h : H) : state :=
  mkState inf None None 0 0%Q false [] 0%nat h [].

(** Lines 50-57: the defaults of [run]'s arguments. *)
Definition default_logger (logger : option logger_arg) : logger_t H :=
  match logger with
  | None => Logger H                                   (* Logger() *)
  | Some (logger_list l) => MultiLogger H l            (* MultiLogger, from the list *)
  | Some (logger_obj lg) => lg
  end.

Definition default_evaluations (evaluations : option Z) : budget :=
  match evaluations with
  | None => inf                                        (* math.inf *)
  | Some n => fin n
  end.

(** [run(evaluations=None, logger=None)], with the heap it starts from. *)
Definition run (fuel : nat) (self : SearchAlgorithm)
    (evaluations : option Z) (logger : option logger_arg) (h : H)
  : outcome (option Sol * option Q) * state :=
  search self (default_logger logger) fuel (default_evaluations evaluations)
         (enter h).

End Run.

End Search.

Arguments ev_begin {Sol}.
Arguments ev_end {Sol}.
Arguments ev_start_generation {Sol}.
Arguments ev_finish_generation {Sol}.
Arguments ev_sample_solution {Sol}.
Arguments ev_eval_solution {Sol}.
Arguments ev_error {Sol}.
Arguments ev_update_best {Sol}.
Arguments is_begin {Sol}.
Arguments is_end {Sol}.
Arguments is_start_generation {Sol}.
Arguments is_finish_generation {Sol}.
Arguments is_sample_solution {Sol}.
Arguments is_eval_solution {Sol}.
Arguments is_update_best {Sol}.
Arguments is_generation_error {Sol}.
Arguments count {Sol}.
Arguments Logger {Sol H}.
Arguments MultiLogger_run {Sol H}.
Arguments MultiLogger {Sol H}.
Arguments never_raises {Sol H}.
Arguments mkSearchAlgorithm {Sol Sampler}.
Arguments _build_sampler {Sol Sampler}.
Arguments _generator_fn {Sol Sampler}.
Arguments _fitness_fn {Sol Sampler}.
Arguments _pop_size {Sol Sampler}.
Arguments _maximize {Sol Sampler}.
Arguments _errors {Sol Sampler}.
Arguments _evaluation_timeout {Sol Sampler}.
Arguments _memory_limit {Sol Sampler}.
Arguments _early_stop {Sol Sampler}.
Arguments _search_timeout {Sol Sampler}.
Arguments logger_list {Sol H}.
Arguments logger_obj {Sol H}.
Arguments mkState {Sol H}.
Arguments evaluations {Sol H}.
Arguments best_solution {Sol H}.
Arguments best_fn {Sol H}.
Arguments no_improvement {Sol H}.
Arguments start_time {Sol H}.
Arguments stop {Sol H}.
Arguments fns {Sol H}.
Arguments draws {Sol H}.
Arguments heap {Sol H}.
Arguments calls {Sol H}.
Arguments set_evaluations {Sol H}.
Arguments set_best_solution {Sol H}.
Arguments set_best_fn {Sol H}.
Arguments set_no_improvement {Sol H}.
Arguments set_start_time {Sol H}.
Arguments set_stop {Sol H}.
Arguments set_fns {Sol H}.
Arguments set_draws {Sol H}.
Arguments set_heap {Sol H}.
Arguments set_calls {Sol H}.
Arguments ret {Sol H A}.
Arguments bind {Sol H A B}.
Arguments raise {Sol H A}.
Arguments read {Sol H A}.
Arguments assign {Sol H}.
Arguments external {Sol H A}.
Arguments try_except {Sol H A}.
Arguments call {Sol H}.
Arguments time_time {Sol H}.
Arguments for_range {Sol H}.
Arguments while_loop {Sol H}.
Arguments budget_left {Sol H}.
Arguments draw_solution {Sol Sampler H}.
Arguments evaluate_solution {Sol Sampler H}.
Arguments track_best {Sol Sampler H}.
Arguments timed_out {Sol Sampler}.
Arguments early_stopped {Sol Sampler}.
Arguments check_stop {Sol Sampler H}.
Arguments draw {Sol Sampler H}.
Arguments generation {Sol Sampler H}.
Arguments search {Sol Sampler H}.
Arguments logged {Sol H}.
Arguments generated {Sol Sampler}.
Arguments tracked {Sol Sampler H}.
Arguments stops {Sol Sampler H}.
Arguments checked {Sol Sampler H}.
Arguments drawn {Sol Sampler H}.
Arguments generation_entry {Sol H}.
Arguments generation_exit {Sol H}.
Arguments search_entry {Sol H}.
Arguments search_exit {Sol H}.
Arguments enter {Sol H}.
Arguments default_logger {Sol H}.
Arguments run {Sol Sampler H}.

(** * Vocabulary of the statements *)

(** How many times [end] was invoked when the loops of [run] are left:
    once when an [Exception] escapes (the raise policy), not yet otherwise. *)
Definition end_pending {Sol H : Type}
    {A : Type} (r : outcome A * state Sol H) : Prop :=
  count is_end (calls (snd r)) =
  match fst r with
  | Raise e => if isinstance_Exception e then 1%nat else 0%nat
  | _ => 0%nat
  end.

(** Counters read off the call record: evaluation attempts
    ([sample_solution]), completed evaluations ([eval_solution]) and
    generator failures ([error] with no solution). *)
Definition attempts {Sol H : Type} (st : state Sol H) : Z :=
  Z.of_nat (count is_sample_solution (calls st)).
Definition scored {Sol H : Type} (st : state Sol H) : Z :=
  Z.of_nat (count is_eval_solution (calls st)).
Definition skipped {Sol H : Type} (st : state Sol H) : Z :=
  Z.of_nat (count is_generation_error (calls st)).

Definition generator_never_fails {Sol Sampler : Type}
    (self : SearchAlgorithm Sol Sampler) : Prop :=
  forall k, returns (generated self k).

(** Every evaluation returns or raises. *)
Definition fitness_never_hangs {Sol Sampler : Type}
    (self : SearchAlgorithm Sol Sampler) : Prop :=
  forall k s, _fitness_fn self k s <> Diverge.

Definition evaluation_tolerated {Sol Sampler : Type}
    (self : SearchAlgorithm Sol Sampler) : Prop :=
  forall k s,
    match _fitness_fn self k s with
    | Return _ => True
    | Raise e =>
        isinstance_Exception e = true /\ (_errors self =? "raise")%string = false
    | Diverge => False
    end.

(** Every draw made so far was attempted and scored, the clock was started
    at the first reading, and the budget left is [E] less the evaluations
    scored. *)
Definition charged {Sol H : Type} (clock : nat -> Q) (E : Z)
    (st : state Sol H) : Prop :=
  Z.of_nat (draws st) = scored st /\ attempts st = scored st /\
  skipped st = 0 /\ start_time st = clock 0%nat /\
  evaluations st = fin (E - scored st).

(** One of the two stop tests that do not depend on the budget holds of the
    state: the time spent exceeds [search_timeout], or the evaluations
    without improvement exceed [early_stop]. *)
Definition stopped_early {Sol Sampler H : Type}
    (self : SearchAlgorithm Sol Sampler) (clock : nat -> Q)
    (st : state Sol H) : Prop :=
  timed_out self (clock (draws st) - start_time st) = true \/
  early_stopped self (no_improvement st) = true.

(** Every evaluation fails with an [Exception]. *)
Definition fitness_always_fails {Sol Sampler : Type}
    (self : SearchAlgorithm Sol Sampler) : Prop :=
  forall k s, exists e,
    _fitness_fn self k s = Raise e /\ isinstance_Exception e = true.

(** The generator fails (with an [Exception]) at every draw before [k0] and
    returns [s0] at draw [k0]. *)
Definition first_drawn {Sol Sampler : Type}
    (self : SearchAlgorithm Sol Sampler) (k0 : nat) (s0 : Sol)
  : Prop :=
  (forall k, (k < k0)%nat ->
     exists e, generated self k = Raise e /\ isinstance_Exception e = true) /\
  generated self k0 = Return s0.

(** Nothing has been attempted or kept yet, and budget is left. *)
Definition untouched {Sol H : Type} (d : nat) (st : state Sol H) : Prop :=
  draws st = d /\ best_solution st = None /\ best_fn st = None /\
  attempts st = 0 /\ scored st = 0 /\ budget_pos (evaluations st) = true.

(** The state in which the failure of the only attempt is surfaced. *)
Definition aborted {Sol H : Type} (st : state Sol H) : Prop :=
  attempts st = 1 /\ scored st = 0 /\
  best_solution st = None /\ best_fn st = None /\
  exists l, calls st = l ++ [ev_end None None].

(** The values [best_fn] takes, in order: the [new_fn] of each
    [update_best] call. *)
Fixpoint best_trace {Sol : Type} (l : list (event Sol)) : list Q :=
  match l with
  | [] => []
  | ev_update_best _ q _ _ :: r => q :: best_trace r
  | _ :: r => best_trace r
  end.

(** [b] comes after [a] in the configured direction. *)
Definition better (maximize : bool) (a b : Q) : Prop :=
  if maximize then (a < b)%Q else (b < a)%Q.

(** The candidate and the fitness that draw [k] scores, if it scores one:
    the value the fitness function returns, or 0 for a failure that the
    error policy tolerates. *)
Definition scored_at {Sol Sampler : Type}
    (self : SearchAlgorithm Sol Sampler) (k : nat)
  : option (Sol * Q) :=
  match generated self k with
  | Return s =>
      match _fitness_fn self k s with
      | Return q => Some (s, q)
      | Raise e =>
          if isinstance_Exception e && negb (_errors self =? "raise")%string
          then Some (s, 0%Q) else None
      | Diverge => None
      end
  | _ => None
  end.

(** The best pair is in step with the call record. *)
Definition best_in_step {Sol H : Type}
    (maximize : bool) (st : state Sol H) : Prop :=
  StronglySorted (better maximize) (best_trace (calls st)) /\
  last_item (best_trace (calls st)) = best_fn st.

(** The best pair is absent exactly as long as nothing has been scored. *)
Definition absent_until_scored {Sol H : Type} (st : state Sol H) : Prop :=
  (best_fn st = None <-> scored st = 0) /\
  (best_solution st = None <-> scored st = 0).

(** [b - n] *)
Definition budget_sub (b : budget) (n : Z) : budget :=
  match b with fin r => fin (r - n) | inf => inf end.

(** The budget [b] outlasts [n] evaluations. *)
Definition outlasts (b : budget) (n : Z) : Prop :=
  match b with fin r => n < r | inf => True end.

Definition generations {Sol H : Type} (st : state Sol H) : Z :=
  Z.of_nat (count is_start_generation (calls st)).

Definition updates {Sol H : Type} (st : state Sol H) : Z :=
  Z.of_nat (count is_update_best (calls st)).

(** The first evaluation scores [c0]; no later one improves on it. *)
Definition plateau {Sol Sampler : Type}
    (self : SearchAlgorithm Sol Sampler) (c0 : Q) : Prop :=
  (forall s, _fitness_fn self 0%nat s = Return c0) /\
  (forall k s, (0 < k)%nat ->
     exists q, _fitness_fn self k s = Return q /\
               improves (_maximize self) q (Some c0) = false).

(** On the plateau, [j] generations after the improvement: every draw was
    scored, and the clock was started at the first reading. *)
Definition on_plateau {Sol H : Type} (clock : nat -> Q) (b0 : budget)
    (s0 : Sol) (c0 : Q) (j : Z) (st : state Sol H) : Prop :=
  best_fn st = Some c0 /\ best_solution st = Some s0 /\
  (1 <= draws st)%nat /\ no_improvement st = j /\
  evaluations st = budget_sub b0 (scored st) /\ updates st = 1 /\
  start_time st = clock 0%nat /\ Z.of_nat (draws st) = scored st.

(** The local variables and the call record of a state: all but the heap. *)
Definition locals {Sol H : Type} (st : state Sol H) :=
  (evaluations st, best_solution st, best_fn st, no_improvement st,
   start_time st, stop st, fns st, draws st, calls st).

(** The heap after the hooks of [lg] have run for each call of [evs]. *)
Definition delivered {Sol H : Type}
    (lg : logger_t Sol H) (evs : list (event Sol)) (h : H)
  : H :=
  fold_left (fun h ev => snd (lg ev h)) evs h.

(** * Scenarios *)

(** A clock that advances one second per draw. *)
Definition clock0 : nat -> Q := fun k => inject_Z (Z.of_nat k).

(** Candidates are numbered in the order they are drawn. *)
Definition unit_sampler : nat -> outcome unit := fun _ => Return tt.
Definition counting_generator : generator_t nat unit := fun _ k => Return k.

(** An engine on these candidates, without per-evaluation limits. *)
Definition engine (fitness : fitness_t nat) (pop_size : Z) (maximize : bool)
    (errors : string) (early_stop : option Z) (search_timeout : Z)
  : SearchAlgorithm nat unit :=
  mkSearchAlgorithm unit_sampler counting_generator fitness pop_size maximize
                    errors 0 0 early_stop search_timeout.

(** An observer that appends what it is told, under its name, to a log it
    shares with other observers. *)
Definition recorder (name : string)
  : logger_t nat (list (string * event nat)) :=
  fun ev log => (Return tt, log ++ [(name, ev)]).

(** An observer whose [begin] hook formats the budget with [%i], as
    [ConsoleLogger.begin] does: formatting [math.inf] raises OverflowError. *)
Definition formatting_logger (name : string)
  : logger_t nat (list (string * event nat)) :=
  fun ev log =>
    match ev with
    | ev_begin inf =>
        (Raise (Exception "cannot convert float infinity to integer"),
         log ++ [(name, ev)])
    | _ => (Return tt, log ++ [(name, ev)])
    end.

(** Fitness functions of the scenarios. *)
Definition always_failing : fitness_t nat :=
  fun _ _ => Raise (Exception "boom").

(** A generator that fails three times before it yields candidates. *)
Definition late_generator : generator_t nat unit :=
  fun _ k => if (k <? 3)%nat then Raise (Exception "no candidate")
             else Return k.

Definition late_engine (fitness : fitness_t nat) (pop_size : Z)
    (errors : string) : SearchAlgorithm nat unit :=
  mkSearchAlgorithm unit_sampler late_generator fitness pop_size true
                    errors 0 0 None 0.

(** Fitness 1, 5, 2 for the first three candidates, 2 afterwards. *)
Definition one_five_two : fitness_t nat :=
  fun k _ => match k with
             | 0%nat => Return 1%Q
             | 1%nat => Return 5%Q
             | _ => Return 2%Q
             end.

(** Scenario 2: fitness 1, 2, then 3 and a failure. *)
Definition two_generations : fitness_t nat :=
  fun k _ => match k with
             | 0%nat => Return 1%Q
             | 1%nat => Return 2%Q
             | 2%nat => Return 3%Q
             | _ => Raise (Exception "boom")
             end.

Definition constant_fitness (c : Q) : fitness_t nat := fun _ _ => Return c.

(** The user presses Ctrl-C during evaluation [i]. *)
Definition interrupted_at (i : nat) : fitness_t nat :=
  fun k _ => if Nat.eqb k i then Raise KeyboardInterrupt
             else Return (inject_Z (Z.of_nat k)).

Definition failing_at (i : nat) : fitness_t nat :=
  fun k _ => if Nat.eqb k i then Raise (Exception "boom")
             else Return (inject_Z (Z.of_nat k)).

(** The fitness function calls [sys.exit()] during evaluation [i]. *)
Definition exiting_at (i : nat) : fitness_t nat :=
  fun k _ => if Nat.eqb k i then Raise SystemExit
             else Return (inject_Z (Z.of_nat k)).


(** ** Further vocabulary: what a run attempts, raises and returns *)

Definition finishes {Sol H : Type} (st : state Sol H) : Z :=
  Z.of_nat (count is_finish_generation (calls st)).

(** The candidates scored, with their fitness, in the order of the
    [eval_solution] calls. *)
Fixpoint scores {Sol : Type} (l : list (event Sol)) : list (Sol * Q) :=
  match l with
  | [] => []
  | ev_eval_solution s q :: r => (s, q) :: scores r
  | _ :: r => scores r
  end.

(** The pair kept as best is the first unbeaten one of the scored pairs: no
    scored fitness improves on it, and no pair scored before it has the same
    fitness. *)
Definition first_unbeaten {Sol H : Type} (maximize : bool) (st : state Sol H)
  : Prop :=
  match best_solution st, best_fn st with
  | Some s, Some q =>
      exists l1 l2,
        scores (calls st) = l1 ++ (s, q) :: l2 /\
        Forall (fun x => improves maximize (snd x) (Some q) = false)
               (l1 ++ l2) /\
        Forall (fun x => ~ (snd x == q)%Q) l1
  | None, None => scores (calls st) = []
  | _, _ => False
  end.

(** The exception [e] is one the fitness function raised on a candidate the
    generator returned. *)
Definition raised_by_fitness {Sol Sampler : Type}
    (self : SearchAlgorithm Sol Sampler) (e : exn) : Prop :=
  exists k s, generated self k = Return s /\ _fitness_fn self k s = Raise e.

(** The exception [e] is one the generator or the fitness function raised. *)
Definition raised_outside {Sol Sampler : Type}
    (self : SearchAlgorithm Sol Sampler) (e : exn) : Prop :=
  (exists k, generated self k = Raise e) \/ raised_by_fitness self e.

(** Neither the generator nor the fitness function is interrupted. *)
Definition never_interrupted {Sol Sampler : Type}
    (self : SearchAlgorithm Sol Sampler) : Prop :=
  (forall k, generated self k <> Raise KeyboardInterrupt) /\
  (forall k s, _fitness_fn self k s <> Raise KeyboardInterrupt).

(** The generator never yields a candidate: it fails with an [Exception]
    at every draw. *)
Definition generator_always_fails {Sol Sampler : Type}
    (self : SearchAlgorithm Sol Sampler) : Prop :=
  forall k, exists e,
    generated self k = Raise e /\ isinstance_Exception e = true.

(** The search timeout is first exceeded when draw [m] (counting from 0) has
    been scored. *)
Definition times_out_at {Sol Sampler : Type}
    (self : SearchAlgorithm Sol Sampler) (clock : nat -> Q) (m : nat)
  : Prop :=
  (forall k, (1 <= k <= m)%nat ->
     timed_out self (clock k - clock 0%nat) = false) /\
  timed_out self (clock (S m) - clock 0%nat) = true.

(** Between the draws of a run that scores every draw: [d] draws made. *)
Definition in_time {Sol H : Type} (clock : nat -> Q) (b : budget) (d : nat)
    (st : state Sol H) : Prop :=
  draws st = d /\ scored st = Z.of_nat d /\ attempts st = Z.of_nat d /\
  start_time st = clock 0%nat /\
  evaluations st = budget_sub b (Z.of_nat d).

(** Where a run stands with respect to the draws it has made: every draw
    was skipped or scored; the last one was handed to the fitness function
    and has not been scored; the last one did not come back from the
    generator. *)
Definition settled {Sol H : Type} (st : state Sol H) : Prop :=
  attempts st = scored st /\
  Z.of_nat (draws st) = attempts st + skipped st.
Definition in_evaluation {Sol H : Type} (st : state Sol H) : Prop :=
  attempts st = scored st + 1 /\
  Z.of_nat (draws st) = attempts st + skipped st.
Definition in_generation {Sol H : Type} (st : state Sol H) : Prop :=
  attempts st = scored st /\
  Z.of_nat (draws st) = attempts st + skipped st + 1.

(** Where the first draw of the first generation starts from, and where a
    run stands once the first draw has been scored [q]. *)
Definition at_first_draw {Sol H : Type} (clock : nat -> Q)
    (st : state Sol H) : Prop :=
  draws st = 0%nat /\ start_time st = clock 0%nat /\ best_fn st = None /\
  scored st = 0 /\ generations st = 1 /\ finishes st = 0.

Definition past_first_score {Sol H : Type} (s : Sol) (q : Q)
    (st : state Sol H) : Prop :=
  draws st = 1%nat /\ best_solution st = Some s /\ best_fn st = Some q /\
  scored st = 1 /\ generations st = 1.

(** ** Further vocabulary: what MemoryLogger records *)

(** The arguments of the [finish_generation] calls, in order. *)
Fixpoint finished {Sol : Type} (l : list (event Sol)) : list (list Q) :=
  match l with
  | [] => []
  | ev_finish_generation f :: r => f :: finished r
  | _ :: r => finished r
  end.

(** Lines 245-248: the mean of a generation, 0 when [statistics.mean]
    raises. *)
Definition mean_or_zero (fns : list Q) : Q :=
  match statistics_mean fns with
  | Return m => m
  | _ => 0%Q
  end.

(** The best fitness at the end of each generation of a call sequence,
    followed by the best fitness so far; [cur] is the value before the first
    call. *)
Fixpoint best_series {Sol : Type} (cur : Q) (l : list (event Sol)) : list Q :=
  match l with
  | [] => [cur]
  | ev_update_best _ q _ _ :: r => best_series q r
  | ev_finish_generation _ :: r => cur :: best_series cur r
  | _ :: r => best_series cur r
  end.

(** * Proofs *)

Arguments call : simpl never.
Arguments logged : simpl never.
Arguments tracked : simpl never.
Arguments checked : simpl never.
Arguments count : simpl never.

Ltac monad :=
  unfold bind, ret, read, assign, external, raise, time_time, try_except; cbn.

Ltac split_ifs :=
  repeat match goal with
         | |- context [if ?b then _ else _] => destruct b eqn:?
         end.

(** Two states with the same locals: name their fields once. *)
Ltac same_states st1 st2 Hl :=
  destruct st1, st2; unfold locals in Hl; cbn in Hl;
  injection Hl as -> -> -> -> -> -> -> -> ->.

Ltac settle_isinstance :=
  repeat match goal with
         | Hx : isinstance_Exception _ = _ |- _ => rewrite Hx; clear Hx
         end.

(** ** The blocks of [run] under a logger that never raises *)

Section Blocks.

Variables (Sol Sampler H : Type) (clock : nat -> Q).
Variable self : SearchAlgorithm Sol Sampler.
Variable lg : logger_t Sol H.
Hypothesis Htot : never_raises lg.

Lemma call_eq ev st : call lg ev st = (Return tt, logged lg ev st).
Proof. unfold call, logged. rewrite Htot. reflexivity. Qed.

Lemma track_best_eq s q st :
  track_best self lg s q st = (Return tt, tracked self lg s q st).
Proof.
  unfold track_best. monad. rewrite call_eq. unfold tracked. cbn.
  destruct (improves _ _ _); [|reflexivity].
  rewrite call_eq. reflexivity.
Qed.

Lemma check_stop_eq (st : state Sol H) :
  check_stop clock self st = checked clock self st.
Proof.
  unfold check_stop, checked, stops. monad.
  destruct (budget_nonpos _); [reflexivity|]. cbn.
  destruct (timed_out _ _); [reflexivity|]. cbn.
  destruct (early_stopped _ _); reflexivity.
Qed.

Lemma draw_eq st : draw clock self lg st = drawn clock self lg st.
Proof.
  unfold draw, drawn, draw_solution, evaluate_solution, generated. monad.
  destruct (_build_sampler self (draws st)) as [sm|e|]; cbn.
  - destruct (_generator_fn self sm (draws st)) as [s|e|]; cbn.
    + rewrite call_eq. cbn.
      destruct (_fitness_fn self (draws st) s) as [q|e|]; cbn.
      * rewrite track_best_eq. apply check_stop_eq.
      * destruct (isinstance_Exception e); [|reflexivity].
        rewrite call_eq. destruct (_errors self =? "raise")%string; cbn.
        -- rewrite call_eq. reflexivity.
        -- rewrite track_best_eq. apply check_stop_eq.
      * reflexivity.
    + destruct (isinstance_Exception e); [|reflexivity].
      rewrite call_eq. reflexivity.
    + reflexivity.
  - destruct (isinstance_Exception e); [|reflexivity].
    rewrite call_eq. reflexivity.
  - reflexivity.
Qed.

Lemma for_range_S n (body : state Sol H -> outcome ctl * state Sol H) st :
  for_range (S n) body st =
  match body st with
  | (Return Break, st') => (Return tt, st')
  | (Return Next, st') => for_range n body st'
  | (Raise e, st') => (Raise e, st')
  | (Diverge, st') => (Diverge, st')
  end.
Proof.
  cbn. unfold bind. destruct (body st) as [[[]|e|] st']; reflexivity.
Qed.

Lemma generation_eq st :
  generation clock self lg st =
  match for_range (Z.to_nat (_pop_size self)) (draw clock self lg)
                  (generation_entry lg st) with
  | (Return _, st') => generation_exit lg st'
  | (Raise e, st') => (Raise e, st')
  | (Diverge, st') => (Diverge, st')
  end.
Proof.
  unfold generation, generation_entry, generation_exit. monad.
  rewrite call_eq. cbn.
  destruct (for_range _ _ _) as [[[]|e|] st']; try reflexivity.
  rewrite call_eq. cbn. destruct (stop _); reflexivity.
Qed.

Lemma while_loop_O (body : state Sol H -> outcome ctl * state Sol H) st :
  while_loop 0 budget_left body st =
  if budget_pos (evaluations st) then (Diverge, st) else (Return tt, st).
Proof.
  cbn. unfold budget_left. monad. destruct (budget_pos _); reflexivity.
Qed.

Lemma while_loop_S fuel (body : state Sol H -> outcome ctl * state Sol H) st :
  while_loop (S fuel) budget_left body st =
  if budget_pos (evaluations st) then
    match body st with
    | (Return Break, st') => (Return tt, st')
    | (Return Next, st') => while_loop fuel budget_left body st'
    | (Raise e, st') => (Raise e, st')
    | (Diverge, st') => (Diverge, st')
    end
  else (Return tt, st).
Proof.
  cbn. unfold budget_left. monad. destruct (budget_pos _); [|reflexivity].
  destruct (body st) as [[[]|e|] st']; reflexivity.
Qed.

Lemma search_eq fuel b st :
  search clock self lg fuel b st =
  match while_loop fuel budget_left (generation clock self lg)
                   (search_entry clock lg b st) with
  | (Return _, st') => search_exit lg st'
  | (Raise e, st') =>
      if isinstance_KeyboardInterrupt e then search_exit lg st'
      else (Raise e, st')
  | (Diverge, st') => (Diverge, st')
  end.
Proof.
  unfold search, search_entry, search_exit, budget_left. monad.
  rewrite call_eq. cbn.
  destruct (while_loop _ _ _ _) as [[[]|e|] st']; cbn.
  - rewrite call_eq. reflexivity.
  - destruct (isinstance_KeyboardInterrupt e); cbn;
      [rewrite call_eq|]; reflexivity.
  - reflexivity.
Qed.

End Blocks.

(** ** Properties of the state kept through a whole run *)

Section Invariant.
Variables (Sol Sampler H : Type) (clock : nat -> Q).
Variable self : SearchAlgorithm Sol Sampler.
Variable lg : logger_t Sol H.
Hypothesis Htot : never_raises lg.

(** A property of the state that only the call record and the best pair
    can break. *)
Variable Inv : state Sol H -> Prop.
Hypothesis Inv_draws : forall k st, Inv st -> Inv (set_draws k st).
Hypothesis Inv_logged : forall ev st,
  is_update_best ev = false -> is_eval_solution ev = false ->
  Inv st -> Inv (logged lg ev st).
Hypothesis Inv_scored : forall s q st,
  Inv st -> Inv (snd (checked clock self (tracked self lg s q st))).
Hypothesis Inv_entry : forall st, Inv st -> Inv (generation_entry lg st).

Lemma drawn_inv st : Inv st -> Inv (snd (drawn clock self lg st)).
Proof.
  intros HI. unfold drawn.
  pose proof (Inv_draws (S (draws st)) st HI) as H1.
  destruct (generated self (draws st)) as [s|e|]; cbn.
  - pose proof (Inv_logged (ev_sample_solution s) _ eq_refl eq_refl H1) as H2.
    destruct (_fitness_fn self (draws st) s) as [q|e|]; cbn.
    + apply Inv_scored, H2.
    + destruct (isinstance_Exception e); [|exact H2].
      pose proof (Inv_logged (ev_error (err_exn e) (Some s)) _
                    eq_refl eq_refl H2) as H3.
      destruct (_errors self =? "raise")%string; cbn.
      * apply Inv_logged; [reflexivity|reflexivity|assumption].
      * apply Inv_scored, H3.
    + exact H2.
  - destruct (isinstance_Exception e); cbn; [|exact H1].
    apply Inv_logged; [reflexivity|reflexivity|assumption].
  - exact H1.
Qed.

Lemma for_range_inv n : forall st,
  Inv st -> Inv (snd (for_range n (draw clock self lg) st)).
Proof.
  induction n as [|n IH]; intros st HI; [exact HI|].
  rewrite for_range_S, draw_eq by assumption.
  pose proof (drawn_inv st HI) as Hd.
  destruct (drawn clock self lg st) as [[[]|e|] st']; cbn in *; auto.
Qed.

Lemma generation_inv st :
  Inv st -> Inv (snd (generation clock self lg st)).
Proof.
  intros HI. rewrite generation_eq by assumption.
  pose proof (for_range_inv (Z.to_nat (_pop_size self)) _ (Inv_entry st HI))
    as Hf.
  destruct (for_range _ _ _) as [[[]|e|] st']; cbn in *; auto.
Qed.

Lemma while_loop_inv fuel : forall st,
  Inv st ->
  Inv (snd (while_loop fuel budget_left (generation clock self lg) st)).
Proof.
  induction fuel as [|fuel IH]; intros st HI.
  - rewrite while_loop_O. destruct (budget_pos _); exact HI.
  - rewrite while_loop_S. destruct (budget_pos _); [|exact HI].
    pose proof (generation_inv st HI) as Hg.
    destruct (generation clock self lg st) as [[[]|e|] st']; cbn in *; auto.
Qed.

Lemma search_inv fuel b h :
  Inv (search_entry clock lg b (enter h)) ->
  Inv (snd (search clock self lg fuel b (enter h))).
Proof.
  intros HE. rewrite search_eq by assumption.
  pose proof (while_loop_inv fuel _ HE) as Hw.
  destruct (while_loop _ _ _ _) as [[[]|e|] st']; cbn in *; auto.
  destruct (isinstance_KeyboardInterrupt e); cbn; auto.
Qed.
End Invariant.

(** ** The [end] hook *)

Section EndHook.

Variables (Sol Sampler H : Type) (clock : nat -> Q).

Lemma count_snoc (p : event Sol -> bool) l e :
  count p (l ++ [e]) = (count p l + (if p e then 1 else 0))%nat.
Proof.
  unfold count. rewrite filter_app, length_app. cbn.
  destruct (p e); reflexivity.
Qed.

Variable self : SearchAlgorithm Sol Sampler.
Variable lg : logger_t Sol H.
Hypothesis Htot : never_raises lg.

Lemma drawn_end st :
  count is_end (calls st) = 0%nat -> end_pending (drawn clock self lg st).
Proof.
  intros H0. unfold end_pending, drawn.
  destruct (generated self (draws st)) as [s|e|];
    [destruct (_fitness_fn self (draws st) s) as [q|e|]| |];
    unfold checked, tracked, logged; split_ifs; cbn;
    rewrite ?count_snoc, ?H0; cbn; settle_isinstance; reflexivity.
Qed.

Lemma for_range_end n st :
  count is_end (calls st) = 0%nat ->
  end_pending (for_range n (draw clock self lg) st).
Proof.
  revert st. induction n as [|n IH]; intros st H0.
  - exact H0.
  - rewrite for_range_S, draw_eq by assumption.
    pose proof (drawn_end st H0) as Hd. unfold end_pending in *.
    destruct (drawn clock self lg st) as [[[]|e|] st']; cbn in *; auto.
Qed.

Lemma generation_end st :
  count is_end (calls st) = 0%nat ->
  end_pending (generation clock self lg st).
Proof.
  intros H0. rewrite generation_eq by assumption.
  pose proof (for_range_end (Z.to_nat (_pop_size self))
                (generation_entry lg st)) as Hf.
  unfold end_pending in *.
  destruct (for_range _ _ _) as [[[]|e|] st']; cbn in *;
    try (apply Hf; unfold generation_entry, logged; cbn;
         rewrite count_snoc, H0; reflexivity).
  unfold logged; cbn. rewrite count_snoc, Hf; [reflexivity|].
  unfold generation_entry, logged; cbn. rewrite count_snoc, H0; reflexivity.
Qed.

Lemma while_loop_end fuel st :
  count is_end (calls st) = 0%nat ->
  end_pending (while_loop fuel budget_left (generation clock self lg) st).
Proof.
  revert st. induction fuel as [|fuel IH]; intros st H0.
  - rewrite while_loop_O. unfold end_pending.
    destruct (budget_pos _); exact H0.
  - rewrite while_loop_S. destruct (budget_pos _); [|exact H0].
    pose proof (generation_end st H0) as Hg. unfold end_pending in *.
    destruct (generation clock self lg st) as [[[]|e|] st']; cbn in *; auto.
Qed.

Lemma search_end fuel b h :
  let r := search clock self lg fuel b (enter h) in
  count is_end (calls (snd r)) =
  match fst r with
  | Return _ => 1%nat
  | Raise e => if isinstance_Exception e then 1%nat else 0%nat
  | Diverge => 0%nat
  end.
Proof.
  cbn zeta. rewrite search_eq by assumption.
  pose proof (while_loop_end fuel (search_entry clock lg b (enter h))) as Hw.
  unfold end_pending in Hw.
  destruct (while_loop _ _ _ _) as [[[]|e|] st']; cbn in *.
  - unfold logged; cbn. rewrite count_snoc, Hw; reflexivity.
  - destruct e; cbn in *; try (apply Hw; reflexivity).
    unfold logged; cbn. rewrite count_snoc, Hw; reflexivity.
  - apply Hw; reflexivity.
Qed.

End EndHook.

(** ** Runs that come to an end *)

Section Terminates.

Variables (Sol Sampler H : Type) (clock : nat -> Q).
Variable self : SearchAlgorithm Sol Sampler.
Variable lg : logger_t Sol H.
Hypothesis Htot : never_raises lg.
Hypothesis Hpop : 1 <= _pop_size self.
Hypothesis Hgen : generator_never_fails self.
Hypothesis Hfit : fitness_never_hangs self.

(** A draw that lets the loop go on has spent one evaluation, and budget
    is left. *)
Lemma drawn_terminates (st : state Sol H) r :
  evaluations st = fin r ->
  match drawn clock self lg st with
  | (Return Next, st') =>
      evaluations st' = fin (r - 1) /\ 0 < r - 1 /\ stop st' = stop st
  | (Return Break, st') => stop st' = true
  | (Raise _, _) => True
  | (Diverge, _) => False
  end.
Proof.
  intros Hr.
  assert (Hchk : forall st1 : state Sol H,
             evaluations st1 = fin r -> stop st1 = stop st ->
             match checked clock self st1 with
             | (Return Next, st') =>
                 evaluations st' = fin (r - 1) /\ 0 < r - 1 /\
                 stop st' = stop st
             | (Return Break, st') => stop st' = true
             | (Raise _, _) => True
             | (Diverge, _) => False
             end).
  { intros st1 H1 H2. unfold checked, stops. rewrite H1. cbn [budget_pred].
    destruct (budget_nonpos (fin (r - 1))) eqn:Hb; cbn [orb];
      [reflexivity|].
    destruct (timed_out _ _ || early_stopped _ _); [reflexivity|].
    cbn. split; [reflexivity|]. split; [|exact H2].
    cbn in Hb. apply Z.leb_gt in Hb. exact Hb. }
  assert (Htr : forall s q (st1 : state Sol H),
             evaluations st1 = fin r -> stop st1 = stop st ->
             evaluations (tracked self lg s q st1) = fin r /\
             stop (tracked self lg s q st1) = stop st).
  { intros s q st1 H1 H2. unfold tracked, logged.
    destruct (improves _ _ _); cbn; split; assumption. }
  unfold drawn. destruct (Hgen (draws st)) as [s ->].
  pose proof (Hfit (draws st) s) as Hf.
  destruct (_fitness_fn self (draws st) s) as [q|e|]; [| |elim Hf; reflexivity].
  - apply Hchk; apply Htr; unfold logged; cbn; first [assumption|reflexivity].
  - destruct (isinstance_Exception e); [|exact I].
    destruct (_errors self =? "raise")%string; [exact I|].
    apply Hchk; apply Htr; unfold logged; cbn; first [assumption|reflexivity].
Qed.

Lemma for_range_terminates n : forall (st : state Sol H) r,
  evaluations st = fin r -> stop st = false ->
  match for_range n (draw clock self lg) st with
  | (Return _, st') =>
      stop st' = true \/
      (stop st' = false /\ evaluations st' = fin (r - Z.of_nat n))
  | (Raise _, _) => True
  | (Diverge, _) => False
  end.
Proof.
  induction n as [|n IH]; intros st r Hr Hs.
  - cbn. right. split; [exact Hs|]. rewrite Hr. f_equal. lia.
  - rewrite for_range_S, draw_eq by assumption.
    pose proof (drawn_terminates st r Hr) as Hd.
    destruct (drawn clock self lg st) as [[[]|e|] st1]; try exact Hd.
    + destruct Hd as (H1 & H2 & H3).
      specialize (IH st1 (r - 1) H1 ltac:(congruence)).
      destruct (for_range n (draw clock self lg) st1) as [[[]|e|] st'];
        try exact IH.
      destruct IH as [IH|[IH1 IH2]]; [left; exact IH|right].
      split; [exact IH1|]. rewrite IH2. f_equal. lia.
    + left. exact Hd.
Qed.

(** A generation that lets the [while] loop go on has spent evaluations. *)
Lemma generation_terminates (st : state Sol H) r :
  evaluations st = fin r ->
  match generation clock self lg st with
  | (Return Next, st') => exists r', evaluations st' = fin r' /\ r' < r
  | (Return Break, _) => True
  | (Raise _, _) => True
  | (Diverge, _) => False
  end.
Proof.
  intros Hr. rewrite generation_eq by assumption.
  pose proof (for_range_terminates (Z.to_nat (_pop_size self))
                (generation_entry lg st) r) as Hf.
  specialize (Hf ltac:(unfold generation_entry, logged; cbn; exact Hr)
                 ltac:(reflexivity)).
  destruct (for_range _ _ _) as [[[]|e|] st1]; try exact Hf.
  unfold generation_exit.
  destruct Hf as [Hf|[Hf1 Hf2]]; [rewrite Hf; exact I|].
  rewrite Hf1. exists (r - Z.of_nat (Z.to_nat (_pop_size self))).
  split; [unfold logged; cbn; exact Hf2|lia].
Qed.

Lemma while_loop_terminates fuel : forall (st : state Sol H) r,
  evaluations st = fin r -> r <= Z.of_nat fuel ->
  fst (while_loop fuel budget_left (generation clock self lg) st) <> Diverge.
Proof.
  induction fuel as [|fuel IH]; intros st r Hr Hf.
  - rewrite while_loop_O, Hr. cbn [budget_pos].
    destruct (Z.ltb_spec 0 r); [lia|discriminate].
  - rewrite while_loop_S, Hr. cbn [budget_pos].
    destruct (Z.ltb_spec 0 r); [|discriminate].
    pose proof (generation_terminates st r Hr) as Hg.
    destruct (generation clock self lg st) as [[[]|e|] st1];
      try discriminate; [|elim Hg].
    destruct Hg as (r' & H1 & H2). apply (IH st1 r' H1). lia.
Qed.

Lemma search_terminates fuel E h :
  E <= Z.of_nat fuel ->
  fst (search clock self lg fuel (fin E) (enter h)) <> Diverge.
Proof.
  intros Hf. rewrite search_eq by assumption.
  pose proof (while_loop_terminates fuel
                (search_entry clock lg (fin E) (enter h)) E eq_refl Hf) as Hw.
  destruct (while_loop _ _ _ _) as [[[]|e|] st']; cbn in *;
    try discriminate; [|elim Hw; reflexivity].
  destruct (isinstance_KeyboardInterrupt e); discriminate.
Qed.

End Terminates.

(** C3, as amended.  With a logger whose hooks return: when [run] returns
    -- whatever made the loop stop: budget, search timeout, early stop, or a
    KeyboardInterrupt raised in the generator or the fitness function -- and
    when it propagates an [Exception] (an evaluation failure under the raise
    policy), the [end] hook has been invoked exactly once; when another
    [BaseException] (SystemExit, GeneratorExit) leaves [run], [end] has not
    been invoked; nor has it while the run has not come to an end.  And the
    run does come to an end when the budget is finite, the population holds
    at least one candidate, the generator never fails and every evaluation
    returns or raises. *)
Theorem end_invoked_exactly_once
    (Sol Sampler H : Type) (clock : nat -> Q) (fuel : nat)
    (self : SearchAlgorithm Sol Sampler) (evaluations : option Z)
    (logger : option (logger_arg Sol H)) (h : H)
    (Htot : never_raises (default_logger logger)) :
  let r := run clock fuel self evaluations logger h in
  count is_end (calls (snd r)) =
    match fst r with
    | Return _ => 1%nat
    | Raise e => if isinstance_Exception e then 1%nat else 0%nat
    | Diverge => 0%nat
    end /\
  (forall E,
     evaluations = Some E -> E <= Z.of_nat fuel ->
     1 <= _pop_size self ->
     generator_never_fails self -> fitness_never_hangs self ->
     fst r <> Diverge).
Proof.
  cbn zeta. unfold run. split.
  - apply search_end. assumption.
  - intros E -> Hf Hpop Hgen Hfit. cbn [default_evaluations].
    apply search_terminates; assumption.
Qed.

(** C3 at a run that ends with the failure of its second evaluation, under
    the raise policy. *)
Lemma end_invoked_exactly_once_witness :
  let r := run (H := unit) clock0 5 (engine (failing_at 1) 2 true "raise" None 0)
               (Some 5) None tt in
  fst r = Raise (Exception "boom") /\
  count is_end (calls (snd r)) = 1%nat /\
  fst r <> Diverge.
Proof.
  cbn zeta.
  destruct (end_invoked_exactly_once nat unit unit clock0 5
              (engine (failing_at 1) 2 true "raise" None 0) (Some 5) None tt)
    as [Hcount Hend].
  - intros ev h. reflexivity.
  - split; [reflexivity|]. split; [exact Hcount|].
    apply (Hend 5 eq_refl).
    + cbn. lia.
    + cbn. lia.
    + intros k. eexists. reflexivity.
    + intros k s. unfold engine, failing_at. cbn.
      destruct (Nat.eqb k 1); discriminate.
Defined.

(** The five ways out of [run], each with its single [end] call: budget
    exhausted, search timeout, early stop, interrupt, fatal failure. *)
Example end_hook_on_each_way_out :
  let ends r := count is_end (calls (snd r)) in
  let by_budget :=
    run (H := unit) clock0 9 (engine (constant_fitness 1) 2 true "raise" None 0)
        (Some 3) None tt in
  let by_timeout :=
    run (H := unit) clock0 9 (engine (constant_fitness 1) 2 true "raise" None 2)
        None None tt in
  let by_early_stop :=
    run (H := unit) clock0 9
        (engine (constant_fitness 1) 2 true "raise" (Some 1) 0) None None tt in
  let by_interrupt :=
    run (H := unit) clock0 9 (engine (interrupted_at 3) 2 true "raise" None 0)
        None None tt in
  let by_failure :=
    run (H := unit) clock0 9 (engine (failing_at 3) 2 true "raise" None 0)
        None None tt in
  (fst by_budget = Return (Some 0%nat, Some 1%Q) /\ ends by_budget = 1%nat /\
   evaluations (snd by_budget) = fin 0) /\
  (fst by_timeout = Return (Some 0%nat, Some 1%Q) /\ ends by_timeout = 1%nat /\
   draws (snd by_timeout) = 3%nat) /\
  (fst by_early_stop = Return (Some 0%nat, Some 1%Q) /\
   ends by_early_stop = 1%nat /\ no_improvement (snd by_early_stop) = 2) /\
  (fst by_interrupt = Return (Some 2%nat, Some 2%Q) /\
   ends by_interrupt = 1%nat) /\
  (fst by_failure = Raise (Exception "boom") /\ ends by_failure = 1%nat).
Proof. vm_compute. repeat split; reflexivity. Qed.

(** C3 as stated fails: [end] is not invoked on every way out of [run].  A
    SystemExit raised by the fitness function passes both [except] clauses
    and leaves [run] with no [end] call, under either error policy; and when
    the [begin] hook raises -- here on an unbounded budget it cannot format
    -- [run] ends there, before the [try] block. *)
Lemma end_not_invoked_on_every_way_out :
  let ends (H : Type) (r : outcome (option nat * option Q) * state nat H) :=
    count is_end (calls (snd r)) in
  let by_exit errors :=
    run (H := unit) clock0 9 (engine (exiting_at 1) 2 true errors None 0)
        (Some 5) None tt in
  let by_begin :=
    run clock0 9 (engine (constant_fitness 1) 2 true "raise" None 0) None
        (Some (logger_obj (formatting_logger "A"))) [] in
  (fst (by_exit "raise") = Raise SystemExit /\
   ends unit (by_exit "raise") = 0%nat) /\
  (fst (by_exit "ignore") = Raise SystemExit /\
   ends unit (by_exit "ignore") = 0%nat) /\
  (fst by_begin = Raise (Exception "cannot convert float infinity to integer")
   /\ ends _ by_begin = 0%nat).
Proof. vm_compute. repeat split; reflexivity. Qed.

(** ** A fitness function that always fails, under the raise policy *)

Section Fatal.
Variables (Sol Sampler H : Type) (clock : nat -> Q).
Variable self : SearchAlgorithm Sol Sampler.
Variable lg : logger_t Sol H.
Variables (k0 : nat) (s0 : Sol) (e0 : exn).
Hypothesis Htot : never_raises lg.
Hypothesis Hraise : _errors self = "raise".
Hypothesis Hgen : first_drawn self k0 s0.
Hypothesis Hfit : _fitness_fn self k0 s0 = Raise e0.
Hypothesis He0 : isinstance_Exception e0 = true.
Hypothesis Hpop : 1 <= _pop_size self.

Lemma drawn_skips d st :
  untouched d st -> (d < k0)%nat ->
  exists st', drawn clock self lg st = (Return Next, st') /\
              untouched (S d) st' /\ stop st' = stop st.
Proof.
  intros (Hd & Hb & Hbf & Ha & Hs & Hp) Hlt. unfold drawn. rewrite Hd.
  destruct Hgen as [Hg _]. destruct (Hg d Hlt) as (e & -> & ->).
  eexists. split; [reflexivity|].
  unfold untouched, attempts, scored, logged in *. cbn.
  rewrite !count_snoc. cbn. repeat split; try assumption; lia.
Qed.

Lemma drawn_aborts st :
  untouched k0 st ->
  exists st', drawn clock self lg st = (Raise e0, st') /\ aborted st'.
Proof.
  intros (Hd & Hb & Hbf & Ha & Hs & Hp). unfold drawn. rewrite Hd.
  destruct Hgen as [_ ->]. rewrite Hfit, He0, Hraise, String.eqb_refl.
  eexists. split; [reflexivity|].
  unfold aborted, attempts, scored, logged in *. cbn.
  rewrite !count_snoc. cbn. rewrite Hb, Hbf.
  repeat split; try lia. eexists. reflexivity.
Qed.

Lemma for_range_fatal n : forall d st,
  untouched d st -> (d <= k0)%nat ->
  if (d + n <=? k0)%nat then
    exists st', for_range n (draw clock self lg) st = (Return tt, st') /\
                untouched (d + n) st' /\ stop st' = stop st
  else
    exists st', for_range n (draw clock self lg) st = (Raise e0, st') /\
                aborted st'.
Proof.
  induction n as [|n IH]; intros d st Hu Hd.
  - rewrite Nat.add_0_r. destruct (Nat.leb_spec d k0); [|lia].
    exists st. repeat split; try apply Hu.
  - rewrite for_range_S, draw_eq by assumption.
    destruct (Nat.eq_dec d k0) as [->|Hne].
    + destruct (Nat.leb_spec (k0 + S n) k0); [lia|].
      destruct (drawn_aborts st Hu) as (st' & -> & Ha). eauto.
    + destruct (drawn_skips d st Hu) as (st1 & -> & Hu1 & Hs1); [lia|].
      specialize (IH (S d) st1 Hu1 ltac:(lia)).
      replace (d + S n)%nat with (S d + n)%nat by lia.
      destruct (S d + n <=? k0)%nat.
      * destruct IH as (st' & G1 & G2 & G3). exists st'.
        repeat split; try assumption; try apply G2. congruence.
      * exact IH.
Qed.

Lemma generation_fatal d st :
  untouched d st -> (d <= k0)%nat ->
  if (d + Z.to_nat (_pop_size self) <=? k0)%nat then
    exists st', generation clock self lg st = (Return Next, st') /\
                untouched (d + Z.to_nat (_pop_size self)) st'
  else
    exists st', generation clock self lg st = (Raise e0, st') /\ aborted st'.
Proof.
  intros Hu Hd. rewrite generation_eq by assumption.
  assert (Hu' : untouched d (generation_entry lg st)).
  { destruct Hu as (A1 & A2 & A3 & A4 & A5 & A6).
    unfold untouched, attempts, scored, generation_entry, logged in *. cbn.
    rewrite !count_snoc. cbn. repeat split; try assumption; lia. }
  pose proof (for_range_fatal (Z.to_nat (_pop_size self)) d _ Hu' Hd) as Hf.
  destruct (d + Z.to_nat (_pop_size self) <=? k0)%nat.
  - destruct Hf as (st' & -> & G2 & G3). unfold generation_exit.
    rewrite G3. cbn. eexists. split; [reflexivity|].
    destruct G2 as (A1 & A2 & A3 & A4 & A5 & A6).
    unfold untouched, attempts, scored, logged in *. cbn.
    rewrite !count_snoc. cbn. repeat split; try assumption; lia.
  - destruct Hf as (st' & -> & G2). eauto.
Qed.

Lemma while_loop_fatal fuel : forall d st,
  untouched d st -> (d <= k0)%nat -> (k0 - d < fuel)%nat ->
  exists st',
    while_loop fuel budget_left (generation clock self lg) st = (Raise e0, st') /\
    aborted st'.
Proof.
  induction fuel as [|fuel IH]; intros d st Hu Hd Hf; [lia|].
  rewrite while_loop_S.
  replace (budget_pos (evaluations st)) with true by (symmetry; apply Hu).
  pose proof (generation_fatal d st Hu Hd) as Hg.
  destruct (Nat.leb_spec (d + Z.to_nat (_pop_size self)) k0).
  - destruct Hg as (st1 & -> & Hu1). apply (IH _ _ Hu1); lia.
  - destruct Hg as (st1 & -> & Ha). eauto.
Qed.

Lemma search_fatal fuel b h :
  budget_pos b = true -> (k0 < fuel)%nat ->
  exists st',
    search clock self lg fuel b (enter h) = (Raise e0, st') /\ aborted st'.
Proof.
  intros Hb Hf. rewrite search_eq by assumption.
  assert (Hu : untouched 0%nat (search_entry clock lg b (enter h))).
  { unfold untouched, attempts, scored, search_entry, logged. cbn.
    repeat split; assumption. }
  destruct (while_loop_fatal fuel 0%nat _ Hu) as (st' & -> & Ha); try lia.
  exists st'. split; [|assumption].
  destruct e0; try discriminate; reflexivity.
Qed.
End Fatal.




(** ** The best pair *)

Section Best.
Variables (Sol Sampler H : Type) (clock : nat -> Q).

Lemma best_trace_snoc (l : list (event Sol)) ev :
  best_trace (l ++ [ev]) =
  best_trace l ++ match ev with ev_update_best _ q _ _ => [q] | _ => [] end.
Proof.
  induction l as [|a l IH]; cbn.
  - destruct ev; reflexivity.
  - rewrite IH. destruct a; reflexivity.
Qed.

Lemma last_item_snoc l q : last_item (l ++ [q]) = Some q.
Proof. unfold last_item. rewrite rev_app_distr. reflexivity. Qed.

Lemma last_item_cons a b l : last_item (a :: b :: l) = last_item (b :: l).
Proof.
  unfold last_item. cbn. destruct (rev l) as [|x r]; reflexivity.
Qed.

Lemma improves_better maximize q b :
  improves maximize q (Some b) = true <-> better maximize b q.
Proof.
  unfold improves, better, Qgt_bool, Qlt_bool.
  destruct maximize; cbn; rewrite ?andb_true_r, ?andb_false_r, ?orb_false_r, ?orb_false_l.
  - rewrite negb_true_iff. split.
    + intros Hle. apply Qnot_le_lt. intros Hc.
      apply Qle_bool_iff in Hc. congruence.
    + intros Hlt. destruct (Qle_bool q b) eqn:Hc; [|reflexivity].
      apply Qle_bool_iff in Hc. exfalso. exact (Qlt_not_le _ _ Hlt Hc).
  - rewrite negb_true_iff. split.
    + intros Hle. apply Qnot_le_lt. intros Hc.
      apply Qle_bool_iff in Hc. congruence.
    + intros Hlt. destruct (Qle_bool b q) eqn:Hc; [|reflexivity].
      apply Qle_bool_iff in Hc. exfalso. exact (Qlt_not_le _ _ Hlt Hc).
Qed.

Lemma better_trans maximize a b c :
  better maximize a b -> better maximize b c -> better maximize a c.
Proof.
  unfold better. destruct maximize; intros H1 H2.
  - exact (Qlt_trans _ _ _ H1 H2).
  - exact (Qlt_trans _ _ _ H2 H1).
Qed.

Lemma sorted_snoc maximize l q :
  StronglySorted (better maximize) l ->
  (forall b, last_item l = Some b -> better maximize b q) ->
  StronglySorted (better maximize) (l ++ [q]).
Proof.
  induction l as [|a l IH]; intros Hs Hl; cbn.
  - repeat constructor.
  - inversion Hs as [|? ? Hs' Hall]; subst. constructor.
    + apply IH; [assumption|]. intros b Hb. apply Hl.
      destruct l as [|c l]; [discriminate|]. rewrite last_item_cons. exact Hb.
    + apply Forall_app. split; [assumption|]. constructor; [|constructor].
      destruct l as [|c l].
      * apply Hl. reflexivity.
      * assert (Hq : exists b, last_item (c :: l) = Some b).
        { unfold last_item. cbn. destruct (rev l); cbn; eauto. }
        destruct Hq as [b Hb].
        apply better_trans with b.
        -- unfold last_item in Hb.
           assert (Hin : In b (c :: l)).
           { apply in_rev. destruct (rev (c :: l)); [discriminate|].
             injection Hb as ->. left. reflexivity. }
           rewrite Forall_forall in Hall. apply Hall. exact Hin.
        -- apply Hl. rewrite last_item_cons. exact Hb.
Qed.

Variable self : SearchAlgorithm Sol Sampler.
Variable lg : logger_t Sol H.
Hypothesis Htot : never_raises lg.

Lemma logged_in_step ev (st : state Sol H) :
  is_update_best ev = false ->
  best_in_step (_maximize self) st ->
  best_in_step (_maximize self) (logged lg ev st).
Proof.
  intros Hev [H1 H2]. unfold best_in_step, logged. cbn.
  rewrite best_trace_snoc. destruct ev; try discriminate;
    rewrite app_nil_r; split; assumption.
Qed.

Lemma tracked_in_step s q (st : state Sol H) :
  best_in_step (_maximize self) st ->
  best_in_step (_maximize self) (tracked self lg s q st).
Proof.
  intros [H1 H2]. unfold tracked.
  destruct (improves _ _ _) eqn:Hi; unfold best_in_step, logged; cbn;
    rewrite !best_trace_snoc, ?app_nil_r.
  - split; [|apply last_item_snoc].
    apply sorted_snoc; [assumption|]. intros b Hb.
    apply improves_better. rewrite H2 in Hb. rewrite Hb in Hi. exact Hi.
  - split; assumption.
Qed.

Lemma search_in_step fuel b h :
  best_in_step (_maximize self) (snd (search clock self lg fuel b (enter h))).
Proof.
  apply search_inv; try assumption.
  - intros k st HI. exact HI.
  - intros ev st Hu _ HI. apply logged_in_step; assumption.
  - intros s q st HI. unfold checked.
    destruct (stops _ _ _); exact (tracked_in_step s q st HI).
  - intros st HI. unfold generation_entry.
    change (best_in_step (_maximize self)
              (logged lg (ev_start_generation (evaluations st) (best_fn st))
                 (set_stop false st))).
    apply logged_in_step; [reflexivity|exact HI].
  - unfold search_entry, best_in_step, logged. cbn.
    split; [constructor|reflexivity].
Qed.

Lemma drawn_best st :
  let st' := snd (drawn clock self lg st) in
  (best_solution st', best_fn st') =
  match scored_at self (draws st) with
  | Some (s, q) =>
      if improves (_maximize self) q (best_fn st)
      then (Some s, Some q) else (best_solution st, best_fn st)
  | None => (best_solution st, best_fn st)
  end.
Proof.
  cbn zeta. unfold drawn, scored_at.
  destruct (generated self (draws st)) as [s|e|]; cbn.
  - destruct (_fitness_fn self (draws st) s) as [q|e|]; cbn.
    + unfold checked, tracked, logged. cbn.
      destruct (improves _ _ _), (stops _ _ _); reflexivity.
    + destruct (isinstance_Exception e); [|reflexivity].
      destruct (_errors self =? "raise")%string; cbn; [reflexivity|].
      unfold checked, tracked, logged. cbn.
      destruct (improves _ _ _), (stops _ _ _); reflexivity.
    + reflexivity.
  - destruct (isinstance_Exception e); reflexivity.
  - reflexivity.
Qed.
End Best.

(** C2.  One draw replaces the best pair exactly when it scores a fitness
    and [best_fn] is absent or strictly improved on in the configured
    direction -- a tie never replaces it --, and over a whole run the values
    [best_fn] takes are strictly increasing when maximizing (strictly
    decreasing when minimizing), the last of them being the final
    [best_fn]. *)
Theorem best_fitness_monotone
    (Sol Sampler H : Type) (clock : nat -> Q) (fuel : nat)
    (self : SearchAlgorithm Sol Sampler) (evaluations : option Z)
    (logger : option (logger_arg Sol H)) (h : H)
    (Htot : never_raises (default_logger logger)) :
  let r := run clock fuel self evaluations logger h in
  (forall st,
     let st' := snd (draw clock self (default_logger logger) st) in
     (best_solution st', best_fn st') =
     match scored_at self (draws st) with
     | Some (s, q) =>
         if improves (_maximize self) q (best_fn st)
         then (Some s, Some q) else (best_solution st, best_fn st)
     | None => (best_solution st, best_fn st)
     end) /\
  (forall q, improves (_maximize self) q None = true) /\
  (forall q b, improves (_maximize self) q (Some b) = true <->
               if _maximize self then (b < q)%Q else (q < b)%Q) /\
  (forall q b, (q == b)%Q -> improves (_maximize self) q (Some b) = false) /\
  (_maximize self = true ->
   StronglySorted Qlt (best_trace (calls (snd r)))) /\
  (_maximize self = false ->
   StronglySorted (fun a b => (b < a)%Q) (best_trace (calls (snd r)))) /\
  last_item (best_trace (calls (snd r))) = best_fn (snd r).
Proof.
  cbn zeta.
  pose proof (search_in_step Sol Sampler H clock self (default_logger logger)
                Htot fuel (default_evaluations evaluations) h) as [Hs Hl].
  split; [intros st; rewrite draw_eq by assumption; apply drawn_best|].
  split; [reflexivity|].
  split; [intros q b; apply improves_better|].
  split.
  { intros q b Hqb. destruct (improves _ q (Some b)) eqn:Hi; [|reflexivity].
    apply improves_better in Hi. unfold better in Hi. exfalso.
    destruct (_maximize self); rewrite Hqb in Hi;
      exact (Qlt_irrefl _ Hi). }
  unfold run. unfold better in Hs.
  split; [|split]; [intros Hm; rewrite Hm in Hs; exact Hs
                   |intros Hm; rewrite Hm in Hs; exact Hs
                   |exact Hl].
Qed.

Lemma best_fitness_monotone_witness :
  let self := engine one_five_two 1 true "raise" None 0 in
  let r := run (H := unit) clock0 3 self (Some 3) None tt in
  (forall st,
     let st' := snd (draw clock0 self (default_logger (H := unit) None) st) in
     (best_solution st', best_fn st') =
     match scored_at self (draws st) with
     | Some (s, q) =>
         if improves (_maximize self) q (best_fn st)
         then (Some s, Some q) else (best_solution st, best_fn st)
     | None => (best_solution st, best_fn st)
     end) /\
  (forall q, improves (_maximize self) q None = true) /\
  (forall q b, improves (_maximize self) q (Some b) = true <->
               if _maximize self then (b < q)%Q else (q < b)%Q) /\
  (forall q b, (q == b)%Q -> improves (_maximize self) q (Some b) = false) /\
  (_maximize self = true ->
   StronglySorted Qlt (best_trace (calls (snd r)))) /\
  (_maximize self = false ->
   StronglySorted (fun a b => (b < a)%Q) (best_trace (calls (snd r)))) /\
  last_item (best_trace (calls (snd r))) = best_fn (snd r).
Proof.
  apply best_fitness_monotone.
  intros ev h. reflexivity.
Defined.

(** Scenario 1 of the specification: budget 3, one candidate per generation,
    fitness 1, 5, 2.  The best is updated after evaluations 1 and 2 and not
    after evaluation 3; the result is the second candidate with fitness 5. *)
Example scenario_one :
  let r := run (H := unit) clock0 3 (engine one_five_two 1 true "raise" None 0)
               (Some 3) None tt in
  fst r = Return (Some 1%nat, Some 5%Q) /\
  best_trace (calls (snd r)) = [1%Q; 5%Q].
Proof. vm_compute. split; reflexivity. Qed.

(** ** Absence of a best pair *)

Section Absent.
Variables (Sol Sampler H : Type) (clock : nat -> Q).
Variable self : SearchAlgorithm Sol Sampler.
Variable lg : logger_t Sol H.
Hypothesis Htot : never_raises lg.

Lemma logged_absent ev (st : state Sol H) :
  is_eval_solution ev = false ->
  absent_until_scored st -> absent_until_scored (logged lg ev st).
Proof.
  intros Hev HI. unfold absent_until_scored, scored, logged in *. cbn.
  rewrite count_snoc, Hev, Nat.add_0_r. exact HI.
Qed.

Lemma tracked_absent s q (st : state Sol H) :
  absent_until_scored st -> absent_until_scored (tracked self lg s q st).
Proof.
  intros [H1 H2]. unfold tracked.
  destruct (improves _ _ _) eqn:Hi;
    unfold absent_until_scored, scored, logged in *; cbn;
    rewrite !count_snoc; cbn.
  - split; split; intros; try discriminate; lia.
  - destruct (best_fn st) as [b|] eqn:Hb; [|discriminate Hi].
    destruct (best_solution st) as [bs|] eqn:Hbs.
    + split; split; intros; try discriminate; lia.
    + assert (Hz : Z.of_nat (count is_eval_solution (calls st)) = 0)
        by (apply H2; reflexivity).
      apply H1 in Hz. discriminate.
Qed.

Lemma search_absent fuel b h :
  absent_until_scored (snd (search clock self lg fuel b (enter h))).
Proof.
  apply search_inv; try assumption.
  - intros k st HI. exact HI.
  - intros ev st _ He HI. apply logged_absent; assumption.
  - intros s q st HI. unfold checked.
    destruct (stops _ _ _); exact (tracked_absent s q st HI).
  - intros st HI. unfold generation_entry.
    change (absent_until_scored
              (logged lg (ev_start_generation (evaluations st) (best_fn st))
                 (set_stop false st))).
    apply logged_absent; [reflexivity|exact HI].
  - unfold search_entry, absent_until_scored, scored, logged. cbn.
    split; split; reflexivity.
Qed.
End Absent.

(** C6, as amended.  [best_fn] and [best_solution] are absent ([None], not
    zero) exactly as long as no evaluation has been scored; an evaluation is
    scored when the fitness function returns and also when it fails under a
    policy other than "raise", in which case the score is 0: such a failure,
    met while [best_fn] is absent, makes [best_fn] 0 and the failing
    candidate the best solution. *)
Theorem best_absent_until_first_score
    (Sol Sampler H : Type) (clock : nat -> Q) (fuel : nat)
    (self : SearchAlgorithm Sol Sampler) (evaluations : option Z)
    (logger : option (logger_arg Sol H)) (h : H)
    (Htot : never_raises (default_logger logger)) :
  let r := run clock fuel self evaluations logger h in
  (best_fn (snd r) = None <-> scored (snd r) = 0) /\
  (best_solution (snd r) = None <-> scored (snd r) = 0) /\
  (forall st s e,
     generated self (draws st) = Return s ->
     _fitness_fn self (draws st) s = Raise e ->
     isinstance_Exception e = true ->
     (_errors self =? "raise")%string = false ->
     best_fn st = None ->
     let st' := snd (draw clock self (default_logger logger) st) in
     best_solution st' = Some s /\ best_fn st' = Some 0%Q).
Proof.
  cbn zeta.
  destruct (search_absent Sol Sampler H clock self (default_logger logger)
              Htot fuel (default_evaluations evaluations) h) as [H1 H2].
  split; [exact H1|]. split; [exact H2|].
  intros st s e Hg Hf He Hr Hb.
  rewrite draw_eq by assumption.
  pose proof (drawn_best Sol Sampler H clock self (default_logger logger) st)
    as Hd.
  cbn zeta in Hd. unfold scored_at in Hd.
  rewrite Hg, Hf, He, Hr, Hb in Hd. cbn in Hd.
  injection Hd as -> ->. split; reflexivity.
Qed.

Lemma best_absent_until_first_score_witness :
  let self := engine (failing_at 0) 1 true "continue" None 0 in
  let r := run (H := unit) clock0 2 self (Some 2) None tt in
  (best_fn (snd r) = None <-> scored (snd r) = 0) /\
  (best_solution (snd r) = None <-> scored (snd r) = 0) /\
  (forall st s e,
     generated self (draws st) = Return s ->
     _fitness_fn self (draws st) s = Raise e ->
     isinstance_Exception e = true ->
     (_errors self =? "raise")%string = false ->
     best_fn st = None ->
     let st' := snd (draw clock0 self (default_logger (H := unit) None) st) in
     best_solution st' = Some s /\ best_fn st' = Some 0%Q).
Proof.
  apply best_absent_until_first_score.
  intros ev h. reflexivity.
Defined.

(** C6 as stated fails: with errors = "continue", budget 1 and a fitness
    function that fails on the first candidate, the run returns that
    candidate as the best solution, with fitness 0. *)
Lemma failed_evaluation_becomes_best :
  let self := engine (failing_at 0) 1 true "continue" None 0 in
  let r := run (H := unit) clock0 1 self (Some 1) None tt in
  _fitness_fn self 0%nat 0%nat = Raise (Exception "boom") /\
  fst r = Return (Some 0%nat, Some 0%Q) /\
  calls (snd r) =
    [ev_begin (fin 1); ev_start_generation (fin 1) None;
     ev_sample_solution 0%nat;
     ev_error (err_exn (Exception "boom")) (Some 0%nat);
     ev_eval_solution 0%nat 0%Q; ev_update_best 0%nat 0%Q None None;
     ev_finish_generation [0%Q]; ev_end (Some 0%nat) (Some 0%Q)].
Proof. vm_compute. repeat split; reflexivity. Qed.

(** ** Early stop on a plateau *)

Section Plateau.
Variables (Sol Sampler H : Type) (clock : nat -> Q).
Variable self : SearchAlgorithm Sol Sampler.
Variable lg : logger_t Sol H.
Variables (N : Z) (b0 : budget) (s0 : Sol) (c0 : Q).
Hypothesis Htot : never_raises lg.
Hypothesis Hgen : generator_never_fails self.
Hypothesis Hs0 : generated self 0%nat = Return s0.
Hypothesis Hfit : plateau self c0.
Hypothesis Htime : forall k,
  (1 <= k)%nat -> Z.of_nat k <= (N + 1) * _pop_size self ->
  timed_out self (clock k - clock 0%nat) = false.
Hypothesis Hearly : _early_stop self = Some N.
Hypothesis HN : 1 <= N.
Hypothesis Hpop : 1 <= _pop_size self.
Hypothesis Hroom : outlasts b0 ((N + 1) * _pop_size self + 1).

Lemma early_stopped_eq n : early_stopped self n = (N <? n).
Proof.
  unfold early_stopped, truthy. rewrite Hearly.
  destruct (Z.eqb_spec N 0); [lia|reflexivity].
Qed.

Lemma budget_goes_on m :
  0 <= m -> m + 1 <= ((N + 1) * _pop_size self + 1) ->
  budget_nonpos (budget_pred (budget_sub b0 m)) = false /\
  budget_pred (budget_sub b0 m) = budget_sub b0 (m + 1).
Proof.
  intros H0 Hm. unfold outlasts in Hroom.
  destruct b0 as [r|]; cbn; [|split; reflexivity].
  split; [apply Z.leb_gt; lia|f_equal; lia].
Qed.

Lemma stops_eq (st : state Sol H) m :
  evaluations st = budget_sub b0 m -> 0 <= m ->
  m + 1 <= ((N + 1) * _pop_size self + 1) ->
  start_time st = clock 0%nat -> Z.of_nat (draws st) = m + 1 ->
  (m + 1 <= (N + 1) * _pop_size self \/ N < no_improvement st) ->
  stops clock self st = (N <? no_improvement st).
Proof.
  intros He H0 Hm Ht0 Hds Hor. unfold stops.
  rewrite He, early_stopped_eq.
  destruct (budget_goes_on m H0 Hm) as [-> _]. cbn [orb].
  destruct Hor as [Hle|Hlt].
  - rewrite Ht0, Htime by lia. reflexivity.
  - replace (N <? no_improvement st) with true
      by (symmetry; apply Z.ltb_lt; exact Hlt).
    apply orb_true_r.
Qed.

(** A draw on the plateau that does not stop the run. *)
Lemma drawn_plateau j st :
  on_plateau clock b0 s0 c0 j st -> 0 <= j <= N ->
  scored st + 1 <= (N + 1) * _pop_size self ->
  exists st',
    drawn clock self lg st = (Return Next, st') /\
    on_plateau clock b0 s0 c0 j st' /\
    scored st' = scored st + 1 /\ generations st' = generations st /\
    stop st' = stop st.
Proof.
  intros (Hb & Hbs & Hd & Hj & He & Hu & Ht0 & Hds) Hjn Hsc. unfold drawn.
  destruct (Hgen (draws st)) as [s ->].
  destruct Hfit as [_ Hlater].
  destruct (Hlater (draws st) s ltac:(lia)) as (q & -> & Hq).
  unfold tracked, logged. cbn. rewrite Hb, Hq.
  unfold checked.
  rewrite (stops_eq _ (scored st)); cbn;
    [|assumption|unfold scored; lia|lia|assumption|lia|left; exact Hsc].
  rewrite Hj. destruct (Z.ltb_spec N j); [lia|].
  eexists. split; [reflexivity|].
  destruct (budget_goes_on (scored st) ltac:(unfold scored; lia) ltac:(lia))
    as [_ Hpred].
  unfold on_plateau, scored, generations, updates, logged in *. cbn.
  rewrite !count_snoc. cbn. rewrite He, Hpred.
  repeat split; try assumption; try lia. f_equal. lia.
Qed.

(** The draw that stops the run: the streak has passed the threshold. *)
Lemma drawn_stops st :
  on_plateau clock b0 s0 c0 (N + 1) st ->
  scored st + 1 <= ((N + 1) * _pop_size self + 1) ->
  exists st',
    drawn clock self lg st = (Return Break, st') /\
    on_plateau clock b0 s0 c0 (N + 1) st' /\
    scored st' = scored st + 1 /\ generations st' = generations st /\
    stop st' = true.
Proof.
  intros (Hb & Hbs & Hd & Hj & He & Hu & Ht0 & Hds) Hsc. unfold drawn.
  destruct (Hgen (draws st)) as [s ->].
  destruct Hfit as [_ Hlater].
  destruct (Hlater (draws st) s ltac:(lia)) as (q & -> & Hq).
  unfold tracked, logged. cbn. rewrite Hb, Hq.
  unfold checked.
  rewrite (stops_eq _ (scored st)); cbn;
    [|assumption|unfold scored; lia|lia|assumption|lia|right; lia].
  rewrite Hj. destruct (Z.ltb_spec N (N + 1)); [|lia].
  eexists. split; [reflexivity|].
  destruct (budget_goes_on (scored st) ltac:(unfold scored; lia) Hsc)
    as [_ Hpred].
  unfold on_plateau, scored, generations, updates, logged in *. cbn.
  rewrite !count_snoc. cbn. rewrite He, Hpred.
  repeat split; try assumption; try lia. f_equal. lia.
Qed.

(** The first draw of the run: the improving evaluation. *)
Lemma drawn_first st :
  draws st = 0%nat -> best_fn st = None ->
  evaluations st = b0 -> scored st = 0 -> updates st = 0 ->
  start_time st = clock 0%nat ->
  exists st',
    drawn clock self lg st = (Return Next, st') /\
    on_plateau clock b0 s0 c0 0 st' /\
    scored st' = 1 /\ generations st' = generations st /\
    stop st' = stop st.
Proof.
  intros Hd Hb He Hsc Hu Ht0. unfold drawn. rewrite Hd, Hs0.
  destruct Hfit as [-> _].
  unfold tracked, logged. cbn. rewrite Hb. cbn.
  unfold checked.
  assert (HT : 0 + 1 <= ((N + 1) * _pop_size self + 1)) by nia.
  rewrite (stops_eq _ 0); cbn;
    [|rewrite He; destruct b0; cbn; [f_equal; lia|reflexivity]
     |lia|lia|assumption
     |first [reflexivity|rewrite Hd; reflexivity|lia]|left; nia].
  destruct (Z.ltb_spec N 0); [lia|].
  eexists. split; [reflexivity|].
  destruct (budget_goes_on 0 ltac:(lia) HT) as [_ Hpred].
  unfold on_plateau, scored, generations, updates, logged in *. cbn.
  rewrite !count_snoc. cbn. rewrite He.
  replace (budget_pred b0) with (budget_sub b0 (0 + 1))
    by (rewrite <- Hpred; destruct b0; cbn; [do 2 f_equal; lia|reflexivity]).
  repeat split; try assumption; try lia. f_equal. lia.
Qed.

Lemma for_range_plateau j n : forall st,
  on_plateau clock b0 s0 c0 j st -> 0 <= j <= N ->
  scored st + Z.of_nat n <= (N + 1) * _pop_size self ->
  exists st',
    for_range n (draw clock self lg) st = (Return tt, st') /\
    on_plateau clock b0 s0 c0 j st' /\
    scored st' = scored st + Z.of_nat n /\
    generations st' = generations st /\ stop st' = stop st.
Proof.
  induction n as [|n IH]; intros st Hp Hj Hsc.
  - exists st. cbn [for_range ret]. repeat split; try apply Hp; lia.
  - rewrite for_range_S, draw_eq by assumption.
    destruct (drawn_plateau j st Hp Hj) as (st1 & -> & P1 & S1 & G1 & X1);
      [lia|].
    destruct (IH st1 P1 Hj) as (st' & -> & P2 & S2 & G2 & X2); [lia|].
    exists st'. split; [reflexivity|]. split; [assumption|].
    repeat split; lia || congruence.
Qed.

Lemma budget_still_positive j (st : state Sol H) :
  on_plateau clock b0 s0 c0 j st -> scored st <= ((N + 1) * _pop_size self + 1) ->
  budget_pos (evaluations st) = true.
Proof.
  intros (_ & _ & _ & _ & He & _) Hsc. rewrite He.
  unfold outlasts in Hroom.
  destruct b0 as [r|]; cbn; [|reflexivity]. apply Z.ltb_lt. lia.
Qed.

Lemma entry_plateau j (st : state Sol H) :
  on_plateau clock b0 s0 c0 j st ->
  on_plateau clock b0 s0 c0 (j + 1) (generation_entry lg st) /\
  scored (generation_entry lg st) = scored st /\
  generations (generation_entry lg st) = generations st + 1 /\
  stop (generation_entry lg st) = false.
Proof.
  intros (Hb & Hbs & Hd & Hj & He & Hu & Ht0 & Hds).
  unfold on_plateau, scored, generations, updates, generation_entry, logged
    in *. cbn. rewrite !count_snoc. cbn.
  repeat split; try assumption; try lia. rewrite He. f_equal. lia.
Qed.

Lemma exit_plateau j (st : state Sol H) :
  on_plateau clock b0 s0 c0 j st ->
  on_plateau clock b0 s0 c0 j (logged lg (ev_finish_generation (fns st)) st) /\
  scored (logged lg (ev_finish_generation (fns st)) st) = scored st /\
  generations (logged lg (ev_finish_generation (fns st)) st) = generations st.
Proof.
  intros (Hb & Hbs & Hd & Hj & He & Hu & Ht0 & Hds).
  unfold on_plateau, scored, generations, updates, logged in *. cbn.
  rewrite !count_snoc. cbn.
  repeat split; try assumption; try lia. rewrite He. f_equal. lia.
Qed.

(** A whole generation on the plateau, below the threshold. *)
Lemma generation_plateau j (st : state Sol H) :
  on_plateau clock b0 s0 c0 j st -> 0 <= j < N ->
  scored st + _pop_size self <= (N + 1) * _pop_size self ->
  exists st',
    generation clock self lg st = (Return Next, st') /\
    on_plateau clock b0 s0 c0 (j + 1) st' /\
    scored st' = scored st + _pop_size self /\
    generations st' = generations st + 1.
Proof.
  intros Hp Hj Hsc. rewrite generation_eq by assumption.
  destruct (entry_plateau j st Hp) as (P0 & S0 & G0 & X0).
  destruct (for_range_plateau (j + 1) (Z.to_nat (_pop_size self))
              (generation_entry lg st) P0)
    as (st1 & -> & P1 & S1 & G1 & X1); try lia.
  unfold generation_exit. rewrite X1, X0.
  destruct (exit_plateau (j + 1) st1 P1) as (P2 & S2 & G2).
  eexists. split; [reflexivity|]. split; [assumption|]. split; lia.
Qed.

(** The generation in which the streak passes the threshold: one draw. *)
Lemma generation_last (st : state Sol H) :
  on_plateau clock b0 s0 c0 N st -> scored st + 1 <= ((N + 1) * _pop_size self + 1) ->
  exists st',
    generation clock self lg st = (Return Break, st') /\
    on_plateau clock b0 s0 c0 (N + 1) st' /\
    scored st' = scored st + 1 /\
    generations st' = generations st + 1.
Proof.
  intros Hp Hsc. rewrite generation_eq by assumption.
  destruct (entry_plateau N st Hp) as (P0 & S0 & G0 & X0).
  destruct (Z.to_nat (_pop_size self)) as [|n] eqn:Hn; [lia|].
  rewrite for_range_S, draw_eq by assumption.
  destruct (drawn_stops (generation_entry lg st) P0)
    as (st1 & -> & P1 & S1 & G1 & X1); [lia|].
  unfold generation_exit. rewrite X1.
  destruct (exit_plateau (N + 1) st1 P1) as (P2 & S2 & G2).
  eexists. split; [reflexivity|]. split; [assumption|]. split; lia.
Qed.

(** The first generation: the improving draw, then the plateau. *)
Lemma generation_first (st : state Sol H) :
  draws st = 0%nat -> best_fn st = None -> evaluations st = b0 ->
  scored st = 0 -> updates st = 0 -> start_time st = clock 0%nat ->
  exists st',
    generation clock self lg st = (Return Next, st') /\
    on_plateau clock b0 s0 c0 0 st' /\
    scored st' = _pop_size self /\
    generations st' = generations st + 1.
Proof.
  intros Hd Hb He Hsc Hu Ht0. rewrite generation_eq by assumption.
  destruct (Z.to_nat (_pop_size self)) as [|n] eqn:Hn; [lia|].
  rewrite for_range_S, draw_eq by assumption.
  destruct (drawn_first (generation_entry lg st))
    as (st1 & -> & P1 & S1 & G1 & X1);
    try (unfold scored, updates, generation_entry, logged in *; cbn;
         rewrite ?count_snoc; cbn; first [assumption|lia]).
  destruct (for_range_plateau 0 n st1 P1) as (st2 & -> & P2 & S2 & G2 & X2);
    [lia|nia|].
  unfold generation_exit. rewrite X2, X1.
  destruct (exit_plateau 0 st2 P2) as (P3 & S3 & G3).
  eexists. split; [reflexivity|]. split; [assumption|].
  unfold generations, generation_entry, logged in *. cbn in *.
  rewrite !count_snoc in *. cbn in *. split; lia.
Qed.

Lemma while_loop_plateau m : forall fuel j st,
  on_plateau clock b0 s0 c0 j st -> 0 <= j -> j + Z.of_nat m = N ->
  scored st + Z.of_nat m * _pop_size self + 1 <= ((N + 1) * _pop_size self + 1) ->
  0 <= scored st ->
  (m < fuel)%nat ->
  exists st',
    while_loop fuel budget_left (generation clock self lg) st
      = (Return tt, st') /\
    on_plateau clock b0 s0 c0 (N + 1) st' /\
    scored st' = scored st + Z.of_nat m * _pop_size self + 1 /\
    generations st' = generations st + Z.of_nat m + 1.
Proof.
  induction m as [|m IH]; intros fuel j st Hp Hj Hm Hsc Hs0' Hf;
    (destruct fuel as [|fuel]; [lia|]); rewrite while_loop_S;
    rewrite (budget_still_positive j st Hp) by nia.
  - replace j with N in * by lia.
    destruct (generation_last st Hp) as (st1 & -> & P1 & S1 & G1); [lia|].
    exists st1. repeat split; try apply P1; lia.
  - destruct (generation_plateau j st Hp) as (st1 & -> & P1 & S1 & G1);
      [lia|nia|].
    destruct (IH fuel (j + 1) st1 P1) as (st' & -> & P2 & S2 & G2);
      try lia; try nia.
    exists st'. split; [reflexivity|]. split; [assumption|]. split; nia.
Qed.

Lemma search_plateau fuel h :
  (Z.to_nat N + 1 < fuel)%nat ->
  exists st',
    search clock self lg fuel b0 (enter h)
      = (Return (Some s0, Some c0), st') /\
    generations st' = N + 2 /\
    scored st' = (N + 1) * _pop_size self + 1 /\
    updates st' = 1 /\
    no_improvement st' = N + 1 /\
    budget_pos (evaluations st') = true.
Proof.
  intros Hf. rewrite search_eq by assumption.
  destruct fuel as [|fuel]; [lia|]. rewrite while_loop_S.
  assert (Hb0 : budget_pos b0 = true).
  { unfold outlasts in Hroom. destruct b0 as [r|]; cbn; [|reflexivity].
    apply Z.ltb_lt. nia. }
  replace (budget_pos (evaluations (search_entry clock lg b0 (enter h))))
    with true by (symmetry; exact Hb0).
  destruct (generation_first (search_entry clock lg b0 (enter h)))
    as (st1 & -> & P1 & S1 & G1); try reflexivity.
  destruct (while_loop_plateau (Z.to_nat N) fuel 0 st1 P1)
    as (st2 & -> & P2 & S2 & G2); try lia;
    try (rewrite Z2Nat.id by lia; nia).
  rewrite Z2Nat.id in * by lia.
  unfold search_exit.
  destruct P2 as (Hb & Hbs & Hd & Hj & He & Hu & Ht0 & Hds). rewrite Hb, Hbs.
  eexists. split; [reflexivity|].
  assert (Hbp : budget_pos (evaluations st2) = true).
  { rewrite He, S2, S1. unfold outlasts in Hroom.
    destruct b0 as [r|]; cbn; [|reflexivity]. apply Z.ltb_lt. nia. }
  unfold generations, scored, updates, search_entry, logged in *. cbn in *.
  rewrite !count_snoc in *. unfold count in *. cbn in *.
  split; [lia|]. split; [nia|]. split; [lia|]. split; [lia|exact Hbp].
Qed.
End Plateau.




(** ** The constructor *)

(** C10, as amended.  With both [generator_fn] and [fitness_fn] absent the
    constructor raises ValueError.  With [generator_fn] given it returns an
    instance, whose fitness function is [fitness_fn] or, when that is
    absent, the identity -- wrapped by RestrictedWorkerByJoin when a limit is
    positive.  With only [fitness_fn] given the constructor calls
    [_build_sampler]: in [SearchAlgorithm] itself that raises
    NotImplementedError; where a subclass returns a sampler, that sampler
    becomes the generator. *)
Theorem construction_needs_a_generator
    (Sol Sampler : Type)
    (RestrictedWorkerByJoin : fitness_t Sol -> Z -> Z -> fitness_t Sol)
    (call_sampler : Sampler -> generator_t Sol Sampler)
    (number_of : Sol -> Q)
    (build_sampler : nat -> outcome Sampler)
    (g : generator_t Sol Sampler) (f : fitness_t Sol) (sampler : Sampler)
    (pop_size : Z) (maximize : bool) (errors : string)
    (early_stop : option Z) (evaluation_timeout memory_limit : Z)
    (search_timeout : Z) :
  let init := __init__ Sol Sampler RestrictedWorkerByJoin call_sampler
                       number_of in
  let limited (fn : fitness_t Sol) :=
    if (0 <? evaluation_timeout) || (0 <? memory_limit)
    then RestrictedWorkerByJoin fn evaluation_timeout memory_limit else fn in
  let instance gen fn :=
    mkSearchAlgorithm build_sampler gen (limited fn) pop_size maximize errors
                      evaluation_timeout memory_limit early_stop
                      search_timeout in
  init build_sampler None None pop_size maximize errors early_stop
       evaluation_timeout memory_limit search_timeout
  = Raise (ValueError
             "You must provide either `generator_fn` or `fitness_fn`") /\
  init build_sampler (Some g) None pop_size maximize errors early_stop
       evaluation_timeout memory_limit search_timeout
  = Return (instance g (lambda_identity Sol number_of)) /\
  init build_sampler (Some g) (Some f) pop_size maximize errors early_stop
       evaluation_timeout memory_limit search_timeout
  = Return (instance g f) /\
  init (base_build_sampler Sampler) None (Some f) pop_size maximize errors early_stop
       evaluation_timeout memory_limit search_timeout
  = Raise NotImplementedError /\
  init (fun _ => Return sampler) None (Some f) pop_size maximize errors
       early_stop evaluation_timeout memory_limit search_timeout
  = Return (mkSearchAlgorithm (fun _ => Return sampler) (call_sampler sampler)
              (limited f) pop_size maximize errors evaluation_timeout
              memory_limit early_stop search_timeout).
Proof.
  cbn zeta. unfold __init__, base_build_sampler.
  repeat split; reflexivity.
Qed.

(** C10 as stated fails: [SearchAlgorithm(fitness_fn=f)] does not succeed,
    the base class has no sampler to build. *)
Lemma fitness_alone_is_not_enough :
  __init__ nat unit (fun fn _ _ => fn) (fun _ => counting_generator)
           (fun n => inject_Z (Z.of_nat n))
           (base_build_sampler unit) None (Some (constant_fitness 1))
           1 true "raise" None 300 4294967296 3600
  = Raise NotImplementedError.
Proof. reflexivity. Qed.

(** C7, as amended.  The constructor checks nothing but the presence of
    [generator_fn] or [fitness_fn]: whether it returns an instance does not
    depend on the population size, the two timeouts or the memory limit, and
    the instance it returns stores those values as given. *)
Theorem construction_does_not_validate_numbers
    (Sol Sampler : Type)
    (RestrictedWorkerByJoin : fitness_t Sol -> Z -> Z -> fitness_t Sol)
    (call_sampler : Sampler -> generator_t Sol Sampler)
    (number_of : Sol -> Q)
    (build_sampler : nat -> outcome Sampler)
    (generator_fn : option (generator_t Sol Sampler))
    (fitness_fn : option (fitness_t Sol))
    (maximize : bool) (errors : string) (early_stop : option Z)
    (pop_size evaluation_timeout memory_limit search_timeout : Z)
    (pop_size' evaluation_timeout' memory_limit' search_timeout' : Z) :
  let init := __init__ Sol Sampler RestrictedWorkerByJoin call_sampler
                       number_of build_sampler generator_fn fitness_fn in
  (returns (init pop_size maximize errors early_stop
                 evaluation_timeout memory_limit search_timeout) <->
   returns (init pop_size' maximize errors early_stop
                 evaluation_timeout' memory_limit' search_timeout')) /\
  match init pop_size maximize errors early_stop
             evaluation_timeout memory_limit search_timeout with
  | Return self =>
      _pop_size self = pop_size /\
      _evaluation_timeout self = evaluation_timeout /\
      _memory_limit self = memory_limit /\
      _search_timeout self = search_timeout
  | Raise _ => True
  | Diverge => True
  end.
Proof.
  cbn zeta. unfold __init__, returns.
  destruct generator_fn as [g|], fitness_fn as [f|];
    try destruct (build_sampler 0%nat) as [s|e|]; cbn;
    repeat split; try reflexivity; try (intros _; eexists; reflexivity);
    intros [a Ha]; discriminate.
Qed.

(** C7 as stated fails: an empty population, a negative evaluation timeout,
    a negative memory limit and a negative search timeout are all accepted. *)
Lemma construction_accepts_empty_population :
  __init__ nat unit (fun fn _ _ => fn) (fun _ => counting_generator)
           (fun n => inject_Z (Z.of_nat n))
           (base_build_sampler unit) (Some counting_generator) None
           0 true "raise" None (-1) (-1) (-1)
  = Return (mkSearchAlgorithm (base_build_sampler unit) counting_generator
              (lambda_identity nat (fun n => inject_Z (Z.of_nat n)))
              0 true "raise" (-1) (-1) None (-1)).
Proof. reflexivity. Qed.

(** ** MemoryLogger *)

(** C8, as amended.  Two generations of two candidates under MemoryLogger,
    with fitness 1, 2 in the first and 3 and a tolerated failure in the
    second: the means recorded are 3/2 and 3/2 (the failure counts as 0),
    and [generation_best_fn] is [2; 3; 3] -- the best at the end of each of
    the two generations, followed by the entry carried over for the
    generation to come.  The mean recorded for a generation without fitness
    values is 0. *)
Theorem memory_logger_scenario :
  let r := run clock0 2 (engine two_generations 2 true "continue" None 0)
               (Some 4) (Some (logger_obj (MemoryLogger nat))) MemoryLogger_init in
  fst r = Return (Some 2%nat, Some 3%Q) /\
  generation_mean_fn (heap (snd r)) = [3 # 2; 3 # 2]%Q /\
  generation_best_fn (heap (snd r)) = [2%Q; 3%Q; 3%Q] /\
  (forall self : MemoryLogger_obj,
     generation_mean_fn
       (snd (MemoryLogger nat (ev_finish_generation []) self))
     = generation_mean_fn self ++ [0%Q]).
Proof.
  cbn zeta. split; [vm_compute; reflexivity|].
  split; [vm_compute; reflexivity|].
  split; [vm_compute; reflexivity|].
  intros self. cbn. unfold MemoryLogger_finish_generation. cbn.
  destruct (last_item (generation_best_fn self)); reflexivity.
Qed.

(** C8 as stated fails on the best-so-far series: the list recorded after
    the two generations has three entries, not two. *)
Lemma memory_logger_keeps_a_trailing_entry :
  let r := run clock0 2 (engine two_generations 2 true "continue" None 0)
               (Some 4) (Some (logger_obj (MemoryLogger nat))) MemoryLogger_init in
  generation_best_fn (heap (snd r)) <> [2%Q; 3%Q].
Proof. vm_compute. discriminate. Qed.

(** ** MultiLogger *)

Section Dispatch.
Variables (Sol Sampler : Type).

Lemma MultiLogger_two (H : Type) (A B : logger_t Sol H) ev h :
  MultiLogger [A; B] ev h =
  match A ev h with
  | (Return _, h1) => B ev h1
  | (Raise e, h1) => (Raise e, h1)
  | (Diverge, h1) => (Diverge, h1)
  end.
Proof.
  unfold MultiLogger. cbn.
  destruct (A ev h) as [[[]|e|] h1]; try reflexivity.
  destruct (B ev h1) as [[[]|e|] h2]; reflexivity.
Qed.

Lemma MultiLogger_never_raises (H : Type) (A B : logger_t Sol H) :
  never_raises A -> never_raises B -> never_raises (MultiLogger [A; B]).
Proof.
  intros HA HB ev h. rewrite MultiLogger_two.
  specialize (HA ev h). destruct (A ev h) as [o h1]. cbn in HA. subst o.
  apply HB.
Qed.

Lemma delivered_two (H : Type) (A B : logger_t Sol H) evs : forall h,
  never_raises A ->
  delivered (MultiLogger [A; B]) evs h =
  fold_left (fun h0 ev => snd (B ev (snd (A ev h0)))) evs h.
Proof.
  unfold delivered. induction evs as [|ev evs IH]; intros h HA;
    [reflexivity|].
  cbn [fold_left]. rewrite IH by assumption. f_equal.
  rewrite MultiLogger_two. specialize (HA ev h).
  destruct (A ev h) as [o h1]. cbn in HA. subst o. reflexivity.
Qed.

Variable clock : nat -> Q.
Variable self : SearchAlgorithm Sol Sampler.

(** The heap is what the hooks made of it, call after call. *)
Lemma search_delivered (H : Type) (lg : logger_t Sol H) fuel b h :
  never_raises lg ->
  let st := snd (search clock self lg fuel b (enter h)) in
  heap st = delivered lg (calls st) h.
Proof.
  intros Htot. cbn zeta.
  apply (search_inv Sol Sampler H clock self lg Htot
           (fun st => heap st = delivered lg (calls st) h)).
  - intros k st HI. exact HI.
  - intros ev st _ _ HI. unfold logged, delivered in *. cbn.
    rewrite fold_left_app. cbn. rewrite <- HI. reflexivity.
  - intros s q st HI. unfold checked, tracked, logged, delivered in *.
    destruct (stops _ _ _), (improves _ _ _); cbn; rewrite !fold_left_app;
      cbn; rewrite <- HI; reflexivity.
  - intros st HI. unfold generation_entry, logged, delivered in *. cbn.
    rewrite fold_left_app. cbn. rewrite <- HI. reflexivity.
  - reflexivity.
Qed.

(** Two runs that differ only in their (well-behaved) loggers make the same
    calls and end the same way. *)
Section SameCalls.
Variables (H1 H2 : Type) (lg1 : logger_t Sol H1) (lg2 : logger_t Sol H2).
Hypothesis Htot1 : never_raises lg1.
Hypothesis Htot2 : never_raises lg2.

Lemma drawn_same st1 st2 :
  locals st1 = locals st2 ->
  fst (drawn clock self lg1 st1) = fst (drawn clock self lg2 st2) /\
  locals (snd (drawn clock self lg1 st1)) =
  locals (snd (drawn clock self lg2 st2)).
Proof.
  intros Hl. same_states st1 st2 Hl.
  unfold drawn. cbn.
  destruct (generated self _) as [s|e|]; cbn;
    [destruct (_fitness_fn self _ s) as [q|e|]; cbn| |];
    unfold checked, tracked, locals, logged; cbn;
    try destruct (improves _ _ _); cbn; unfold stops; cbn;
    split_ifs; cbn; split; reflexivity.
Qed.

Lemma for_range_same n : forall st1 st2,
  locals st1 = locals st2 ->
  fst (for_range n (draw clock self lg1) st1) =
  fst (for_range n (draw clock self lg2) st2) /\
  locals (snd (for_range n (draw clock self lg1) st1)) =
  locals (snd (for_range n (draw clock self lg2) st2)).
Proof.
  induction n as [|n IH]; intros st1 st2 Hl; [split; [reflexivity|exact Hl]|].
  rewrite !for_range_S, !draw_eq by assumption.
  destruct (drawn_same st1 st2 Hl) as [Ho Hs].
  destruct (drawn clock self lg1 st1) as [o1 st1'],
           (drawn clock self lg2 st2) as [o2 st2']. cbn in Ho, Hs. subst o2.
  destruct o1 as [[]|e|]; cbn; auto.
Qed.

Lemma generation_same st1 st2 :
  locals st1 = locals st2 ->
  fst (generation clock self lg1 st1) = fst (generation clock self lg2 st2) /\
  locals (snd (generation clock self lg1 st1)) =
  locals (snd (generation clock self lg2 st2)).
Proof.
  intros Hl. rewrite !generation_eq by assumption.
  assert (He : locals (generation_entry lg1 st1) =
               locals (generation_entry lg2 st2)).
  { same_states st1 st2 Hl. reflexivity. }
  destruct (for_range_same (Z.to_nat (_pop_size self)) _ _ He) as [Ho Hs].
  destruct (for_range _ _ (generation_entry lg1 st1)) as [o1 st1'],
           (for_range _ _ (generation_entry lg2 st2)) as [o2 st2'].
  cbn in Ho, Hs. subst o2.
  destruct o1 as [[]|e|]; cbn; auto.
  same_states st1' st2' Hs. split; reflexivity.
Qed.

Lemma while_loop_same fuel : forall st1 st2,
  locals st1 = locals st2 ->
  fst (while_loop fuel budget_left (generation clock self lg1) st1) =
  fst (while_loop fuel budget_left (generation clock self lg2) st2) /\
  locals (snd (while_loop fuel budget_left (generation clock self lg1) st1)) =
  locals (snd (while_loop fuel budget_left (generation clock self lg2) st2)).
Proof.
  induction fuel as [|fuel IH]; intros st1 st2 Hl.
  - rewrite !while_loop_O.
    assert (He : evaluations st1 = evaluations st2)
      by (unfold locals in Hl; congruence).
    rewrite He. destruct (budget_pos _); split; auto.
  - rewrite !while_loop_S.
    assert (He : evaluations st1 = evaluations st2)
      by (unfold locals in Hl; congruence).
    rewrite He. destruct (budget_pos _); [|split; auto].
    destruct (generation_same st1 st2 Hl) as [Ho Hs].
    destruct (generation clock self lg1 st1) as [o1 st1'],
             (generation clock self lg2 st2) as [o2 st2'].
    cbn in Ho, Hs. subst o2.
    destruct o1 as [[]|e|]; cbn; auto.
Qed.

Lemma search_same fuel b h1 h2 :
  fst (search clock self lg1 fuel b (enter h1)) =
  fst (search clock self lg2 fuel b (enter h2)) /\
  calls (snd (search clock self lg1 fuel b (enter h1))) =
  calls (snd (search clock self lg2 fuel b (enter h2))).
Proof.
  rewrite !search_eq by assumption.
  assert (He : locals (search_entry clock lg1 b (enter h1)) =
               locals (search_entry clock lg2 b (enter h2))) by reflexivity.
  destruct (while_loop_same fuel _ _ He) as [Ho Hs].
  destruct (while_loop fuel _ _ (search_entry clock lg1 b (enter h1)))
    as [o1 st1'],
    (while_loop fuel _ _ (search_entry clock lg2 b (enter h2)))
    as [o2 st2'].
  cbn in Ho, Hs. subst o2. same_states st1' st2' Hs.
  destruct o1 as [[]|e|]; cbn; auto.
  destruct (isinstance_KeyboardInterrupt e); cbn; auto.
Qed.
End SameCalls.
End Dispatch.

(** C9, as amended.  [MultiLogger] built from [A; B] invokes a hook on [A]
    and then, provided that call returned, on [B], with the same arguments;
    an exception raised by [A]'s hook propagates and [B]'s hook is not
    invoked.  When neither logger raises, a run with the list [A; B] ends as
    a run with [A] alone or with [B] alone does, the same calls are made in
    the same order, and the heap is the result of handing each call to [A]
    and then to [B]. *)
Theorem multilogger_dispatch
    (Sol Sampler H : Type) (clock : nat -> Q) (fuel : nat)
    (self : SearchAlgorithm Sol Sampler) (limit : option Z)
    (A B : logger_t Sol H) (h : H)
    (HA : never_raises A) (HB : never_raises B) :
  let both := run clock fuel self limit (Some (logger_list [A; B])) h in
  let alone lg := run clock fuel self limit (Some (logger_obj lg)) h in
  (forall (A' B' : logger_t Sol H) ev h0,
     MultiLogger [A'; B'] ev h0 =
     match A' ev h0 with
     | (Return _, h1) => B' ev h1
     | (Raise e, h1) => (Raise e, h1)
     | (Diverge, h1) => (Diverge, h1)
     end) /\
  fst both = fst (alone A) /\ fst both = fst (alone B) /\
  calls (snd both) = calls (snd (alone A)) /\
  calls (snd both) = calls (snd (alone B)) /\
  heap (snd both) =
    fold_left (fun h0 ev => snd (B ev (snd (A ev h0)))) (calls (snd both)) h.
Proof.
  cbn zeta. unfold run. cbn [default_logger].
  pose proof (MultiLogger_never_raises Sol H A B HA HB) as HAB.
  split; [apply MultiLogger_two|].
  destruct (search_same Sol Sampler clock self H H (MultiLogger [A; B]) A
              HAB HA fuel (default_evaluations limit) h h) as [E1 E2].
  destruct (search_same Sol Sampler clock self H H (MultiLogger [A; B]) B
              HAB HB fuel (default_evaluations limit) h h) as [E3 E4].
  split; [exact E1|]. split; [exact E3|]. split; [exact E2|].
  split; [exact E4|].
  rewrite (search_delivered Sol Sampler clock self H (MultiLogger [A; B])
             fuel (default_evaluations limit) h HAB).
  apply delivered_two. assumption.
Qed.

Lemma multilogger_dispatch_witness :
  let self := engine one_five_two 1 true "raise" None 0 in
  let A := recorder "A" in
  let B := recorder "B" in
  let both := run clock0 3 self (Some 3) (Some (logger_list [A; B])) [] in
  let alone lg := run clock0 3 self (Some 3) (Some (logger_obj lg)) [] in
  (forall (A' B' : logger_t nat (list (string * event nat))) ev h0,
     MultiLogger [A'; B'] ev h0 =
     match A' ev h0 with
     | (Return _, h1) => B' ev h1
     | (Raise e, h1) => (Raise e, h1)
     | (Diverge, h1) => (Diverge, h1)
     end) /\
  fst both = fst (alone A) /\ fst both = fst (alone B) /\
  calls (snd both) = calls (snd (alone A)) /\
  calls (snd both) = calls (snd (alone B)) /\
  heap (snd both) =
    fold_left (fun h0 ev => snd (B ev (snd (A ev h0)))) (calls (snd both)) [].
Proof.
  apply multilogger_dispatch.
  - intros ev h. reflexivity.
  - intros ev h. reflexivity.
Defined.

(** What the two recorders have in their shared log after [begin] and the
    first generation of Scenario 1: every call, first under "A", then under
    "B". *)
Example recorders_alternate :
  let self := engine one_five_two 1 true "raise" None 0 in
  heap (snd (run clock0 1 self (Some 1)
               (Some (logger_list [recorder "A"; recorder "B"])) []))
  = flat_map (fun ev => [("A", ev); ("B", ev)])
      [ev_begin (fin 1); ev_start_generation (fin 1) None;
       ev_sample_solution 0%nat; ev_eval_solution 0%nat 1%Q;
       ev_update_best 0%nat 1%Q None None; ev_finish_generation [1%Q];
       ev_end (Some 0%nat) (Some 1%Q)].
Proof. vm_compute. reflexivity. Qed.

(** C9 as stated fails: when the hook of the first logger raises, the second
    logger is not invoked.  Here the first logger cannot format an unbounded
    budget: [begin] reaches "A" only, and [run] ends there. *)
Lemma multilogger_stops_at_raising_hook :
  let A := formatting_logger "A" in
  let B := recorder "B" in
  let boom := Exception "cannot convert float infinity to integer" in
  let r := run clock0 3 (engine one_five_two 1 true "raise" None 0) None
               (Some (logger_list [A; B])) [] in
  MultiLogger [A; B] (ev_begin inf) [] = (Raise boom, [("A", ev_begin inf)]) /\
  fst r = Raise boom /\
  heap (snd r) = [("A", ev_begin inf)].
Proof. vm_compute. repeat split; reflexivity. Qed.

(** * Further properties of [run] *)

(** ** Properties that depend on how the loops are left *)

Section Outcomes.

Variables (Sol Sampler H : Type) (clock : nat -> Q).
Variable self : SearchAlgorithm Sol Sampler.
Variable lg : logger_t Sol H.
Hypothesis Htot : never_raises lg.

(** [Iw] holds between generations, [If] between the draws of a generation,
    [Iout] when the [for] loop is left, [X e] when [e] escapes, [D] when
    the run does not finish. *)
Variables Iw If Iout D : state Sol H -> Prop.
Variable X : exn -> state Sol H -> Prop.

Hypothesis entry_ok : forall st,
  Iw st -> budget_pos (evaluations st) = true -> If (generation_entry lg st).
Hypothesis drawn_ok : forall st,
  If st ->
  match drawn clock self lg st with
  | (Return Next, st') => If st'
  | (Return Break, st') => Iout st'
  | (Raise e, st') => X e st'
  | (Diverge, st') => D st'
  end.
Hypothesis end_ok : forall st, If st -> Iout st.
Hypothesis fuel_ok : forall st, Iw st -> D st.
Hypothesis exit_ok : forall st,
  Iout st -> Iw (logged lg (ev_finish_generation (fns st)) st).

Lemma for_range_outcome n : forall st,
  If st ->
  match for_range n (draw clock self lg) st with
  | (Return _, st') => Iout st'
  | (Raise e, st') => X e st'
  | (Diverge, st') => D st'
  end.
Proof.
  induction n as [|n IH]; intros st HI.
  - cbn. apply end_ok, HI.
  - rewrite for_range_S, draw_eq by assumption.
    pose proof (drawn_ok st HI) as Hd.
    destruct (drawn clock self lg st) as [[[]|e|] st'];
      first [apply IH; exact Hd | exact Hd].
Qed.

Lemma generation_outcome st :
  Iw st -> budget_pos (evaluations st) = true ->
  match generation clock self lg st with
  | (Return _, st') => Iw st'
  | (Raise e, st') => X e st'
  | (Diverge, st') => D st'
  end.
Proof.
  intros HI Hb. rewrite generation_eq by assumption.
  pose proof (for_range_outcome (Z.to_nat (_pop_size self)) _
                (entry_ok st HI Hb)) as Hf.
  destruct (for_range _ _ _) as [[[]|e|] st']; try exact Hf.
  unfold generation_exit. apply exit_ok, Hf.
Qed.

Lemma while_loop_outcome fuel : forall st,
  Iw st ->
  match while_loop fuel budget_left (generation clock self lg) st with
  | (Return _, st') => Iw st'
  | (Raise e, st') => X e st'
  | (Diverge, st') => D st'
  end.
Proof.
  induction fuel as [|fuel IH]; intros st HI.
  - rewrite while_loop_O. destruct (budget_pos _); [apply fuel_ok, HI|exact HI].
  - rewrite while_loop_S. destruct (budget_pos _) eqn:Hb; [|exact HI].
    pose proof (generation_outcome st HI Hb) as Hg.
    destruct (generation clock self lg st) as [[[]|e|] st'];
      first [apply IH; exact Hg | exact Hg].
Qed.

End Outcomes.

(** ** What [run] raises *)

Section Raises.

Variables (Sol Sampler H : Type) (clock : nat -> Q).
Variable self : SearchAlgorithm Sol Sampler.
Variable lg : logger_t Sol H.
Hypothesis Htot : never_raises lg.

Lemma while_loop_raises fuel st e st' :
  while_loop fuel budget_left (generation clock self lg) st = (Raise e, st') ->
  raised_outside self e /\
  (isinstance_Exception e = true ->
   _errors self = "raise" /\ raised_by_fitness self e).
Proof.
  intros Hw.
  pose proof (while_loop_outcome Sol Sampler H clock self lg Htot
                (fun _ => True) (fun _ => True) (fun _ => True)
                (fun _ => True)
                (fun e _ => raised_outside self e /\
                            (isinstance_Exception e = true ->
                             _errors self = "raise" /\
                             raised_by_fitness self e))) as Hgen.
  specialize (Hgen ltac:(auto)).
  assert (Hd : forall st0 : state Sol H, True ->
     match drawn clock self lg st0 with
     | (Return Next, _) => True
     | (Return Break, _) => True
     | (Raise e0, _) =>
         raised_outside self e0 /\
         (isinstance_Exception e0 = true ->
          _errors self = "raise" /\ raised_by_fitness self e0)
     | (Diverge, _) => True
     end).
  { intros st0 _. unfold drawn.
    destruct (generated self (draws st0)) as [s|e0|] eqn:Hg.
    - destruct (_fitness_fn self (draws st0) s) as [q|e0|] eqn:Hf.
      + unfold checked. destruct (stops _ _ _); exact I.
      + destruct (isinstance_Exception e0) eqn:He0.
        * destruct (String.eqb_spec (_errors self) "raise") as [Hr|Hr].
          -- split; [right; exists (draws st0), s; auto|].
             intros _. split; [assumption|exists (draws st0), s; auto].
          -- unfold checked. destruct (stops _ _ _); exact I.
        * split; [right; exists (draws st0), s; auto|]. congruence.
      + exact I.
    - destruct (isinstance_Exception e0) eqn:He0; [exact I|].
      split; [left; exists (draws st0); assumption|]. congruence.
    - exact I. }
  specialize (Hgen Hd ltac:(auto) ltac:(auto) ltac:(auto) fuel st I).
  rewrite Hw in Hgen. exact Hgen.
Qed.

Lemma search_raises fuel b h e :
  fst (search clock self lg fuel b (enter h)) = Raise e ->
  isinstance_KeyboardInterrupt e = false /\
  raised_outside self e /\
  (isinstance_Exception e = true ->
   _errors self = "raise" /\ raised_by_fitness self e).
Proof.
  rewrite search_eq by assumption.
  destruct (while_loop _ _ _ _) as [[[]|e0|] st'] eqn:Hw; cbn;
    try discriminate.
  destruct (isinstance_KeyboardInterrupt e0) eqn:Hk; cbn; [discriminate|].
  intros He. injection He as <-.
  split; [exact Hk|]. exact (while_loop_raises fuel _ _ _ Hw).
Qed.

End Raises.

(** X1.  With a logger whose hooks return, what leaves [run] is what the
    generator or the fitness function raised and [run] does not handle.  A
    KeyboardInterrupt they raise never leaves [run].  An [Exception] leaves
    [run] only if [errors] is "raise" and the fitness function raised it on
    a candidate the generator returned; under any other error policy only
    exceptions that are not [Exception]s (SystemExit, GeneratorExit) leave
    [run]. *)
Theorem run_raises_only_unhandled_exceptions
    (Sol Sampler H : Type) (clock : nat -> Q) (fuel : nat)
    (self : SearchAlgorithm Sol Sampler) (limit : option Z)
    (logger : option (logger_arg Sol H)) (h : H)
    (Htot : never_raises (default_logger logger)) :
  let r := run clock fuel self limit logger h in
  fst r <> Raise KeyboardInterrupt /\
  (forall e, fst r = Raise e ->
     raised_outside self e /\
     (isinstance_Exception e = true ->
      _errors self = "raise" /\ raised_by_fitness self e)) /\
  (_errors self <> "raise" ->
   forall e, fst r = Raise e -> isinstance_Exception e = false).
Proof.
  cbn zeta. unfold run.
  assert (Hall : forall e,
             fst (search clock self (default_logger logger) fuel
                    (default_evaluations limit) (enter h)) = Raise e ->
             isinstance_KeyboardInterrupt e = false /\
             raised_outside self e /\
             (isinstance_Exception e = true ->
              _errors self = "raise" /\ raised_by_fitness self e))
    by (intros e; apply search_raises; assumption).
  split; [|split].
  - intros Hk. destruct (Hall _ Hk) as [Hki _]. discriminate.
  - intros e He. exact (proj2 (Hall e He)).
  - intros Hne e He. destruct (Hall _ He) as (_ & _ & Hr).
    destruct (isinstance_Exception e); [|reflexivity].
    destruct (Hr eq_refl) as [Hraise _]. contradiction.
Qed.

Lemma run_raises_only_unhandled_exceptions_witness :
  let self := engine (exiting_at 3) 2 true "continue" None 0 in
  let r := run (H := unit) clock0 5 self (Some 5) None tt in
  fst r <> Raise KeyboardInterrupt /\
  (forall e, fst r = Raise e ->
     raised_outside self e /\
     (isinstance_Exception e = true ->
      _errors self = "raise" /\ raised_by_fitness self e)) /\
  (_errors self <> "raise" ->
   forall e, fst r = Raise e -> isinstance_Exception e = false).
Proof.
  apply run_raises_only_unhandled_exceptions.
  intros ev h. reflexivity.
Defined.

(** What leaves [run] in three runs that differ in what the fitness function
    raises at its second call: an interrupt is absorbed, an [Exception]
    leaves under the raise policy only, a SystemExit leaves under either
    policy. *)
Example what_leaves_run :
  let out fitness errors :=
    fst (run (H := unit) clock0 5 (engine fitness 2 true errors None 0)
             (Some 5) None tt) in
  out (interrupted_at 1) "raise" = Return (Some 0%nat, Some 0%Q) /\
  out (failing_at 1) "raise" = Raise (Exception "boom") /\
  returns (out (failing_at 1) "continue") /\
  out (exiting_at 1) "raise" = Raise SystemExit /\
  out (exiting_at 1) "continue" = Raise SystemExit.
Proof.
  vm_compute. repeat split; try reflexivity. eexists; reflexivity.
Qed.

(** ** At most [evaluations] attempts *)

Section AtMost.

Variables (Sol Sampler H : Type) (clock : nat -> Q).
Variable self : SearchAlgorithm Sol Sampler.
Variable lg : logger_t Sol H.
Variable E : Z.
Hypothesis Htot : never_raises lg.

Lemma attempts_logged ev (st : state Sol H) :
  attempts (logged lg ev st) =
  attempts st + (if is_sample_solution ev then 1 else 0).
Proof.
  unfold attempts, logged. cbn. rewrite count_snoc.
  destruct (is_sample_solution ev); lia.
Qed.

Lemma scored_logged ev (st : state Sol H) :
  scored (logged lg ev st) =
  scored st + (if is_eval_solution ev then 1 else 0).
Proof.
  unfold scored, logged. cbn. rewrite count_snoc.
  destruct (is_eval_solution ev); lia.
Qed.

Lemma while_loop_at_most fuel st :
  attempts st = scored st -> evaluations st = fin (E - scored st) ->
  scored st <= Z.max E 0 ->
  attempts (snd (while_loop fuel budget_left (generation clock self lg) st))
  <= Z.max E 0.
Proof.
  intros Ha He Hs.
  pose proof (while_loop_outcome Sol Sampler H clock self lg Htot
    (fun st => attempts st = scored st /\
               evaluations st = fin (E - scored st) /\
               scored st <= Z.max E 0)
    (fun st => attempts st = scored st /\
               evaluations st = fin (E - scored st) /\ scored st < E)
    (fun st => attempts st = scored st /\
               evaluations st = fin (E - scored st) /\
               scored st <= Z.max E 0)
    (fun st => attempts st <= Z.max E 0)
    (fun _ st => attempts st <= Z.max E 0)) as Hgen.
  assert (Hgoal : forall (o : outcome unit) (st' : state Sol H),
    match o with
    | Return _ => attempts st' = scored st' /\
                  evaluations st' = fin (E - scored st') /\
                  scored st' <= Z.max E 0
    | Raise _ => attempts st' <= Z.max E 0
    | Diverge => attempts st' <= Z.max E 0
    end -> attempts st' <= Z.max E 0).
  { intros [[]|e|] st'; [intros (A & _ & B); lia|auto|auto]. }
  match type of Hgen with
  | ?A -> ?B -> ?C -> ?D' -> ?F -> _ =>
      assert (H1 : A); [|assert (H2 : B); [|assert (H3 : C);
        [|assert (H4 : D'); [|assert (H5 : F)]]]]
  end.
  - intros st0 (A & B & C) Hb. rewrite B in Hb. cbn in Hb.
    apply Z.ltb_lt in Hb. unfold generation_entry.
    change (evaluations _) with (evaluations st0).
    change (attempts _)
      with (attempts (logged lg (ev_start_generation (evaluations st0)
                                   (best_fn st0)) st0)).
    change (scored _)
      with (scored (logged lg (ev_start_generation (evaluations st0)
                                 (best_fn st0)) st0)).
    rewrite attempts_logged, scored_logged. cbn. rewrite !Z.add_0_r.
    split; [assumption|]. split; [assumption|]. lia.
  - intros st0 (A & B & C). unfold drawn.
    assert (Hscore : forall s q (st1 : state Sol H),
      attempts st1 = scored st1 + 1 ->
      evaluations st1 = fin (E - scored st1) -> scored st1 < E ->
      match checked clock self (tracked self lg s q st1) with
      | (Return Next, st') =>
          attempts st' = scored st' /\
          evaluations st' = fin (E - scored st') /\ scored st' < E
      | (Return Break, st') =>
          attempts st' = scored st' /\
          evaluations st' = fin (E - scored st') /\
          scored st' <= Z.max E 0
      | (Raise _, st') => attempts st' <= Z.max E 0
      | (Diverge, st') => attempts st' <= Z.max E 0
      end).
    { intros s q st1 A1 B1 C1. unfold checked.
      assert (Hev : evaluations (tracked self lg s q st1)
                    = fin (E - scored st1)).
      { unfold tracked, logged. destruct (improves _ _ _); cbn; exact B1. }
      assert (Hsc : scored (tracked self lg s q st1) = scored st1 + 1).
      { unfold tracked, logged, scored.
        destruct (improves _ _ _); cbn; rewrite !count_snoc; cbn; lia. }
      assert (Hat : attempts (tracked self lg s q st1) = attempts st1).
      { unfold tracked, logged, attempts.
        destruct (improves _ _ _); cbn; rewrite !count_snoc; cbn; lia. }
      destruct (stops clock self (tracked self lg s q st1)) eqn:Hst.
      - unfold attempts, scored in *. cbn.
        split; [lia|]. split; [rewrite Hev; cbn; f_equal; lia|lia].
      - unfold stops in Hst. rewrite Hev in Hst. cbn in Hst.
        apply orb_false_iff in Hst. destruct Hst as [Hst _].
        apply orb_false_iff in Hst. destruct Hst as [Hst _].
        apply Z.leb_gt in Hst.
        unfold attempts, scored in *. cbn.
        split; [lia|]. split; [rewrite Hev; cbn; f_equal; lia|lia]. }
    assert (Hsample : forall s,
      let st1 := logged lg (ev_sample_solution s)
                   (set_draws (S (draws st0)) st0) in
      attempts st1 = scored st1 + 1 /\
      evaluations st1 = fin (E - scored st1) /\ scored st1 < E).
    { intros s. cbn zeta. rewrite attempts_logged, scored_logged.
      cbn [is_sample_solution is_eval_solution].
      change (attempts (set_draws (S (draws st0)) st0)) with (attempts st0).
      change (scored (set_draws (S (draws st0)) st0)) with (scored st0).
      change (evaluations (logged lg (ev_sample_solution s)
                             (set_draws (S (draws st0)) st0)))
        with (evaluations st0).
      rewrite Z.add_0_r. split; [lia|]. split; [assumption|lia]. }
    assert (Herror : forall e0 (st1 : state Sol H),
      attempts st1 = scored st1 + 1 /\
      evaluations st1 = fin (E - scored st1) /\ scored st1 < E ->
      let st2 := logged lg e0 st1 in
      is_sample_solution e0 = false -> is_eval_solution e0 = false ->
      attempts st2 = scored st2 + 1 /\
      evaluations st2 = fin (E - scored st2) /\ scored st2 < E).
    { intros e0 st1 (A1 & B1 & C1) st2 N1 N2. subst st2.
      rewrite attempts_logged, scored_logged, N1, N2, !Z.add_0_r.
      auto. }
    destruct (generated self (draws st0)) as [s|e0|].
    + destruct (Hsample s) as (A1 & B1 & C1).
      destruct (_fitness_fn self (draws st0) s) as [q|e0|].
      * apply Hscore; assumption.
      * destruct (isinstance_Exception e0).
        -- destruct (Herror (ev_error (err_exn e0) (Some s)) _
                       (conj A1 (conj B1 C1)) eq_refl eq_refl)
             as (A2 & B2 & C2).
           destruct (_errors self =? "raise")%string.
           ++ rewrite attempts_logged. cbn [is_sample_solution]. lia.
           ++ apply Hscore; assumption.
        -- lia.
      * lia.
    + destruct (isinstance_Exception e0).
      * rewrite attempts_logged, scored_logged.
        cbn [is_sample_solution is_eval_solution].
        change (attempts (set_draws (S (draws st0)) st0)) with (attempts st0).
        change (scored (set_draws (S (draws st0)) st0)) with (scored st0).
        rewrite !Z.add_0_r. auto.
      * change (attempts (set_draws (S (draws st0)) st0)) with (attempts st0).
        lia.
    + change (attempts (set_draws (S (draws st0)) st0)) with (attempts st0).
      lia.
  - intros st0 (A & B & C). split; [assumption|]. split; [assumption|]. lia.
  - intros st0 (A & B & C). lia.
  - intros st0 (A & B & C).
    change (evaluations _) with (evaluations st0).
    rewrite attempts_logged, scored_logged. cbn. rewrite !Z.add_0_r.
    split; [assumption|]. split; [assumption|]. lia.
  - specialize (Hgen H1 H2 H3 H4 H5 fuel st (conj Ha (conj He Hs))).
    destruct (while_loop _ _ _ _) as [o st']. apply (Hgoal o). exact Hgen.
Qed.

End AtMost.

(** X2.  [run] performs at most [evaluations] evaluation attempts, as its
    docstring says: with a finite budget [E], the number of
    [sample_solution] calls never exceeds [E] (0 when [E] is negative),
    whatever the generator, the fitness function and the clock do and
    however the run ends. *)
Theorem run_attempts_at_most_budget
    (Sol Sampler H : Type) (clock : nat -> Q) (fuel : nat)
    (self : SearchAlgorithm Sol Sampler) (E : Z)
    (logger : option (logger_arg Sol H)) (h : H)
    (Htot : never_raises (default_logger logger)) :
  let r := run clock fuel self (Some E) logger h in
  attempts (snd r) <= Z.max E 0.
Proof.
  cbn zeta. unfold run. cbn [default_evaluations].
  rewrite search_eq by assumption.
  pose proof (while_loop_at_most Sol Sampler H clock self
                (default_logger logger) E Htot fuel
                (search_entry clock (default_logger logger) (fin E) (enter h)))
    as Hw.
  assert (Hle : attempts
                  (snd (while_loop fuel budget_left
                          (generation clock self (default_logger logger))
                          (search_entry clock (default_logger logger)
                             (fin E) (enter h)))) <= Z.max E 0).
  { apply Hw.
    - reflexivity.
    - unfold search_entry, logged, scored, count. cbn. f_equal. lia.
    - unfold search_entry, logged, scored, count. cbn. lia. }
  destruct (while_loop _ _ _ _) as [[[]|e|] st']; cbn [fst snd] in *.
  - unfold search_exit. cbn [snd]. rewrite attempts_logged. cbn. lia.
  - destruct (isinstance_KeyboardInterrupt e); [|exact Hle].
    unfold search_exit. cbn [snd]. rewrite attempts_logged. cbn. lia.
  - exact Hle.
Qed.

Lemma run_attempts_at_most_budget_witness :
  let r := run (H := unit) clock0 9
               (engine (failing_at 1) 2 true "continue" None 0)
               (Some 3) None tt in
  attempts (snd r) <= Z.max 3 0.
Proof.
  apply run_attempts_at_most_budget.
  intros ev h. reflexivity.
Defined.

(** ** Generations are closed, unless an exception cuts one short *)

Section Balanced.

Variables (Sol Sampler H : Type) (clock : nat -> Q).
Variable self : SearchAlgorithm Sol Sampler.
Variable lg : logger_t Sol H.
Hypothesis Htot : never_raises lg.

(** A draw makes no call of a kind [p] that is none of its own. *)
Lemma drawn_keeps (p : event Sol -> bool) st :
  (forall s, p (ev_sample_solution s) = false) ->
  (forall s q, p (ev_eval_solution s q) = false) ->
  (forall e s, p (ev_error e s) = false) ->
  (forall s q b f, p (ev_update_best s q b f) = false) ->
  (forall b f, p (ev_end b f) = false) ->
  count p (calls (snd (drawn clock self lg st))) = count p (calls st).
Proof.
  intros P1 P2 P3 P4 P5. unfold drawn.
  destruct (generated self (draws st)) as [s|e|];
    [destruct (_fitness_fn self (draws st) s) as [q|e|]| |];
    unfold checked, tracked, logged; split_ifs; cbn;
    rewrite ?count_snoc, ?P1, ?P2, ?P3, ?P4, ?P5, ?Nat.add_0_r; reflexivity.
Qed.

Lemma while_loop_balanced fuel st :
  generations st = finishes st ->
  match while_loop fuel budget_left (generation clock self lg) st with
  | (Return _, st') => generations st' = finishes st'
  | (Raise _, st') => generations st' = finishes st' + 1
  | (Diverge, st') => finishes st' <= generations st' <= finishes st' + 1
  end.
Proof.
  intros Hb.
  apply (while_loop_outcome Sol Sampler H clock self lg Htot
    (fun st => generations st = finishes st)
    (fun st => generations st = finishes st + 1)
    (fun st => generations st = finishes st + 1)
    (fun st => finishes st <= generations st <= finishes st + 1)
    (fun _ st => generations st = finishes st + 1)); try assumption.
  - intros st0 Hg _. unfold generations, finishes, generation_entry, logged
      in *. cbn. rewrite !count_snoc. cbn. lia.
  - intros st0 Hg.
    pose proof (drawn_keeps is_start_generation st0) as K1.
    pose proof (drawn_keeps is_finish_generation st0) as K2.
    specialize (K1 ltac:(reflexivity) ltac:(reflexivity) ltac:(reflexivity)
                   ltac:(reflexivity) ltac:(reflexivity)).
    specialize (K2 ltac:(reflexivity) ltac:(reflexivity) ltac:(reflexivity)
                   ltac:(reflexivity) ltac:(reflexivity)).
    unfold generations, finishes in *.
    destruct (drawn clock self lg st0) as [[[]|e|] st']; cbn [snd] in *;
      lia.
  - intros st0 Hg. exact Hg.
  - intros st0 Hg. lia.
  - intros st0 Hg. unfold generations, finishes, logged in *. cbn.
    rewrite !count_snoc. cbn. lia.
Qed.

End Balanced.

(** X3.  [finish_generation] closes every generation that
    [start_generation] opened, except one that an exception cuts short: when
    [run] raises, the last generation was opened and not closed; in every
    case at most one generation is left open; and when neither the generator
    nor the fitness function is interrupted, a run that returns has closed
    all its generations. *)
Theorem generations_are_closed
    (Sol Sampler H : Type) (clock : nat -> Q) (fuel : nat)
    (self : SearchAlgorithm Sol Sampler) (limit : option Z)
    (logger : option (logger_arg Sol H)) (h : H)
    (Htot : never_raises (default_logger logger)) :
  let r := run clock fuel self limit logger h in
  finishes (snd r) <= generations (snd r) <= finishes (snd r) + 1 /\
  (forall e, fst r = Raise e -> generations (snd r) = finishes (snd r) + 1) /\
  (never_interrupted self -> returns (fst r) ->
   generations (snd r) = finishes (snd r)).
Proof.
  cbn zeta. unfold run. rewrite search_eq by assumption.
  pose proof (while_loop_balanced Sol Sampler H clock self
                (default_logger logger) Htot fuel
                (search_entry clock (default_logger logger)
                   (default_evaluations limit) (enter h)) eq_refl) as Hw.
  pose proof (while_loop_raises Sol Sampler H clock self
                (default_logger logger) Htot fuel
                (search_entry clock (default_logger logger)
                   (default_evaluations limit) (enter h))) as Hr.
  destruct (while_loop _ _ _ _) as [[[]|e|] st'].
  - unfold search_exit, generations, finishes, logged in *. cbn.
    rewrite !count_snoc. cbn.
    split; [lia|]. split; [discriminate|]. intros _ _. lia.
  - destruct (isinstance_KeyboardInterrupt e) eqn:Hk.
    + unfold search_exit, generations, finishes, logged in *. cbn.
      rewrite !count_snoc. cbn.
      split; [lia|]. split; [discriminate|]. intros [Hg Hf] _.
      destruct e; try discriminate.
      destruct (Hr _ _ eq_refl) as [[[k Hk']|(k & s & _ & Hk')] _];
        [elim (Hg k Hk')|elim (Hf k s Hk')].
    + cbn [fst snd]. split; [lia|]. split; [intros; exact Hw|].
      intros _ [a Ha]. discriminate.
  - cbn [fst snd]. split; [exact Hw|]. split; [discriminate|].
    intros _ [a Ha]. discriminate.
Qed.

Lemma generations_are_closed_witness :
  let self := engine (interrupted_at 3) 2 true "raise" None 0 in
  let r := run (H := unit) clock0 9 self None None tt in
  finishes (snd r) <= generations (snd r) <= finishes (snd r) + 1 /\
  (forall e, fst r = Raise e -> generations (snd r) = finishes (snd r) + 1) /\
  (never_interrupted self -> returns (fst r) ->
   generations (snd r) = finishes (snd r)).
Proof.
  apply generations_are_closed.
  intros ev h. reflexivity.
Defined.

(** The interrupted run of the witness returns, with its second generation
    left open. *)
Example interrupted_generation_is_left_open :
  let r := run (H := unit) clock0 9
               (engine (interrupted_at 3) 2 true "raise" None 0)
               None None tt in
  fst r = Return (Some 2%nat, Some 2%Q) /\
  generations (snd r) = 2 /\ finishes (snd r) = 1.
Proof. vm_compute. repeat split; reflexivity. Qed.

(** ** The result is the first unbeaten pair of what was scored *)

Section Optimum.

Variables (Sol Sampler H : Type) (clock : nat -> Q).

Lemma scores_snoc (l : list (event Sol)) ev :
  scores (l ++ [ev]) =
  scores l ++ match ev with ev_eval_solution s q => [(s, q)] | _ => [] end.
Proof.
  induction l as [|a l IH]; cbn.
  - destruct ev; reflexivity.
  - rewrite IH. destruct a; reflexivity.
Qed.

(** The three facts about the comparison of [improves] that the argument
    uses: it is transitive, asymmetric, and does not tell equal numbers
    apart. *)
Lemma improves_trans maximize a b c :
  improves maximize a (Some b) = true -> improves maximize b (Some c) = true ->
  improves maximize a (Some c) = true.
Proof.
  rewrite !improves_better. intros H1 H2.
  exact (better_trans _ _ _ _ H2 H1).
Qed.

Lemma improves_asym maximize a b :
  improves maximize a (Some b) = true -> improves maximize b (Some a) = false.
Proof.
  intros H1. destruct (improves maximize b (Some a)) eqn:H2; [|reflexivity].
  pose proof (improves_trans _ _ _ _ H1 H2) as H3.
  apply improves_better in H3. unfold better in H3.
  destruct maximize; elim (Qlt_irrefl _ H3).
Qed.

Lemma improves_eq maximize a a' b :
  (a == a')%Q -> improves maximize a (Some b) = improves maximize a' (Some b).
Proof.
  intros Heq.
  assert (Hb : better maximize b a <-> better maximize b a').
  { unfold better. destruct maximize; rewrite Heq; reflexivity. }
  destruct (improves maximize a (Some b)) eqn:H1,
           (improves maximize a' (Some b)) eqn:H2; try reflexivity.
  - apply improves_better, Hb, improves_better in H1. congruence.
  - apply improves_better, Hb, improves_better in H2. congruence.
Qed.

(** A fitness that does not improve on the best does not improve on what
    improves on the best either. *)
Lemma still_unbeaten maximize x q q' :
  improves maximize x (Some q) = false ->
  improves maximize q' (Some q) = true ->
  improves maximize x (Some q') = false.
Proof.
  intros Hx Hq. destruct (improves maximize x (Some q')) eqn:Hx';
    [|reflexivity].
  rewrite (improves_trans _ _ _ _ Hx' Hq) in Hx. discriminate.
Qed.

Variable self : SearchAlgorithm Sol Sampler.
Variable lg : logger_t Sol H.
Hypothesis Htot : never_raises lg.

Lemma logged_unbeaten ev (st : state Sol H) :
  is_eval_solution ev = false ->
  first_unbeaten (_maximize self) st ->
  first_unbeaten (_maximize self) (logged lg ev st).
Proof.
  intros Hev HI. unfold first_unbeaten, logged in *. cbn.
  rewrite scores_snoc. destruct ev; try discriminate;
    rewrite app_nil_r; exact HI.
Qed.

Lemma tracked_unbeaten s q (st : state Sol H) :
  first_unbeaten (_maximize self) st ->
  first_unbeaten (_maximize self) (tracked self lg s q st).
Proof.
  intros HI. unfold tracked.
  destruct (improves _ _ _) eqn:Hi; unfold first_unbeaten, logged in *; cbn;
    rewrite !scores_snoc, ?app_nil_r.
  - destruct (best_solution st) as [bs|], (best_fn st) as [b|];
      try contradiction.
    + destruct HI as (l1 & l2 & -> & H1 & H2).
      exists (l1 ++ (bs, b) :: l2), []. split; [reflexivity|].
      rewrite app_nil_r.
      apply Forall_app in H1. destruct H1 as [H1 H1'].
      split; apply Forall_app; split.
      * eapply Forall_impl; [|exact H1]. intros x Hx.
        exact (still_unbeaten _ _ _ _ Hx Hi).
      * constructor; [exact (improves_asym _ _ _ Hi)|].
        eapply Forall_impl; [|exact H1']. intros x Hx.
        exact (still_unbeaten _ _ _ _ Hx Hi).
      * eapply Forall_impl; [|exact H1]. cbv beta. intros x Hx Heq.
        rewrite (improves_eq _ _ _ _ Heq), Hi in Hx. discriminate.
      * constructor.
        -- cbv beta. change (snd (bs, b)) with b. intros Heq.
           pose proof (improves_eq (_maximize self) b q b Heq) as He.
           rewrite Hi in He.
           rewrite (improves_asym _ _ _ He) in He. discriminate.
        -- eapply Forall_impl; [|exact H1']. cbv beta. intros x Hx Heq.
           rewrite (improves_eq _ _ _ _ Heq), Hi in Hx. discriminate.
    + rewrite HI. exists [], []. repeat split; constructor.
  - destruct (best_solution st) as [bs|], (best_fn st) as [b|];
      try contradiction; try discriminate.
    destruct HI as (l1 & l2 & -> & H1 & H2).
    exists l1, (l2 ++ [(s, q)]). split.
    + rewrite <- app_assoc. reflexivity.
    + split; [|exact H2]. rewrite app_assoc.
      apply Forall_app. split; [exact H1|].
      constructor; [exact Hi|constructor].
Qed.

Lemma search_unbeaten fuel b h :
  first_unbeaten (_maximize self)
    (snd (search clock self lg fuel b (enter h))).
Proof.
  apply search_inv; try assumption.
  - intros k st HI. exact HI.
  - intros ev st _ He HI. apply logged_unbeaten; assumption.
  - intros s q st HI. unfold checked.
    destruct (stops _ _ _); exact (tracked_unbeaten s q st HI).
  - intros st HI. unfold generation_entry.
    change (first_unbeaten (_maximize self)
              (logged lg (ev_start_generation (evaluations st) (best_fn st))
                 (set_stop false st))).
    apply logged_unbeaten; [reflexivity|exact HI].
  - reflexivity.
Qed.

End Optimum.

(** X4.  What [run] returns is the pair it kept as best, and that pair is
    the first unbeaten one of those it scored: [(s, q)] is one of the scored
    pairs, no scored fitness improves on [q] by the test [run] applies
    ([>] when maximizing, [<] when minimizing), and no pair scored before
    [(s, q)] has fitness [q] -- among equals the earliest is kept.  Failures
    that the error policy tolerates take part with fitness 0.  The argument
    uses of the comparison only that it is transitive, asymmetric and
    compatible with equality. *)
Theorem run_returns_first_unbeaten
    (Sol Sampler H : Type) (clock : nat -> Q) (fuel : nat)
    (self : SearchAlgorithm Sol Sampler) (limit : option Z)
    (logger : option (logger_arg Sol H)) (h : H)
    (Htot : never_raises (default_logger logger)) :
  let r := run clock fuel self limit logger h in
  (forall best, fst r = Return best ->
     best = (best_solution (snd r), best_fn (snd r))) /\
  match best_solution (snd r), best_fn (snd r) with
  | Some s, Some q =>
      exists l1 l2,
        scores (calls (snd r)) = l1 ++ (s, q) :: l2 /\
        (forall s' q', In (s', q') (l1 ++ l2) ->
           improves (_maximize self) q' (Some q) = false) /\
        (forall s' q', In (s', q') l1 -> ~ (q' == q)%Q)
  | None, None => scores (calls (snd r)) = []
  | _, _ => False
  end.
Proof.
  cbn zeta. unfold run. split.
  - rewrite search_eq by assumption.
    destruct (while_loop _ _ _ _) as [[[]|e|] st']; cbn.
    + intros best Hb. injection Hb as <-. reflexivity.
    + destruct (isinstance_KeyboardInterrupt e); cbn; [|discriminate].
      intros best Hb. injection Hb as <-. reflexivity.
    + discriminate.
  - pose proof (search_unbeaten Sol Sampler H clock self
                  (default_logger logger) Htot fuel
                  (default_evaluations limit) h) as Ho.
    unfold first_unbeaten in Ho.
    destruct (best_solution _) as [s|], (best_fn _) as [q|]; try exact Ho.
    destruct Ho as (l1 & l2 & Hs & H1 & H2).
    exists l1, l2. split; [exact Hs|].
    rewrite Forall_forall in H1, H2. split.
    + intros s' q' Hin. exact (H1 _ Hin).
    + intros s' q' Hin. exact (H2 _ Hin).
Qed.

Lemma run_returns_first_unbeaten_witness :
  let self := engine one_five_two 2 true "raise" None 0 in
  let r := run (H := unit) clock0 9 self (Some 5) None tt in
  (forall best, fst r = Return best ->
     best = (best_solution (snd r), best_fn (snd r))) /\
  match best_solution (snd r), best_fn (snd r) with
  | Some s, Some q =>
      exists l1 l2,
        scores (calls (snd r)) = l1 ++ (s, q) :: l2 /\
        (forall s' q', In (s', q') (l1 ++ l2) ->
           improves (_maximize self) q' (Some q) = false) /\
        (forall s' q', In (s', q') l1 -> ~ (q' == q)%Q)
  | None, None => scores (calls (snd r)) = []
  | _, _ => False
  end.
Proof.
  apply run_returns_first_unbeaten.
  intros ev h. reflexivity.
Defined.

(** In the run of the witness the scores are 1, 5, 2, 2, 2 and the second
    candidate is returned. *)
Example second_of_five_is_kept :
  let r := run (H := unit) clock0 9 (engine one_five_two 2 true "raise" None 0)
               (Some 5) None tt in
  fst r = Return (Some 1%nat, Some 5%Q) /\
  map snd (scores (calls (snd r))) = [1%Q; 5%Q; 2%Q; 2%Q; 2%Q].
Proof. vm_compute. split; reflexivity. Qed.

(** ** A budget that is not positive *)

(** X5.  With a budget that is zero or negative [run] starts no generation
    and calls neither the generator nor the fitness function: the only hooks
    invoked are [begin] and [end(None, None)], and the result is
    [(None, None)]. *)
Theorem run_without_budget
    (Sol Sampler H : Type) (clock : nat -> Q) (fuel : nat)
    (self : SearchAlgorithm Sol Sampler) (E : Z)
    (logger : option (logger_arg Sol H)) (h : H)
    (Htot : never_raises (default_logger logger))
    (HE : E <= 0) :
  let r := run clock fuel self (Some E) logger h in
  fst r = Return (None, None) /\
  calls (snd r) = [ev_begin (fin E); ev_end None None] /\
  draws (snd r) = 0%nat.
Proof.
  cbn zeta. unfold run. cbn [default_evaluations].
  rewrite search_eq by assumption.
  assert (Hw : while_loop fuel budget_left
                 (generation clock self (default_logger logger))
                 (search_entry clock (default_logger logger) (fin E) (enter h))
               = (Return tt,
                  search_entry clock (default_logger logger) (fin E) (enter h))).
  { destruct fuel; [rewrite while_loop_O|rewrite while_loop_S];
      unfold search_entry, logged; cbn;
      destruct (Z.ltb_spec 0 E); try lia; reflexivity. }
  rewrite Hw. unfold search_exit, search_entry, logged. cbn.
  repeat split; reflexivity.
Qed.

Lemma run_without_budget_witness :
  let r := run (H := unit) clock0 0
               (engine always_failing 2 true "raise" None 0)
               (Some (-2)) None tt in
  fst r = Return (None, None) /\
  calls (snd r) = [ev_begin (fin (-2)); ev_end None None] /\
  draws (snd r) = 0%nat.
Proof.
  apply run_without_budget.
  - intros ev h. reflexivity.
  - lia.
Defined.

(** ** Runs that make no progress *)

Section Idle.

Variables (Sol Sampler H : Type) (clock : nat -> Q).
Variable self : SearchAlgorithm Sol Sampler.
Variable lg : logger_t Sol H.
Hypothesis Htot : never_raises lg.
Hypothesis Hidle : _pop_size self <= 0 \/ generator_always_fails self.

Lemma for_range_idle n : forall st,
  (n = 0%nat \/ generator_always_fails self) ->
  exists st',
    for_range n (draw clock self lg) st = (Return tt, st') /\
    evaluations st' = evaluations st /\ stop st' = stop st /\
    attempts st' = attempts st /\ generations st' = generations st /\
    fns st' = fns st.
Proof.
  induction n as [|n IH]; intros st Hn.
  - exists st. repeat split; reflexivity.
  - destruct Hn as [Hn|Hg]; [discriminate|].
    rewrite for_range_S, draw_eq by assumption.
    unfold drawn. destruct (Hg (draws st)) as (e & -> & ->).
    destruct (IH (logged lg
                    (ev_error
                       (err_str ("Error while generating solution: " ++ str e))
                       None)
                    (set_draws (S (draws st)) st)) (or_intror Hg))
      as (st' & -> & A & B & C & D & F).
    exists st'. split; [reflexivity|].
    unfold attempts, generations, logged in *. cbn in *.
    rewrite !count_snoc in *. cbn in *.
    repeat split; try assumption; lia.
Qed.

Lemma generation_idle st :
  exists st',
    generation clock self lg st = (Return Next, st') /\
    evaluations st' = evaluations st /\
    attempts st' = attempts st /\ generations st' = generations st + 1.
Proof.
  rewrite generation_eq by assumption.
  destruct (for_range_idle (Z.to_nat (_pop_size self))
              (generation_entry lg st)) as (st1 & -> & A & B & C & D & F).
  { destruct Hidle as [Hp|Hg]; [left; lia|right; exact Hg]. }
  unfold generation_exit. rewrite B.
  eexists. split; [reflexivity|].
  unfold attempts, generations, generation_entry, logged in *. cbn in *.
  rewrite !count_snoc in *. cbn in *.
  repeat split; try assumption; lia.
Qed.

Lemma while_loop_idle fuel : forall st,
  budget_pos (evaluations st) = true ->
  exists st',
    while_loop fuel budget_left (generation clock self lg) st
      = (Diverge, st') /\
    evaluations st' = evaluations st /\
    attempts st' = attempts st /\
    generations st' = generations st + Z.of_nat fuel.
Proof.
  induction fuel as [|fuel IH]; intros st Hb.
  - rewrite while_loop_O, Hb. exists st. repeat split; lia.
  - rewrite while_loop_S, Hb.
    destruct (generation_idle st) as (st1 & -> & A & B & C).
    destruct (IH st1) as (st' & -> & A' & B' & C'); [congruence|].
    exists st'. split; [reflexivity|]. repeat split; try congruence; lia.
Qed.

End Idle.

(** X6.  The stop tests of [run] are reached only after an evaluation has
    been scored.  With a positive (or unbounded) budget, when the population
    size is zero or negative, or when the generator fails at every draw,
    [run] never ends, whatever [search_timeout] and [early_stop] are: each
    pass of the [while] loop starts one more generation, no evaluation is
    attempted and the budget stays what it was. *)
Theorem run_without_candidates_never_ends
    (Sol Sampler H : Type) (clock : nat -> Q)
    (self : SearchAlgorithm Sol Sampler) (limit : option Z)
    (logger : option (logger_arg Sol H)) (h : H)
    (Htot : never_raises (default_logger logger))
    (Hbudget : budget_pos (default_evaluations limit) = true)
    (Hidle : _pop_size self <= 0 \/ generator_always_fails self) :
  forall fuel,
    let r := run clock fuel self limit logger h in
    fst r = Diverge /\
    attempts (snd r) = 0 /\
    generations (snd r) = Z.of_nat fuel /\
    evaluations (snd r) = default_evaluations limit.
Proof.
  intros fuel. cbn zeta. unfold run. rewrite search_eq by assumption.
  destruct (while_loop_idle Sol Sampler H clock self (default_logger logger)
              Htot Hidle fuel
              (search_entry clock (default_logger logger)
                 (default_evaluations limit) (enter h)) Hbudget)
    as (st' & -> & A & B & C).
  cbn [fst snd]. split; [reflexivity|]. split; [exact B|].
  split; [|exact A]. rewrite C. unfold generations, search_entry, logged.
  unfold count. cbn. lia.
Qed.

Lemma run_without_candidates_never_ends_witness :
  let self := late_engine (constant_fitness 1) 0 "raise" in
  let r := run (H := unit) clock0 3 self (Some 5) None tt in
  fst r = Diverge /\
  attempts (snd r) = 0 /\
  generations (snd r) = 3 /\
  evaluations (snd r) = fin 5.
Proof.
  apply (run_without_candidates_never_ends nat unit unit clock0
           (late_engine (constant_fitness 1) 0 "raise") (Some 5) None tt).
  - intros ev h. reflexivity.
  - reflexivity.
  - left. cbn. lia.
Defined.

(** ** The search timeout *)

Section SearchTimeout.

Variables (Sol Sampler H : Type) (clock : nat -> Q).
Variable self : SearchAlgorithm Sol Sampler.
Variable lg : logger_t Sol H.
Variable b : budget.
Variable m : nat.
Hypothesis Htot : never_raises lg.
Hypothesis Hpop : 1 <= _pop_size self.
Hypothesis Hgen : generator_never_fails self.
Hypothesis Hfit : evaluation_tolerated self.
Hypothesis Hearly : truthy_opt (_early_stop self) = false.
Hypothesis Htime : times_out_at self clock m.
Hypothesis Hroom : outlasts b (Z.of_nat m + 1).

Lemma never_early_stopped n : early_stopped self n = false.
Proof.
  unfold early_stopped. unfold truthy_opt in Hearly.
  destruct (_early_stop self); [rewrite Hearly|]; reflexivity.
Qed.

Lemma budget_in_time d :
  (d <= m)%nat ->
  budget_pos (budget_sub b (Z.of_nat d)) = true /\
  budget_nonpos (budget_pred (budget_sub b (Z.of_nat d))) = false.
Proof.
  intros Hd. destruct b as [r|]; cbn in *; [|split; reflexivity].
  split; [apply Z.ltb_lt|apply Z.leb_gt]; lia.
Qed.

Lemma tracked_in_time d s q (st : state Sol H) :
  (d <= m)%nat ->
  draws st = S d -> scored st = Z.of_nat d -> attempts st = Z.of_nat (S d) ->
  start_time st = clock 0%nat -> evaluations st = budget_sub b (Z.of_nat d) ->
  let res := checked clock self (tracked self lg s q st) in
  fst res = Return (if Nat.eqb d m then Break else Next) /\
  stop (snd res) = (if Nat.eqb d m then true else stop st) /\
  in_time clock b (S d) (snd res).
Proof.
  intros Hd H1 H2 H3 H4 H5. cbn zeta.
  assert (Hstops : stops clock self (tracked self lg s q st) = Nat.eqb d m).
  { unfold stops. 
    replace (evaluations (tracked self lg s q st)) with (evaluations st)
      by (unfold tracked, logged; destruct (improves _ _ _); reflexivity).
    replace (draws (tracked self lg s q st)) with (draws st)
      by (unfold tracked, logged; destruct (improves _ _ _); reflexivity).
    replace (start_time (tracked self lg s q st)) with (start_time st)
      by (unfold tracked, logged; destruct (improves _ _ _); reflexivity).
    rewrite H5, H1, H4, never_early_stopped.
    destruct (budget_in_time d Hd) as [_ ->]. cbn.
    rewrite orb_false_r. destruct Htime as [Hbefore Hat].
    destruct (Nat.eqb_spec d m) as [->|Hne]; [exact Hat|].
    apply Hbefore. lia. }
  unfold checked. rewrite Hstops. unfold in_time.
  unfold tracked, logged, scored, attempts in *.
  destruct (Nat.eqb d m), (improves _ _ _); cbn; rewrite ?count_snoc; cbn;
    rewrite ?H1, ?H4, ?H5;
    (split; [reflexivity|]); (split; [reflexivity|]);
    (split; [reflexivity|]); (split; [lia|]); (split; [lia|]);
    (split; [reflexivity|]);
    destruct b; cbn; try reflexivity; f_equal; lia.
Qed.

Lemma drawn_in_time d (st : state Sol H) :
  (d <= m)%nat -> in_time clock b d st ->
  let res := drawn clock self lg st in
  fst res = Return (if Nat.eqb d m then Break else Next) /\
  stop (snd res) = (if Nat.eqb d m then true else stop st) /\
  in_time clock b (S d) (snd res).
Proof.
  intros Hd (H1 & H2 & H3 & H4 & H5). cbn zeta. unfold drawn.
  rewrite H1. destruct (Hgen d) as [s ->].
  pose proof (Hfit d s) as Hf.
  destruct (_fitness_fn self d s) as [q|e|]; [| |contradiction].
  - refine (tracked_in_time d s q
              (logged lg (ev_sample_solution s) (set_draws (S d) st))
              Hd _ _ _ _ _);
      unfold logged, scored, attempts in *; cbn; rewrite ?count_snoc; cbn;
      try assumption; try reflexivity; lia.
  - destruct Hf as [-> ->].
    refine (tracked_in_time d s 0%Q
              (logged lg (ev_error (err_exn e) (Some s))
                 (logged lg (ev_sample_solution s) (set_draws (S d) st)))
              Hd _ _ _ _ _);
      unfold logged, scored, attempts in *; cbn; rewrite ?count_snoc; cbn;
      try assumption; try reflexivity; lia.
Qed.

Lemma for_range_in_time n : forall d (st : state Sol H),
  (d <= m)%nat -> in_time clock b d st -> stop st = false ->
  exists st',
    for_range n (draw clock self lg) st = (Return tt, st') /\
    (((d + n <= m)%nat /\ in_time clock b (d + n) st' /\ stop st' = false) \/
     ((m < d + n)%nat /\ in_time clock b (S m) st' /\ stop st' = true)).
Proof.
  induction n as [|n IH]; intros d st Hd Hin Hs.
  - exists st. split; [reflexivity|]. left.
    rewrite Nat.add_0_r. repeat split; try assumption; apply Hin.
  - rewrite for_range_S, draw_eq by assumption.
    destruct (drawn_in_time d st Hd Hin) as (G1 & G2 & G3).
    destruct (drawn clock self lg st) as [o st1]. cbn in G1, G2, G3. subst o.
    destruct (Nat.eqb_spec d m) as [->|Hne].
    + exists st1. split; [reflexivity|]. right.
      split; [lia|]. split; assumption.
    + destruct (IH (S d) st1) as (st' & -> & G); [lia|assumption|congruence|].
      exists st'. split; [reflexivity|].
      replace (d + S n)%nat with (S d + n)%nat by lia. exact G.
Qed.

Lemma logged_in_time ev d (st : state Sol H) :
  is_sample_solution ev = false -> is_eval_solution ev = false ->
  in_time clock b d st -> in_time clock b d (logged lg ev st).
Proof.
  intros Ha Hb (H1 & H2 & H3 & H4 & H5).
  unfold in_time, logged, scored, attempts in *. cbn.
  rewrite !count_snoc, Ha, Hb, !Nat.add_0_r. repeat split; assumption.
Qed.

Lemma generation_in_time d (st : state Sol H) :
  (d <= m)%nat -> in_time clock b d st ->
  exists st',
    (exists d', (d < d' <= m)%nat /\
       generation clock self lg st = (Return Next, st') /\
       in_time clock b d' st') \/
    (generation clock self lg st = (Return Break, st') /\
     in_time clock b (S m) st').
Proof.
  intros Hd Hin. rewrite generation_eq by assumption.
  destruct (for_range_in_time (Z.to_nat (_pop_size self)) d
              (generation_entry lg st) Hd) as (st1 & -> & G).
  { unfold generation_entry.
    destruct (logged_in_time (ev_start_generation (evaluations st) (best_fn st))
                d (set_stop false st) eq_refl eq_refl) as (A & B & C & D & F).
    { exact Hin. }
    repeat split; assumption. }
  { reflexivity. }
  unfold generation_exit.
  exists (logged lg (ev_finish_generation (fns st1)) st1).
  destruct G as [(G1 & G2 & ->)|(G1 & G2 & ->)].
  - left. exists (d + Z.to_nat (_pop_size self))%nat.
    split; [lia|]. split; [reflexivity|].
    apply logged_in_time; [reflexivity|reflexivity|assumption].
  - right. split; [reflexivity|].
    apply logged_in_time; [reflexivity|reflexivity|assumption].
Qed.

Lemma while_loop_in_time fuel : forall d (st : state Sol H),
  (d <= m)%nat -> (m < d + fuel)%nat -> in_time clock b d st ->
  exists st',
    while_loop fuel budget_left (generation clock self lg) st
      = (Return tt, st') /\
    in_time clock b (S m) st'.
Proof.
  induction fuel as [|fuel IH]; intros d st Hd Hf Hin; [lia|].
  rewrite while_loop_S.
  replace (budget_pos (evaluations st)) with true.
  2:{ destruct Hin as (_ & _ & _ & _ & ->). symmetry.
      apply (budget_in_time d Hd). }
  destruct (generation_in_time d st Hd Hin)
    as (st1 & [(d' & Hd' & -> & G)|(-> & G)]).
  - apply (IH d' st1); [lia|lia|assumption].
  - exists st1. split; [reflexivity|assumption].
Qed.

Lemma search_in_time fuel h :
  (m < fuel)%nat ->
  let res := search clock self lg fuel b (enter h) in
  returns (fst res) /\ in_time clock b (S m) (snd res).
Proof.
  intros Hf. cbn zeta. rewrite search_eq by assumption.
  destruct (while_loop_in_time fuel 0%nat
              (search_entry clock lg b (enter h))) as (st' & -> & G);
    [lia|lia| |].
  { unfold in_time, search_entry, logged, scored, attempts, count. cbn.
    repeat split. destruct b; cbn; [f_equal; lia|reflexivity]. }
  unfold search_exit. cbn [fst snd]. split; [eexists; reflexivity|].
  apply logged_in_time; [reflexivity|reflexivity|assumption].
Qed.

End SearchTimeout.

(** X7.  The search timeout is tested once after each scored evaluation,
    against the time spent since [begin] returned.  With a population of at
    least one, a generator that never fails, no evaluation failing fatally,
    no early stop and a budget that is not exhausted first, if the time spent
    first exceeds [search_timeout] after draw [m], then [run] returns after
    exactly [m + 1] draws, each of them attempted and scored, and leaves the
    rest of the budget unspent. *)
Theorem run_stops_at_search_timeout
    (Sol Sampler H : Type) (clock : nat -> Q) (fuel : nat)
    (self : SearchAlgorithm Sol Sampler) (limit : option Z)
    (logger : option (logger_arg Sol H)) (h : H) (m : nat)
    (Htot : never_raises (default_logger logger))
    (Hpop : 1 <= _pop_size self)
    (Hgen : generator_never_fails self)
    (Hfit : evaluation_tolerated self)
    (Hearly : truthy_opt (_early_stop self) = false)
    (Htime : times_out_at self clock m)
    (Hroom : outlasts (default_evaluations limit) (Z.of_nat m + 1))
    (Hfuel : (m < fuel)%nat) :
  let r := run clock fuel self limit logger h in
  returns (fst r) /\
  draws (snd r) = S m /\
  attempts (snd r) = Z.of_nat m + 1 /\
  scored (snd r) = Z.of_nat m + 1 /\
  evaluations (snd r)
    = budget_sub (default_evaluations limit) (Z.of_nat m + 1) /\
  budget_pos (evaluations (snd r)) = true.
Proof.
  cbn zeta. unfold run.
  destruct (search_in_time Sol Sampler H clock self (default_logger logger)
              (default_evaluations limit) m Htot Hpop Hgen Hfit Hearly Htime
              Hroom fuel h Hfuel) as (G & G1 & G2 & G3 & _ & G5).
  split; [exact G|]. split; [exact G1|].
  split; [rewrite G3; lia|]. split; [rewrite G2; lia|].
  rewrite G5. replace (Z.of_nat (S m)) with (Z.of_nat m + 1) by lia.
  split; [reflexivity|].
  destruct (default_evaluations limit); cbn in *; [apply Z.ltb_lt; lia|reflexivity].
Qed.

Lemma run_stops_at_search_timeout_witness :
  let self := engine (constant_fitness 1) 2 true "raise" None 2 in
  let r := run (H := unit) clock0 9 self None None tt in
  returns (fst r) /\
  draws (snd r) = 3%nat /\
  attempts (snd r) = 2 + 1 /\
  scored (snd r) = 2 + 1 /\
  evaluations (snd r) = budget_sub inf (2 + 1) /\
  budget_pos (evaluations (snd r)) = true.
Proof.
  apply (run_stops_at_search_timeout nat unit unit clock0 9
           (engine (constant_fitness 1) 2 true "raise" None 2) None None tt
           2%nat).
  - intros ev h. reflexivity.
  - cbn. lia.
  - intros k. eexists. reflexivity.
  - intros k s. exact I.
  - reflexivity.
  - split; [|reflexivity].
    intros k Hk. assert (k = 1%nat \/ k = 2%nat) as [->| ->] by lia;
      reflexivity.
  - exact I.
  - lia.
Defined.

(** ** A negative search timeout *)

Lemma negative_timeout_is_exceeded (Sol Sampler : Type)
    (self : SearchAlgorithm Sol Sampler) (t : Q) :
  _search_timeout self < 0 -> (0 <= t)%Q -> timed_out self t = true.
Proof.
  intros Hneg Ht. unfold timed_out, truthy, Qgt_bool.
  destruct (Z.eqb_spec (_search_timeout self) 0) as [Hz|_]; [lia|]. cbn.
  destruct (Qle_bool t (inject_Z (_search_timeout self))) eqn:Hle;
    [|reflexivity].
  apply Qle_bool_iff in Hle. unfold Qle in *. cbn in *.
  pose proof (Pos2Z.is_pos (Qden t)). nia.
Qed.

Section NegativeTimeout.

Variables (Sol Sampler H : Type) (clock : nat -> Q).
Variable self : SearchAlgorithm Sol Sampler.
Variable lg : logger_t Sol H.
Variables (s : Sol) (q : Q).
Hypothesis Htot : never_raises lg.
Hypothesis Hneg : _search_timeout self < 0.
Hypothesis Hclock : (clock 0%nat <= clock 1%nat)%Q.
Hypothesis Hpop : 1 <= _pop_size self.
Hypothesis Hfirst : scored_at self 0%nat = Some (s, q).

Lemma tracked_first (st : state Sol H) :
  draws st = 1%nat -> start_time st = clock 0%nat -> best_fn st = None ->
  scored st = 0 -> generations st = 1 -> finishes st = 0 ->
  exists st',
    checked clock self (tracked self lg s q st) = (Return Break, st') /\
    stop st' = true /\ past_first_score s q st' /\ finishes st' = 0.
Proof.
  intros H1 H2 H3 H4 H5 H6.
  assert (Hstop : stops clock self (tracked self lg s q st) = true).
  { unfold stops.
    replace (draws (tracked self lg s q st)) with 1%nat
      by (unfold tracked, logged; rewrite H3; cbn; congruence).
    replace (start_time (tracked self lg s q st)) with (clock 0%nat)
      by (unfold tracked, logged; rewrite H3; cbn; congruence).
    rewrite (negative_timeout_is_exceeded Sol Sampler self).
    - rewrite orb_true_r. reflexivity.
    - exact Hneg.
    - apply (proj1 (Qle_minus_iff _ _)). exact Hclock. }
  unfold checked. rewrite Hstop. eexists. split; [reflexivity|].
  unfold past_first_score, tracked, logged, scored, generations, finishes
    in *.
  rewrite H3. cbn. rewrite !count_snoc. cbn.
  repeat split; try assumption; lia.
Qed.

Lemma drawn_first_score (st : state Sol H) :
  at_first_draw clock st ->
  exists st',
    drawn clock self lg st = (Return Break, st') /\
    stop st' = true /\ past_first_score s q st' /\ finishes st' = 0.
Proof.
  intros (H1 & H2 & H3 & H4 & H5 & H6). unfold drawn. rewrite H1.
  unfold scored_at in Hfirst.
  destruct (generated self 0%nat) as [s'|e|]; try discriminate.
  destruct (_fitness_fn self 0%nat s') as [q'|e|]; try discriminate.
  - injection Hfirst as -> ->.
    apply tracked_first;
      unfold logged, scored, generations, finishes in *; cbn;
      rewrite ?count_snoc; cbn; try assumption; try reflexivity; lia.
  - destruct (isinstance_Exception e); [|discriminate].
    destruct (_errors self =? "raise")%string; [discriminate|].
    cbn in Hfirst. injection Hfirst as -> Hq. rewrite Hq.
    apply tracked_first;
      unfold logged, scored, generations, finishes in *; cbn;
      rewrite ?count_snoc; cbn; try assumption; try reflexivity; lia.
Qed.

Lemma generation_first_score (st : state Sol H) :
  draws st = 0%nat -> start_time st = clock 0%nat -> best_fn st = None ->
  scored st = 0 -> generations st = 0 -> finishes st = 0 ->
  exists st',
    generation clock self lg st = (Return Break, st') /\
    past_first_score s q st' /\ finishes st' = 1.
Proof.
  intros H1 H2 H3 H4 H5 H6. rewrite generation_eq by assumption.
  destruct (Z.to_nat (_pop_size self)) as [|n] eqn:Hn; [lia|].
  rewrite for_range_S, draw_eq by assumption.
  destruct (drawn_first_score (generation_entry lg st))
    as (st1 & -> & G1 & (G2 & G3 & G4 & G5 & G6) & G7).
  { unfold at_first_draw, generation_entry, logged, scored, generations,
      finishes in *. cbn. rewrite !count_snoc. cbn.
    repeat split; try assumption; lia. }
  unfold generation_exit. rewrite G1. eexists. split; [reflexivity|].
  unfold past_first_score, logged, scored, generations, finishes in *. cbn.
  rewrite !count_snoc. cbn. repeat split; try assumption; lia.
Qed.

Lemma search_first_score fuel b h :
  budget_pos b = true -> (1 <= fuel)%nat ->
  let r := search clock self lg fuel b (enter h) in
  fst r = Return (Some s, Some q) /\ past_first_score s q (snd r) /\
  finishes (snd r) = 1.
Proof.
  intros Hb Hf. cbn zeta. rewrite search_eq by assumption.
  destruct fuel as [|fuel]; [lia|].
  rewrite while_loop_S.
  replace (budget_pos (evaluations (search_entry clock lg b (enter h))))
    with true by (symmetry; exact Hb).
  destruct (generation_first_score (search_entry clock lg b (enter h)))
    as (st1 & -> & (G2 & G3 & G4 & G5 & G6) & G7);
    try reflexivity.
  unfold search_exit. cbn [fst snd]. rewrite G3, G4.
  split; [reflexivity|].
  unfold past_first_score, logged, scored, generations, finishes in *. cbn.
  rewrite !count_snoc. cbn. repeat split; try assumption; lia.
Qed.

End NegativeTimeout.

(** X8.  [search_timeout] is compared with the time spent, never with zero:
    a negative value is exceeded at the first test.  With a clock that does
    not run backwards, a budget that is positive or unbounded and a
    population of at least one, if the first draw yields a candidate [s] that
    is scored [q], then [run] stops there -- whatever [early_stop] is -- and
    returns [(s, q)] after one draw and one generation. *)
Theorem negative_search_timeout_stops_at_first_score
    (Sol Sampler H : Type) (clock : nat -> Q) (fuel : nat)
    (self : SearchAlgorithm Sol Sampler) (limit : option Z)
    (logger : option (logger_arg Sol H)) (h : H) (s : Sol) (q : Q)
    (Htot : never_raises (default_logger logger))
    (Hneg : _search_timeout self < 0)
    (Hclock : (clock 0%nat <= clock 1%nat)%Q)
    (Hbudget : budget_pos (default_evaluations limit) = true)
    (Hpop : 1 <= _pop_size self)
    (Hfirst : scored_at self 0%nat = Some (s, q))
    (Hfuel : (1 <= fuel)%nat) :
  let r := run clock fuel self limit logger h in
  fst r = Return (Some s, Some q) /\
  draws (snd r) = 1%nat /\
  scored (snd r) = 1 /\
  generations (snd r) = 1 /\
  finishes (snd r) = 1.
Proof.
  cbn zeta. unfold run.
  destruct (search_first_score Sol Sampler H clock self
              (default_logger logger) s q Htot Hneg Hclock Hpop Hfirst
              fuel (default_evaluations limit) h Hbudget Hfuel)
    as (G1 & (G2 & _ & _ & G5 & G6) & G7).
  repeat split; assumption.
Qed.

Lemma negative_search_timeout_stops_at_first_score_witness :
  let self := engine one_five_two 3 true "raise" None (-1) in
  let r := run (H := unit) clock0 1 self (Some 10) None tt in
  fst r = Return (Some 0%nat, Some 1%Q) /\
  draws (snd r) = 1%nat /\
  scored (snd r) = 1 /\
  generations (snd r) = 1 /\
  finishes (snd r) = 1.
Proof.
  apply (negative_search_timeout_stops_at_first_score nat unit unit clock0 1
           (engine one_five_two 3 true "raise" None (-1)) (Some 10) None tt
           0%nat 1%Q).
  - intros ev h. reflexivity.
  - cbn. lia.
  - discriminate.
  - reflexivity.
  - cbn. lia.
  - reflexivity.
  - lia.
Defined.

(** ** Every draw is accounted for *)

Section Draws.

Variables (Sol Sampler H : Type) (clock : nat -> Q).
Variable self : SearchAlgorithm Sol Sampler.
Variable lg : logger_t Sol H.
Hypothesis Htot : never_raises lg.

Lemma drawn_accounts (st : state Sol H) :
  settled st ->
  match drawn clock self lg st with
  | (Return _, st') => settled st'
  | (Raise e, st') =>
      if isinstance_Exception e then in_evaluation st'
      else raised_outside self e /\ (in_evaluation st' \/ in_generation st')
  | (Diverge, st') => in_evaluation st' \/ in_generation st'
  end.
Proof.
  intros [Ha Hd]. unfold drawn.
  destruct (generated self (draws st)) as [s|e|] eqn:Hg.
  - destruct (_fitness_fn self (draws st) s) as [q|e|] eqn:Hf.
    + unfold checked, tracked, logged, settled, attempts, scored, skipped
        in *.
      destruct (stops _ _ _), (improves _ _ _); cbn; rewrite !count_snoc;
        cbn; split; lia.
    + destruct (isinstance_Exception e) eqn:He.
      * destruct (_errors self =? "raise")%string.
        -- rewrite He.
           unfold logged, in_evaluation, attempts, scored, skipped in *.
           cbn. rewrite !count_snoc. cbn. split; lia.
        -- unfold checked, tracked, logged, settled, attempts, scored,
             skipped in *.
           destruct (stops _ _ _), (improves _ _ _); cbn;
             rewrite !count_snoc; cbn; split; lia.
      * rewrite He. split; [right; exists (draws st), s; auto|]. left.
        unfold logged, in_evaluation, attempts, scored, skipped in *.
        cbn. rewrite !count_snoc. cbn. split; lia.
    + left. unfold logged, in_evaluation, attempts, scored, skipped in *.
      cbn. rewrite !count_snoc. cbn. split; lia.
  - destruct (isinstance_Exception e) eqn:He.
    + unfold logged, settled, attempts, scored, skipped in *.
      cbn. rewrite !count_snoc. cbn. split; lia.
    + rewrite He. split; [left; exists (draws st); assumption|]. right.
      unfold in_generation, attempts, scored, skipped in *. cbn. split; lia.
  - right. unfold in_generation, attempts, scored, skipped in *. cbn.
    split; lia.
Qed.

Lemma logged_settled ev (st : state Sol H) :
  is_sample_solution ev = false -> is_eval_solution ev = false ->
  is_generation_error ev = false ->
  (settled st -> settled (logged lg ev st)) /\
  (in_evaluation st -> in_evaluation (logged lg ev st)) /\
  (in_generation st -> in_generation (logged lg ev st)).
Proof.
  intros E1 E2 E3.
  unfold settled, in_evaluation, in_generation, logged, attempts, scored,
    skipped. cbn. rewrite !count_snoc, E1, E2, E3, !Nat.add_0_r. auto.
Qed.

Lemma while_loop_accounts fuel (st : state Sol H) :
  settled st ->
  match while_loop fuel budget_left (generation clock self lg) st with
  | (Return _, st') => settled st'
  | (Raise e, st') =>
      if isinstance_Exception e then in_evaluation st'
      else raised_outside self e /\ (in_evaluation st' \/ in_generation st')
  | (Diverge, st') => settled st' \/ in_evaluation st' \/ in_generation st'
  end.
Proof.
  intros Hs.
  apply (while_loop_outcome Sol Sampler H clock self lg Htot
    settled settled settled
    (fun st => settled st \/ in_evaluation st \/ in_generation st)
    (fun e st =>
       if isinstance_Exception e then in_evaluation st
       else raised_outside self e /\ (in_evaluation st \/ in_generation st)));
    try assumption.
  - intros st0 H0 _. unfold generation_entry.
    apply (logged_settled (ev_start_generation (evaluations st0) (best_fn st0))
             (set_stop false st0) eq_refl eq_refl eq_refl). exact H0.
  - intros st0 H0. pose proof (drawn_accounts st0 H0) as Hd.
    destruct (drawn clock self lg st0) as [[[]|e|] st']; auto.
  - auto.
  - auto.
  - intros st0 H0.
    apply (logged_settled (ev_finish_generation (fns st0)) st0
             eq_refl eq_refl eq_refl). exact H0.
Qed.

Lemma search_draws fuel b h :
  let r := search clock self lg fuel b (enter h) in
  match fst r with
  | Return _ =>
      settled (snd r) \/
      (~ never_interrupted self /\
       (in_evaluation (snd r) \/ in_generation (snd r)))
  | Raise e =>
      if isinstance_Exception e then in_evaluation (snd r)
      else in_evaluation (snd r) \/ in_generation (snd r)
  | Diverge =>
      settled (snd r) \/ in_evaluation (snd r) \/ in_generation (snd r)
  end.
Proof.
  cbn zeta. rewrite search_eq by assumption.
  pose proof (while_loop_accounts fuel (search_entry clock lg b (enter h)))
    as Hw.
  assert (H0 : settled (search_entry clock lg b (enter h))).
  { unfold settled, search_entry, logged, attempts, scored, skipped, count.
    cbn. split; reflexivity. }
  specialize (Hw H0).
  destruct (while_loop _ _ _ _) as [[[]|e|] st'].
  - left. unfold search_exit. cbn [fst snd].
    apply (logged_settled (ev_end (best_solution st') (best_fn st')) st'
             eq_refl eq_refl eq_refl). exact Hw.
  - destruct e; cbn in Hw |- *; try exact Hw; try exact (proj2 Hw).
    right. destruct Hw as [Hout Hw]. split.
    + intros [Hg Hf].
      destruct Hout as [[k Hk]|(k & s & _ & Hk)];
        [elim (Hg k Hk)|elim (Hf k s Hk)].
    + destruct Hw as [Hw|Hw]; [left|right];
        apply (logged_settled (ev_end (best_solution st') (best_fn st')) st'
                 eq_refl eq_refl eq_refl); exact Hw.
  - exact Hw.
Qed.

End Draws.

(** X9.  Every call of the generator is accounted for in the calls made to
    the logger.  When [run] returns without having been interrupted, each
    draw was either skipped ([error] with no solution, the generator having
    failed) or attempted ([sample_solution]), and each attempt was scored
    ([eval_solution]).  When [run] propagates an [Exception], the last draw
    was attempted and not scored.  In every other case -- an interrupt, an
    exception that is not an [Exception], a run that does not end -- at most
    the last draw is missing from one of the two counts. *)
Theorem every_draw_is_accounted_for
    (Sol Sampler H : Type) (clock : nat -> Q) (fuel : nat)
    (self : SearchAlgorithm Sol Sampler) (limit : option Z)
    (logger : option (logger_arg Sol H)) (h : H)
    (Htot : never_raises (default_logger logger)) :
  let r := run clock fuel self limit logger h in
  match fst r with
  | Return _ =>
      settled (snd r) \/
      (~ never_interrupted self /\
       (in_evaluation (snd r) \/ in_generation (snd r)))
  | Raise e =>
      if isinstance_Exception e then in_evaluation (snd r)
      else in_evaluation (snd r) \/ in_generation (snd r)
  | Diverge =>
      settled (snd r) \/ in_evaluation (snd r) \/ in_generation (snd r)
  end.
Proof.
  cbn zeta. unfold run. apply search_draws. assumption.
Qed.

Lemma every_draw_is_accounted_for_witness :
  let self := late_engine (failing_at 4) 2 "continue" in
  let r := run (H := unit) clock0 9 self (Some 3) None tt in
  match fst r with
  | Return _ =>
      settled (snd r) \/
      (~ never_interrupted self /\
       (in_evaluation (snd r) \/ in_generation (snd r)))
  | Raise e =>
      if isinstance_Exception e then in_evaluation (snd r)
      else in_evaluation (snd r) \/ in_generation (snd r)
  | Diverge =>
      settled (snd r) \/ in_evaluation (snd r) \/ in_generation (snd r)
  end.
Proof.
  apply (every_draw_is_accounted_for nat unit unit clock0 9
           (late_engine (failing_at 4) 2 "continue") (Some 3) None tt).
  intros ev h. reflexivity.
Defined.

(** In the run of the witness three draws are skipped and three scored. *)
Example three_skipped_three_scored :
  let r := run (H := unit) clock0 9 (late_engine (failing_at 4) 2 "continue")
               (Some 3) None tt in
  returns (fst r) /\ draws (snd r) = 6%nat /\
  skipped (snd r) = 3 /\ attempts (snd r) = 3 /\ scored (snd r) = 3.
Proof.
  vm_compute. repeat split; try reflexivity. eexists; reflexivity.
Qed.

(** ** The evaluation budget *)

Section Accounting.

Variables (Sol Sampler H : Type) (clock : nat -> Q).
Variable self : SearchAlgorithm Sol Sampler.
Variable lg : logger_t Sol H.
Hypothesis Htot : never_raises lg.

(** Whatever the generator and the fitness function do, the budget left is
    the initial budget less the evaluations scored. *)
Lemma search_accounts fuel b h :
  let st := snd (search clock self lg fuel b (enter h)) in
  evaluations st = budget_sub b (scored st).
Proof.
  cbn zeta.
  apply (search_inv Sol Sampler H clock self lg Htot
           (fun st => evaluations st = budget_sub b (scored st))).
  - intros k st HI. exact HI.
  - intros ev st _ He HI. unfold logged, scored in *. cbn.
    rewrite count_snoc, He, Nat.add_0_r. exact HI.
  - intros s q st HI. unfold checked, tracked, logged, scored in *.
    destruct (stops _ _ _), (improves _ _ _); cbn; rewrite !count_snoc; cbn;
      rewrite HI; destruct b; cbn; try reflexivity; f_equal; lia.
  - intros st HI. unfold generation_entry, logged, scored in *. cbn.
    rewrite count_snoc. cbn. rewrite Nat.add_0_r. exact HI.
  - unfold search_entry, logged, scored, count. cbn.
    destruct b; cbn; [f_equal; lia|reflexivity].
Qed.

End Accounting.

Section Budget.
Variables (Sol Sampler H : Type) (clock : nat -> Q).
Variable self : SearchAlgorithm Sol Sampler.
Variable lg : logger_t Sol H.
Variable E : Z.
Hypothesis Htot : never_raises lg.
Hypothesis Hgen : generator_never_fails self.
Hypothesis Hfit : evaluation_tolerated self.
Hypothesis HE : 1 <= E.
Hypothesis Hpop : 1 <= _pop_size self.

Lemma logged_charged ev (st : state Sol H) :
  is_sample_solution ev = false -> is_eval_solution ev = false ->
  is_generation_error ev = false ->
  charged clock E st -> charged clock E (logged lg ev st).
Proof.
  intros E1 E2 E3. unfold charged, logged, attempts, scored, skipped. cbn.
  rewrite !count_snoc, E1, E2, E3, !Nat.add_0_r. auto.
Qed.

Lemma logged_stopped_early ev (st : state Sol H) :
  stopped_early self clock st -> stopped_early self clock (logged lg ev st).
Proof. unfold stopped_early, logged. cbn. auto. Qed.

(** Scoring the candidate of a draw, and the stop tests that follow. *)
Lemma tracked_charged s q (st : state Sol H) :
  Z.of_nat (draws st) = scored st + 1 -> attempts st = scored st + 1 ->
  skipped st = 0 -> start_time st = clock 0%nat ->
  evaluations st = fin (E - scored st) ->
  scored st < E -> no_improvement st <= scored st + 1 ->
  match checked clock self (tracked self lg s q st) with
  | (Return Next, st') =>
      charged clock E st' /\ scored st' = scored st + 1 /\ scored st' < E /\
      no_improvement st' <= scored st' /\ stop st' = stop st
  | (Return Break, st') =>
      charged clock E st' /\ scored st' = scored st + 1 /\
      no_improvement st' <= scored st' /\ stop st' = true /\
      (scored st' = E \/ stopped_early self clock st')
  | _ => False
  end.
Proof.
  intros H1 H2 H3 H4 H5 H6 H7.
  assert (H0 : 0 <= scored st) by (unfold scored; lia).
  unfold checked, stops.
  replace (evaluations (tracked self lg s q st)) with (fin (E - scored st))
    by (unfold tracked, logged; destruct (improves _ _ _); cbn;
        symmetry; exact H5).
  cbn [budget_pred budget_nonpos].
  assert (Hsc : scored (tracked self lg s q st) = scored st + 1).
  { unfold tracked, logged, scored.
    destruct (improves _ _ _); cbn; rewrite !count_snoc; cbn; lia. }
  assert (Hch : forall b (st' : state Sol H),
             evaluations st' = fin (E - scored st - 1) ->
             calls st' = calls (tracked self lg s q st) ->
             draws st' = draws st -> start_time st' = start_time st ->
             no_improvement st' = no_improvement (tracked self lg s q st) ->
             stop st' = b ->
             charged clock E st' /\ scored st' = scored st + 1 /\
             no_improvement st' <= scored st' /\ stop st' = b).
  { intros b st' G1 G2 G3 G4 G5 G6.
    assert (Gs : scored st' = scored st + 1)
      by (unfold scored in *; rewrite G2; exact Hsc).
    assert (Ga : attempts st' = scored st + 1).
    { unfold attempts in *. rewrite G2, <- H2. unfold tracked, logged.
      destruct (improves _ _ _); cbn; rewrite !count_snoc; cbn; lia. }
    assert (Gk : skipped st' = 0).
    { unfold skipped in *. rewrite G2, <- H3. unfold tracked, logged.
      destruct (improves _ _ _); cbn; rewrite !count_snoc; cbn; lia. }
    unfold charged. rewrite Gs, Ga, Gk, G3, G4, G1, G5.
    repeat split; try assumption; try lia.
    - f_equal. lia.
    - unfold tracked, logged. destruct (improves _ _ _); cbn; lia. }
  destruct ((E - scored st - 1 <=? 0)
            || timed_out self
                 (clock (draws (tracked self lg s q st))
                  - start_time (tracked self lg s q st))
            || early_stopped self
                 (no_improvement (tracked self lg s q st))) eqn:Hst.
  - destruct (Hch true
                (set_stop true
                   (set_evaluations (fin (E - scored st - 1))
                      (tracked self lg s q st))))
      as (G1 & G2 & G3 & G4); try reflexivity.
    { unfold tracked, logged. destruct (improves _ _ _); reflexivity. }
    { unfold tracked, logged. destruct (improves _ _ _); reflexivity. }
    split; [exact G1|]. split; [exact G2|]. split; [exact G3|].
    split; [exact G4|].
    apply orb_true_iff in Hst. destruct Hst as [Hst|Hst];
      [apply orb_true_iff in Hst; destruct Hst as [Hst|Hst]|].
    + left. apply Z.leb_le in Hst. lia.
    + right. left. exact Hst.
    + right. right. exact Hst.
  - destruct (Hch (stop st)
                (set_evaluations (fin (E - scored st - 1))
                   (tracked self lg s q st)))
      as (G1 & G2 & G3 & G4); try reflexivity.
    { unfold tracked, logged. destruct (improves _ _ _); reflexivity. }
    { unfold tracked, logged. destruct (improves _ _ _); reflexivity. }
    { unfold tracked, logged. destruct (improves _ _ _); reflexivity. }
    split; [exact G1|]. split; [exact G2|]. split; [|split; assumption].
    apply orb_false_iff in Hst. destruct Hst as [Hst _].
    apply orb_false_iff in Hst. destruct Hst as [Hst _].
    apply Z.leb_gt in Hst. lia.
Qed.

Lemma drawn_charged (st : state Sol H) :
  charged clock E st -> scored st < E -> no_improvement st <= scored st + 1 ->
  match drawn clock self lg st with
  | (Return Next, st') =>
      charged clock E st' /\ scored st' = scored st + 1 /\ scored st' < E /\
      no_improvement st' <= scored st' /\ stop st' = stop st
  | (Return Break, st') =>
      charged clock E st' /\ scored st' = scored st + 1 /\
      no_improvement st' <= scored st' /\ stop st' = true /\
      (scored st' = E \/ stopped_early self clock st')
  | _ => False
  end.
Proof.
  intros (C1 & C2 & C3 & C4 & C5) Hlt Hni. unfold drawn.
  destruct (Hgen (draws st)) as [s ->].
  pose proof (Hfit (draws st) s) as Hf.
  assert (Hsample :
            forall st2 : state Sol H,
              st2 = logged lg (ev_sample_solution s)
                      (set_draws (S (draws st)) st) ->
              Z.of_nat (draws st2) = scored st2 + 1 /\
              attempts st2 = scored st2 + 1 /\ skipped st2 = 0 /\
              start_time st2 = clock 0%nat /\
              evaluations st2 = fin (E - scored st2) /\
              scored st2 = scored st /\
              no_improvement st2 = no_improvement st /\ stop st2 = stop st).
  { intros st2 ->. unfold logged, attempts, scored, skipped in *. cbn.
    rewrite !count_snoc. cbn. rewrite !Nat.add_0_r.
    repeat split; try assumption; lia. }
  destruct (_fitness_fn self (draws st) s) as [q|e|]; [| |contradiction].
  - destruct (Hsample _ eq_refl) as (S1 & S2 & S3 & S4 & S5 & S6 & S7 & S8).
    pose proof (tracked_charged s q _ S1 S2 S3 S4 S5 ltac:(lia) ltac:(lia))
      as Ht.
    rewrite S6, S8 in Ht. exact Ht.
  - destruct Hf as [-> ->].
    destruct (Hsample _ eq_refl) as (S1 & S2 & S3 & S4 & S5 & S6 & S7 & S8).
    assert (Herr :
              forall st3 : state Sol H,
                st3 = logged lg (ev_error (err_exn e) (Some s))
                        (logged lg (ev_sample_solution s)
                           (set_draws (S (draws st)) st)) ->
                Z.of_nat (draws st3) = scored st3 + 1 /\
                attempts st3 = scored st3 + 1 /\ skipped st3 = 0 /\
                start_time st3 = clock 0%nat /\
                evaluations st3 = fin (E - scored st3) /\
                scored st3 = scored st /\
                no_improvement st3 = no_improvement st /\
                stop st3 = stop st).
    { intros st3 ->. unfold logged, attempts, scored, skipped in *.
      cbn in *. rewrite !count_snoc in *. cbn in *.
      rewrite !Nat.add_0_r in *.
      repeat split; try assumption; lia. }
    destruct (Herr _ eq_refl) as (T1 & T2 & T3 & T4 & T5 & T6 & T7 & T8).
    pose proof (tracked_charged s 0%Q _ T1 T2 T3 T4 T5 ltac:(lia) ltac:(lia))
      as Ht.
    rewrite T6, T8 in Ht. exact Ht.
Qed.

Lemma for_range_charged n : forall st : state Sol H,
  charged clock E st -> scored st < E -> no_improvement st <= scored st + 1 ->
  stop st = false ->
  exists st',
    for_range n (draw clock self lg) st = (Return tt, st') /\
    charged clock E st' /\
    ((n = 0%nat /\ st' = st) \/
     (scored st < scored st' <= E /\ no_improvement st' <= scored st' /\
      ((stop st' = false /\ scored st' < E) \/
       (stop st' = true /\
        (scored st' = E \/ stopped_early self clock st'))))).
Proof.
  induction n as [|n IH]; intros st Hc Hlt Hni Hs.
  - exists st. split; [reflexivity|]. split; [exact Hc|]. left. auto.
  - rewrite for_range_S, draw_eq by assumption.
    pose proof (drawn_charged st Hc Hlt Hni) as Hd.
    destruct (drawn clock self lg st) as [[[]|e|] st1]; try contradiction.
    + destruct Hd as (D1 & D2 & D3 & D4 & D5).
      destruct (IH st1 D1 D3 ltac:(lia) ltac:(congruence))
        as (st' & -> & G1 & G2).
      exists st'. split; [reflexivity|]. split; [exact G1|]. right.
      destruct G2 as [[_ ->]|(G2 & G3 & G4)].
      * split; [lia|]. split; [exact D4|]. left. split; [congruence|exact D3].
      * split; [lia|]. split; assumption.
    + destruct Hd as (D1 & D2 & D3 & D4 & D5).
      exists st1. split; [reflexivity|]. split; [exact D1|]. right.
      split; [lia|]. split; [exact D3|]. right. split; assumption.
Qed.

Lemma generation_charged (st : state Sol H) :
  charged clock E st -> scored st < E -> no_improvement st <= scored st ->
  exists st',
    charged clock E st' /\ scored st < scored st' <= E /\
    no_improvement st' <= scored st' /\
    ((generation clock self lg st = (Return Next, st') /\ scored st' < E) \/
     (generation clock self lg st = (Return Break, st') /\
      (scored st' = E \/ stopped_early self clock st'))).
Proof.
  intros Hc Hlt Hni. rewrite generation_eq by assumption.
  assert (He : charged clock E (generation_entry lg st) /\
               scored (generation_entry lg st) = scored st /\
               no_improvement (generation_entry lg st)
                 = no_improvement st + 1).
  { unfold generation_entry. split.
    - apply (logged_charged
               (ev_start_generation (evaluations st) (best_fn st))
               (set_stop false st) eq_refl eq_refl eq_refl). exact Hc.
    - unfold logged, scored. cbn. rewrite count_snoc. cbn.
      split; [lia|reflexivity]. }
  destruct He as (E1 & E2 & E3).
  destruct (for_range_charged (Z.to_nat (_pop_size self))
              (generation_entry lg st) E1 ltac:(lia) ltac:(lia) eq_refl)
    as (st1 & -> & G1 & G2).
  destruct G2 as [[Hn _]|(G2 & G3 & G4)]; [lia|].
  unfold generation_exit.
  exists (logged lg (ev_finish_generation (fns st1)) st1).
  assert (Hsc : scored (logged lg (ev_finish_generation (fns st1)) st1)
                = scored st1).
  { unfold logged, scored. cbn. rewrite count_snoc. cbn. lia. }
  split.
  { apply logged_charged; [reflexivity|reflexivity|reflexivity|exact G1]. }
  rewrite Hsc. split; [lia|]. split; [exact G3|].
  destruct G4 as [[-> G4]|[-> G4]]; [left|right];
    (split; [reflexivity|]); [exact G4|].
  destruct G4 as [G4|G4]; [left; exact G4|right].
  apply logged_stopped_early. exact G4.
Qed.

Lemma while_loop_charged fuel : forall st : state Sol H,
  charged clock E st -> no_improvement st <= scored st ->
  scored st <= E -> E - scored st <= Z.of_nat fuel ->
  exists st',
    while_loop fuel budget_left (generation clock self lg) st
      = (Return tt, st') /\
    charged clock E st' /\ no_improvement st' <= scored st' /\
    scored st <= scored st' <= E /\
    (scored st < E ->
     scored st < scored st' /\
     (scored st' = E \/ stopped_early self clock st')).
Proof.
  induction fuel as [|fuel IH]; intros st Hc Hni Hle Hf.
  - rewrite while_loop_O.
    replace (budget_pos (evaluations st)) with false.
    2:{ destruct Hc as (_ & _ & _ & _ & ->). cbn. symmetry.
        apply Z.ltb_ge. lia. }
    exists st. split; [reflexivity|]. split; [exact Hc|].
    split; [exact Hni|]. split; lia.
  - rewrite while_loop_S.
    destruct (Z.eq_dec (scored st) E) as [Heq|Hne].
    + replace (budget_pos (evaluations st)) with false.
      2:{ destruct Hc as (_ & _ & _ & _ & ->). cbn. symmetry.
          apply Z.ltb_ge. lia. }
      exists st. split; [reflexivity|]. split; [exact Hc|].
      split; [exact Hni|]. split; lia.
    + replace (budget_pos (evaluations st)) with true.
      2:{ destruct Hc as (_ & _ & _ & _ & ->). cbn. symmetry.
          apply Z.ltb_lt. lia. }
      destruct (generation_charged st Hc ltac:(lia) Hni)
        as (st1 & G1 & G2 & G3 & [[-> G4]|[-> G4]]).
      * destruct (IH st1 G1 G3 ltac:(lia) ltac:(lia))
          as (st' & -> & K1 & K2 & K3 & K4).
        exists st'. split; [reflexivity|]. split; [exact K1|].
        split; [exact K2|]. split; [lia|]. intros _.
        split; [lia|]. apply K4. exact G4.
      * exists st1. split; [reflexivity|]. split; [exact G1|].
        split; [exact G3|]. split; [lia|]. intros _.
        split; [lia|exact G4].
Qed.

Lemma search_charged fuel h :
  E <= Z.of_nat fuel ->
  let r := search clock self lg fuel (fin E) (enter h) in
  returns (fst r) /\ charged clock E (snd r) /\
  no_improvement (snd r) <= scored (snd r) /\ 1 <= scored (snd r) <= E /\
  (scored (snd r) = E \/ stopped_early self clock (snd r)).
Proof.
  intros Hf. cbn zeta. rewrite search_eq by assumption.
  assert (H0 : charged clock E (search_entry clock lg (fin E) (enter h)) /\
               scored (search_entry clock lg (fin E) (enter h)) = 0 /\
               no_improvement (search_entry clock lg (fin E) (enter h)) = 0).
  { unfold charged, search_entry, logged, attempts, scored, skipped, count.
    cbn. repeat split. f_equal. lia. }
  destruct H0 as (C0 & S0 & N0).
  destruct (while_loop_charged fuel _ C0 ltac:(lia) ltac:(lia) ltac:(lia))
    as (st' & -> & K1 & K2 & K3 & K4).
  destruct (K4 ltac:(lia)) as [K5 K6].
  unfold search_exit. cbn [fst snd].
  assert (Hsc : scored (logged lg (ev_end (best_solution st') (best_fn st'))
                          st') = scored st').
  { unfold logged, scored. cbn. rewrite count_snoc. cbn. lia. }
  split; [eexists; reflexivity|]. split.
  { apply logged_charged; [reflexivity|reflexivity|reflexivity|exact K1]. }
  rewrite Hsc. split; [exact K2|]. split; [lia|].
  destruct K6 as [K6|K6]; [left; exact K6|right].
  apply logged_stopped_early. exact K6.
Qed.

End Budget.

(** C1, as amended.  In every run with a finite budget [E], whatever the
    generator and the fitness function do, the budget left is [E] less the
    number of evaluations scored: it is decremented once per evaluation that
    is scored -- a success, or a failure the error policy tolerates -- and
    never for a generator failure.  An evaluation failure that [run]
    propagates, under the raise policy, is the one attempt that was not
    scored: the budget was not decremented for it.  With a population of at
    least one, [E >= 1], a generator that never fails, no interrupt and no
    evaluation failing under the raise policy, [run] returns having scored
    every attempt, and it has made exactly [E] attempts unless it was
    stopped by the timeout test or by the early-stop test, which then holds
    of the state the run ends in.  In particular it makes exactly [E]
    attempts, and leaves a budget of 0, when the time spent since the start
    stays within [search_timeout] at each of the first [E - 1] evaluations
    and [early_stop] is absent, 0 or at least [E]. *)
Theorem budget_spent_exactly
    (Sol Sampler H : Type) (clock : nat -> Q) (fuel : nat)
    (self : SearchAlgorithm Sol Sampler) (E : Z)
    (logger : option (logger_arg Sol H)) (h : H)
    (Htot : never_raises (default_logger logger)) :
  let r := run clock fuel self (Some E) logger h in
  evaluations (snd r) = fin (E - scored (snd r)) /\
  (forall e, fst r = Raise e -> isinstance_Exception e = true ->
     _errors self = "raise" /\ attempts (snd r) = scored (snd r) + 1) /\
  (1 <= _pop_size self ->
   1 <= E ->
   generator_never_fails self ->
   evaluation_tolerated self ->
   E <= Z.of_nat fuel ->
   returns (fst r) /\
   attempts (snd r) = scored (snd r) /\
   skipped (snd r) = 0 /\
   1 <= scored (snd r) <= E /\
   (scored (snd r) = E \/ stopped_early self clock (snd r)) /\
   ((forall k, (1 <= k)%nat -> Z.of_nat k < E ->
       timed_out self (clock k - clock 0%nat) = false) ->
    (forall n, n <= E -> early_stopped self n = false) ->
    attempts (snd r) = E /\
    scored (snd r) = E /\
    evaluations (snd r) = fin 0)).
Proof.
  cbn zeta. unfold run. cbn [default_evaluations].
  pose proof (search_accounts Sol Sampler H clock self (default_logger logger)
                Htot fuel (fin E) h) as Hacc.
  cbn zeta in Hacc. cbn [budget_sub] in Hacc.
  split; [exact Hacc|]. split.
  - intros e He Hexc.
    destruct (search_raises Sol Sampler H clock self (default_logger logger)
                Htot fuel (fin E) h e He) as (_ & _ & Hr).
    split; [exact (proj1 (Hr Hexc))|].
    pose proof (search_draws Sol Sampler H clock self (default_logger logger)
                  Htot fuel (fin E) h) as Hd.
    cbn zeta in Hd. rewrite He, Hexc in Hd. exact (proj1 Hd).
  - intros Hpop HE Hgen Hfit Hfuel.
    destruct (search_charged Sol Sampler H clock self (default_logger logger)
                E Htot Hgen Hfit HE Hpop fuel h Hfuel)
      as (G1 & (C1 & C2 & C3 & C4 & C5) & G3 & G4 & G5).
    split; [exact G1|]. split; [exact C2|]. split; [exact C3|].
    split; [exact G4|]. split; [exact G5|].
    intros Htime Hearly.
    assert (Hs : scored (snd (search clock self (default_logger logger) fuel
                                (fin E) (enter h))) = E).
    { destruct (Z.eq_dec
                  (scored (snd (search clock self (default_logger logger)
                                  fuel (fin E) (enter h)))) E)
        as [Heq|Hne]; [exact Heq|].
      destruct G5 as [G5|[G5|G5]]; [exact G5| |].
      - rewrite C4 in G5. rewrite Htime in G5; [discriminate|lia|lia].
      - rewrite Hearly in G5; [discriminate|lia]. }
    split; [lia|]. split; [exact Hs|]. rewrite C5, Hs. f_equal. lia.
Qed.

(** C1 at a run of five evaluations, one of which fails and is tolerated,
    under the constructor's default search timeout of one hour. *)
Lemma budget_spent_exactly_witness :
  let self := engine (failing_at 1) 2 true "continue" None 3600 in
  let r := run (H := unit) clock0 5 self (Some 5) None tt in
  evaluations (snd r) = fin (5 - scored (snd r)) /\
  returns (fst r) /\
  attempts (snd r) = 5 /\
  scored (snd r) = 5 /\
  skipped (snd r) = 0 /\
  evaluations (snd r) = fin 0.
Proof.
  cbn zeta.
  destruct (budget_spent_exactly nat unit unit clock0 5
              (engine (failing_at 1) 2 true "continue" None 3600) 5 None tt)
    as (Hleft & _ & Hall).
  - intros ev h. reflexivity.
  - destruct Hall as (G1 & G2 & G3 & G4 & G5 & G6).
    + cbn. lia.
    + lia.
    + intros k. eexists. reflexivity.
    + intros k s. cbn. unfold failing_at. destruct (Nat.eqb k 1); cbn; auto.
    + cbn. lia.
    + destruct G6 as (K1 & K2 & K3).
      * intros k Hk1 Hk2.
        assert (k = 1 \/ k = 2 \/ k = 3 \/ k = 4)%nat
          as [->|[->|[->| ->]]] by lia; reflexivity.
      * intros n _. reflexivity.
      * repeat split; assumption.
Defined.

(** C1 as stated fails: under the raise policy (the default) the first
    failing evaluation ends the run, although the generator never fails and
    neither timeout, early stop nor interrupt occurs.  With a budget of 3 a
    single attempt is made, and the budget is not decremented for it. *)
Lemma budget_not_spent_under_raise :
  let self := engine always_failing 1 true "raise" None 0 in
  let r := run (H := unit) clock0 3 self (Some 3) None tt in
  generator_never_fails self /\
  (forall k s, _fitness_fn self k s = Raise (Exception "boom")) /\
  fst r = Raise (Exception "boom") /\
  attempts (snd r) = 1 /\
  evaluations (snd r) = fin 3.
Proof.
  cbn zeta. split; [intros k; eexists; reflexivity|].
  split; [reflexivity|]. vm_compute. repeat split; reflexivity.
Qed.

(** ** MultiLogger over any number of loggers *)

Section Loggers.

Variables (Sol : Type) (H : Type).

Lemma MultiLogger_app (l1 l2 : list (logger_t Sol H)) ev h :
  MultiLogger (l1 ++ l2) ev h =
  match MultiLogger l1 ev h with
  | (Return _, h1) => MultiLogger l2 ev h1
  | (Raise e, h1) => (Raise e, h1)
  | (Diverge, h1) => (Diverge, h1)
  end.
Proof.
  unfold MultiLogger. revert h.
  induction l1 as [|lg l1 IH]; intros h; [reflexivity|].
  cbn. destruct (lg ev h) as [[[]|e|] h1]; try reflexivity. apply IH.
Qed.

Lemma MultiLogger_all (l : list (logger_t Sol H)) :
  Forall (never_raises (H := H)) l ->
  forall ev h,
    MultiLogger l ev h =
    (Return tt, fold_left (fun h1 lg => snd (lg ev h1)) l h).
Proof.
  unfold MultiLogger.
  induction 1 as [|lg l Hlg _ IH]; intros ev h; [reflexivity|].
  cbn. specialize (Hlg ev h). destruct (lg ev h) as [o h1]. cbn in Hlg.
  subst o. apply IH.
Qed.

End Loggers.

(** X10.  [MultiLogger.run] goes through [self.loggers] from left to right
    and an exception leaves the loop, so a MultiLogger over the
    concatenation of two lists behaves as the MultiLogger of the first list
    followed -- when that one returned -- by the MultiLogger of the second;
    the loggers behind one that raises are not invoked, whatever they are;
    and nesting MultiLoggers is the same as concatenating their lists. *)
Theorem multilogger_concatenation
    (Sol H : Type) (l1 l2 : list (logger_t Sol H)) (ev : event Sol) (h : H) :
  MultiLogger (l1 ++ l2) ev h =
    match MultiLogger l1 ev h with
    | (Return _, h1) => MultiLogger l2 ev h1
    | (Raise e, h1) => (Raise e, h1)
    | (Diverge, h1) => (Diverge, h1)
    end /\
  (forall e h1 l2',
     MultiLogger l1 ev h = (Raise e, h1) ->
     MultiLogger (l1 ++ l2') ev h = (Raise e, h1)) /\
  MultiLogger [MultiLogger l1; MultiLogger l2] ev h
    = MultiLogger (l1 ++ l2) ev h.
Proof.
  split; [apply MultiLogger_app|]. split.
  - intros e h1 l2' Hr. rewrite MultiLogger_app, Hr. reflexivity.
  - rewrite MultiLogger_app.
    change (MultiLogger [MultiLogger l1; MultiLogger l2] ev h)
      with (match MultiLogger l1 ev h with
            | (Return _, h') =>
                match MultiLogger l2 ev h' with
                | (Return _, h'') => (Return tt, h'')
                | (Raise e, h'') => (Raise e, h'')
                | (Diverge, h'') => (Diverge, h'')
                end
            | (Raise e, h') => (Raise e, h')
            | (Diverge, h') => (Diverge, h')
            end).
    destruct (MultiLogger l1 ev h) as [[[]|e|] h1]; try reflexivity.
    destruct (MultiLogger l2 ev h1) as [[[]|e|] h2]; reflexivity.
Qed.

(** X11.  When none of its loggers raises, a MultiLogger does not raise
    either, and what a hook invocation leaves behind is the effect of the
    hook of each logger, taken in the order of the list. *)
Theorem multilogger_reaches_every_logger
    (Sol H : Type) (loggers : list (logger_t Sol H))
    (Hall : Forall (never_raises (H := H)) loggers) :
  never_raises (MultiLogger loggers) /\
  forall ev h,
    snd (MultiLogger loggers ev h)
    = fold_left (fun h1 lg => snd (lg ev h1)) loggers h.
Proof.
  split; intros ev h; rewrite (MultiLogger_all Sol H loggers Hall);
    reflexivity.
Qed.

Lemma multilogger_reaches_every_logger_witness :
  let loggers := [recorder "A"; recorder "B"; recorder "C"] in
  never_raises (MultiLogger loggers) /\
  forall ev h,
    snd (MultiLogger loggers ev h)
    = fold_left (fun h1 lg => snd (lg ev h1)) loggers h.
Proof.
  apply (multilogger_reaches_every_logger nat (list (string * event nat))
           [recorder "A"; recorder "B"; recorder "C"]).
  repeat constructor.
Defined.

(** ** Loggers are observers *)

(** X12.  The logger takes no part in the search: with a logger (or a list
    of loggers) whose hooks return, [run] ends as it does with no logger at
    all, having made the same calls in the same order; and the logger is
    left in the state that these calls, handed to its hooks one after the
    other, produce. *)
Theorem loggers_only_observe
    (Sol Sampler H : Type) (clock : nat -> Q) (fuel : nat)
    (self : SearchAlgorithm Sol Sampler) (limit : option Z)
    (logger : option (logger_arg Sol H)) (h : H)
    (Htot : never_raises (default_logger logger)) :
  let r := run clock fuel self limit logger h in
  let r0 := run clock fuel self limit None tt in
  fst r = fst r0 /\
  calls (snd r) = calls (snd r0) /\
  draws (snd r) = draws (snd r0) /\
  heap (snd r) = delivered (default_logger logger) (calls (snd r)) h.
Proof.
  cbn zeta. unfold run. cbn [default_logger].
  assert (H0 : never_raises (Logger (Sol := Sol) (H := unit)))
    by (intros ev h0; reflexivity).
  rewrite !search_eq by assumption.
  assert (He : locals (search_entry clock (default_logger logger)
                         (default_evaluations limit) (enter h)) =
               locals (search_entry clock Logger
                         (default_evaluations limit) (enter tt)))
    by reflexivity.
  destruct (while_loop_same Sol Sampler clock self H unit
              (default_logger logger) Logger Htot H0 fuel _ _ He) as [Ho Hs].
  pose proof (search_delivered Sol Sampler clock self H
                (default_logger logger) fuel (default_evaluations limit) h
                Htot) as Hd.
  cbn zeta in Hd. rewrite search_eq in Hd by assumption.
  destruct (while_loop fuel _ _ (search_entry clock (default_logger logger)
              (default_evaluations limit) (enter h))) as [o1 st1],
    (while_loop fuel _ _ (search_entry clock Logger
              (default_evaluations limit) (enter tt))) as [o2 st2].
  cbn in Ho, Hs. subst o2. same_states st1 st2 Hs.
  destruct o1 as [[]|e|]; cbn in *.
  - repeat split; try reflexivity; assumption.
  - destruct (isinstance_KeyboardInterrupt e); cbn in *;
      repeat split; try reflexivity; assumption.
  - repeat split; try reflexivity; assumption.
Qed.

Lemma loggers_only_observe_witness :
  let self := engine one_five_two 2 true "raise" None 0 in
  let logger := Some (logger_list [recorder "A"; recorder "B"]) in
  let r := run clock0 3 self (Some 3) logger [] in
  let r0 := run clock0 3 self (Some 3) None tt in
  fst r = fst r0 /\
  calls (snd r) = calls (snd r0) /\
  draws (snd r) = draws (snd r0) /\
  heap (snd r) = delivered (default_logger logger) (calls (snd r)) [].
Proof.
  apply (loggers_only_observe nat unit (list (string * event nat)) clock0 3
           (engine one_five_two 2 true "raise" None 0) (Some 3)
           (Some (logger_list [recorder "A"; recorder "B"])) []).
  intros ev h. reflexivity.
Defined.

(** ** What MemoryLogger records *)

Section Memory.

Variable Sol : Type.

Lemma set_last_item_snoc pre c v :
  set_last_item (pre ++ [c]) v = Some (pre ++ [v]).
Proof.
  unfold set_last_item. rewrite rev_app_distr. cbn.
  rewrite rev_involutive. reflexivity.
Qed.

Lemma last_item_app_snoc (pre : list Q) c : last_item (pre ++ [c]) = Some c.
Proof. unfold last_item. rewrite rev_app_distr. reflexivity. Qed.

(** One hook invocation on an object whose best-so-far list is not empty. *)
Lemma MemoryLogger_hook (ev : event Sol) obj pre c :
  generation_best_fn obj = pre ++ [c] ->
  fst (MemoryLogger Sol ev obj) = Return tt /\
  match ev with
  | ev_update_best _ q _ _ =>
      generation_best_fn (snd (MemoryLogger Sol ev obj)) = pre ++ [q] /\
      generation_mean_fn (snd (MemoryLogger Sol ev obj))
        = generation_mean_fn obj
  | ev_finish_generation f =>
      generation_best_fn (snd (MemoryLogger Sol ev obj)) = (pre ++ [c]) ++ [c] /\
      generation_mean_fn (snd (MemoryLogger Sol ev obj))
        = generation_mean_fn obj ++ [mean_or_zero f]
  | _ => snd (MemoryLogger Sol ev obj) = obj
  end.
Proof.
  intros Hb. destruct ev; cbn; try (split; reflexivity).
  - unfold MemoryLogger_finish_generation. cbn. rewrite Hb, last_item_app_snoc.
    cbn. repeat split; reflexivity.
  - unfold MemoryLogger_update_best. rewrite Hb, set_last_item_snoc. cbn.
    repeat split; reflexivity.
Qed.

Lemma MemoryLogger_delivered (evs : list (event Sol)) : forall obj pre c,
  generation_best_fn obj = pre ++ [c] ->
  generation_best_fn (delivered (MemoryLogger Sol) evs obj)
    = pre ++ best_series c evs /\
  generation_mean_fn (delivered (MemoryLogger Sol) evs obj)
    = generation_mean_fn obj ++ map mean_or_zero (finished evs).
Proof.
  unfold delivered.
  induction evs as [|ev evs IH]; intros obj pre c Hb.
  - cbn. rewrite app_nil_r. split; [exact Hb|reflexivity].
  - cbn [fold_left].
    destruct (MemoryLogger_hook ev obj pre c Hb) as [_ Hs].
    destruct ev;
      try (rewrite Hs; exact (IH obj pre c Hb)).
    + destruct Hs as [H1 H2].
      destruct (IH _ (pre ++ [c]) c H1) as [G1 G2].
      rewrite G1, G2, H2. cbn. rewrite <- !app_assoc. split; reflexivity.
    + destruct Hs as [H1 H2].
      destruct (IH _ pre new_fn H1) as [G1 G2].
      rewrite G1, G2, H2. split; reflexivity.
Qed.

Lemma best_series_last (evs : list (event Sol)) : forall c,
  exists pre,
    best_series c evs
    = pre ++ [match last_item (best_trace evs) with
              | Some q => q
              | None => c
              end] /\
    List.length pre = List.length (finished evs).
Proof.
  induction evs as [|ev evs IH]; intros c.
  - exists []. split; reflexivity.
  - destruct ev; cbn [best_series best_trace finished]; try apply IH.
    + destruct (IH c) as (pre & -> & Hl). exists (c :: pre).
      split; [reflexivity|]. cbn. rewrite Hl. reflexivity.
    + destruct (IH new_fn) as (pre & -> & Hl). exists pre.
      split; [|exact Hl]. f_equal. f_equal.
      destruct (best_trace evs) as [|b l] eqn:Hbt; [reflexivity|].
      change (last_item (new_fn :: b :: l)) with
        (match rev (b :: l) ++ [new_fn] with
         | [] => None
         | x :: _ => Some x
         end).
      unfold last_item.
      destruct (rev (b :: l)) as [|x r] eqn:Hr; [|reflexivity].
      apply (f_equal (@List.length Q)) in Hr. rewrite length_rev in Hr.
      discriminate.
Qed.

End Memory.

(** X13.  A MemoryLogger that has received any sequence of hook invocations
    since it was created never fails on the next one -- its best-so-far list
    is never empty -- and its two lists are functions of the calls received:
    [generation_mean_fn] holds, for each [finish_generation] call, the mean
    of its argument (0 for an empty one); [generation_best_fn] holds the
    best fitness reported by [update_best] at each [finish_generation] call
    (0 before the first report), followed by one entry for the generation
    under way.  It is therefore always one entry longer than
    [generation_mean_fn], and its last entry is the latest fitness reported
    by [update_best]. *)
Theorem memory_logger_records_every_generation
    (Sol : Type) (evs : list (event Sol)) :
  let obj := delivered (MemoryLogger Sol) evs MemoryLogger_init in
  (forall ev, fst (MemoryLogger Sol ev obj) = Return tt) /\
  generation_mean_fn obj = map mean_or_zero (finished evs) /\
  generation_best_fn obj = best_series 0%Q evs /\
  List.length (generation_best_fn obj)
    = S (List.length (generation_mean_fn obj)) /\
  last_item (generation_best_fn obj)
    = Some (match last_item (best_trace evs) with
            | Some q => q
            | None => 0%Q
            end).
Proof.
  cbn zeta.
  destruct (MemoryLogger_delivered Sol evs MemoryLogger_init [] 0%Q eq_refl)
    as [Hb Hm].
  cbn [app] in Hb. cbn [generation_mean_fn MemoryLogger_init app] in Hm.
  destruct (best_series_last Sol evs 0%Q) as (pre & Hs & Hl).
  split.
  - intros ev.
    apply (MemoryLogger_hook Sol ev
             (delivered (MemoryLogger Sol) evs MemoryLogger_init) pre
             (match last_item (best_trace evs) with
              | Some q => q
              | None => 0%Q
              end)).
    rewrite Hb. exact Hs.
  - split; [exact Hm|]. split; [exact Hb|]. split.
    + rewrite Hb, Hm, Hs, length_app, length_map, Hl. cbn. lia.
    + rewrite Hb, Hs. apply last_item_app_snoc.
Qed.
